(** * Shape-level and value-level verification of [model/UNet.py]

    The development embeds the joint image/parameter diffusion network of
    [model/UNet.py]: the module constructors (with the exceptions they raise),
    the assembly loops of [UNet.__init__] and [UNet_Energy.__init__], and the
    forward passes.  The forward passes of the two networks are written once,
    over an abstract tensor type with an interface of block semantics, and
    instantiated on tensor shapes, where every block's forward pass is
    embedded operation by operation.  The two numeric kernels the
    specification talks about are embedded on values: [timestep_embedding]
    on lists of scalars with abstract arithmetic, and the attention weights
    of [CrossModalAttentionBlock] on real-valued tensors.  The attended
    values of both attention blocks follow on real-valued tensors, and the
    training driver [train] of [train-energy.py] is embedded over its
    collaborators, with a log of the calls it makes. *)

From Stdlib Require Import ZArith List Bool Lia QArith Reals Lra.
From Stdlib Require String.
Import ListNotations.
Local Open Scope Z_scope.


(** ** Python exceptions and fallible computations *)

Inductive exn : Type :=
| AssertionError
| ValueError
| ZeroDivisionError
| RuntimeError
| TypeError
| IndexError
| AttributeError.

Inductive result (A : Type) : Type :=
| Ok (a : A)
| Raise (e : exn).
Arguments Ok {A} a.
Arguments Raise {A} e.

Definition bind {A B : Type} (m : result A) (k : A -> result B) : result B :=
  match m with
  | Ok a => k a
  | Raise e => Raise e
  end.

Declare Scope result_scope.
Delimit Scope result_scope with result.
Notation "x <- m ;; k" := (bind m (fun x => k))
  (at level 61, m at next level, right associativity) : result_scope.
Notation "' p <- m ;; k" := (bind m (fun x => match x with p => k end))
  (at level 61, p pattern, m at next level, right associativity) : result_scope.
Local Open Scope result_scope.

Definition is_ok {A : Type} (m : result A) : bool :=
  match m with Ok _ => true | Raise _ => false end.

(** [assert c] *)
Definition py_assert (c : bool) : result unit :=
  if c then Ok tt else Raise AssertionError.

(** [a % b] on Python integers: the sign follows the divisor, as [Z.modulo]
    does; a zero divisor raises. *)
Definition py_mod (a b : Z) : result Z :=
  if b =? 0 then Raise ZeroDivisionError else Ok (a mod b).

(** [a // b] on Python integers (floor division, as [Z.div]). *)
Definition py_floordiv (a b : Z) : result Z :=
  if b =? 0 then Raise ZeroDivisionError else Ok (a / b).

(** ** Loops *)

(** [for x in l: s = body(x, s)] *)
Fixpoint for_each {A S : Type} (l : list A) (body : A -> S -> result S) (s : S)
  : result S :=
  match l with
  | [] => Ok s
  | x :: l' => s' <- body x s ;; for_each l' body s'
  end.

(** [range(n)] *)
Definition range (n : nat) : list nat := seq 0 n.

(** [enumerate(l)] *)
Definition enumerate {A : Type} (l : list A) : list (nat * A) :=
  combine (seq 0 (length l)) l.

(** [l.pop()]: removes and returns the last element. *)
Fixpoint pop {A : Type} (l : list A) : result (A * list A) :=
  match l with
  | [] => Raise IndexError
  | [x] => Ok (x, [])
  | x :: l' => '(y, r) <- pop l' ;; Ok (y, x :: r)
  end.

(** [x in l] on integers *)
Definition py_in (x : Z) (l : list Z) : bool := existsb (Z.eqb x) l.

(** ** The [torch.nn] modules the network is built from

    Only the hyper-parameters of a module are recorded; its weights live in
    the semantics (see [Semantics] below).  Constructors raise what the
    PyTorch constructors raise: a tensor with a negative extent cannot be
    allocated ([RuntimeError]), [GroupNorm] checks that the channel count is
    a multiple of the group count ([ValueError]), and [Dropout] checks its
    probability ([ValueError]). *)

Module nn.

(** [torch.empty(dims)] as used for weight allocation. *)
Definition alloc (dims : list Z) : result unit :=
  if forallb (fun d => 0 <=? d) dims then Ok tt else Raise RuntimeError.

Record GroupNorm := mkGroupNorm { num_groups : Z; num_channels : Z }.

Definition GroupNorm_init (groups channels : Z) : result GroupNorm :=
  r <- py_mod channels groups ;;
  if negb (r =? 0) then Raise ValueError
  else _ <- alloc [channels] ;; Ok (mkGroupNorm groups channels).

Record LayerNorm := mkLayerNorm { normalized_shape : Z }.

Definition LayerNorm_init (d : Z) : result LayerNorm :=
  _ <- alloc [d] ;; Ok (mkLayerNorm d).

Record Conv2d := mkConv2d {
  in_channels : Z;
  out_channels : Z;
  kernel_size : Z;
  stride : Z;
  padding : Z;
  bias : bool
}.

Definition Conv2d_init (cin cout k s p : Z) (b : bool) : result Conv2d :=
  _ <- alloc [cout; cin; k; k] ;; Ok (mkConv2d cin cout k s p b).

Record Linear := mkLinear { in_features : Z; out_features : Z }.

Definition Linear_init (fin fout : Z) : result Linear :=
  _ <- alloc [fout; fin] ;; Ok (mkLinear fin fout).

Record Dropout := mkDropout { p : Q }.

Definition Dropout_init (p : Q) : result Dropout :=
  if (Qle_bool 0 p && Qle_bool p 1)%bool then Ok (mkDropout p)
  else Raise ValueError.

Record AvgPool2d := mkAvgPool2d { pool_kernel : Z; pool_stride : Z }.

(** The members of the [nn.Sequential] containers of the source. *)
Inductive Layer : Type :=
| LGroupNorm (g : GroupNorm)
| LSiLU
| LConv2d (c : Conv2d)
| LLinear (l : Linear)
| LDropout (d : Dropout)
| LIdentity
| LAdaptiveAvgPool2d (output_size : Z)
| LFlatten.

Definition Sequential := list Layer.

End nn.

(** ** Building blocks of [model/UNet.py] *)

(** [norm_layer(channels)]: group normalisation with 32 groups. *)
Definition norm_layer (channels : Z) : result nn.GroupNorm :=
  nn.GroupNorm_init 32 channels.

Record ResidualBlock := mkResidualBlock {
  rb_conv1 : nn.Sequential;
  rb_time_emb : nn.Sequential;
  rb_conv2 : nn.Sequential;
  rb_shortcut : nn.Layer
}.

Definition ResidualBlock_init (in_channels out_channels time_channels : Z)
  (dropout : Q) : result ResidualBlock :=
  n1 <- norm_layer in_channels ;;
  c1 <- nn.Conv2d_init in_channels out_channels 3 1 1 true ;;
  l <- nn.Linear_init time_channels out_channels ;;
  n2 <- norm_layer out_channels ;;
  d <- nn.Dropout_init dropout ;;
  c2 <- nn.Conv2d_init out_channels out_channels 3 1 1 true ;;
  shortcut <- (if negb (in_channels =? out_channels)
               then c <- nn.Conv2d_init in_channels out_channels 1 1 0 true ;;
                    Ok (nn.LConv2d c)
               else Ok nn.LIdentity) ;;
  Ok {| rb_conv1 := [nn.LGroupNorm n1; nn.LSiLU; nn.LConv2d c1];
        rb_time_emb := [nn.LSiLU; nn.LLinear l];
        rb_conv2 := [nn.LGroupNorm n2; nn.LSiLU; nn.LDropout d; nn.LConv2d c2];
        rb_shortcut := shortcut |}.

Record AttentionBlock := mkAttentionBlock {
  ab_num_heads : Z;
  ab_norm : nn.GroupNorm;
  ab_qkv : nn.Conv2d;
  ab_proj : nn.Conv2d
}.

Definition AttentionBlock_init (channels num_heads : Z) : result AttentionBlock :=
  r <- py_mod channels num_heads ;;
  _ <- py_assert (r =? 0) ;;
  norm <- norm_layer channels ;;
  qkv <- nn.Conv2d_init channels (channels * 3) 1 1 0 false ;;
  proj <- nn.Conv2d_init channels channels 1 1 0 true ;;
  Ok {| ab_num_heads := num_heads; ab_norm := norm; ab_qkv := qkv;
        ab_proj := proj |}.

Record CrossModalAttentionBlock := mkCrossModalAttentionBlock {
  cm_num_heads : Z;
  cm_img_norm : nn.GroupNorm;
  cm_img_to_q : nn.Conv2d;
  cm_param_norm : nn.LayerNorm;
  cm_param_to_kv : nn.Linear;
  cm_proj : nn.Conv2d
}.

Definition CrossModalAttentionBlock_init (img_channels param_dim num_heads : Z)
  : result CrossModalAttentionBlock :=
  r <- py_mod img_channels num_heads ;;
  _ <- py_assert (r =? 0) ;;
  img_norm <- norm_layer img_channels ;;
  img_to_q <- nn.Conv2d_init img_channels img_channels 1 1 0 false ;;
  param_norm <- nn.LayerNorm_init param_dim ;;
  param_to_kv <- nn.Linear_init param_dim (img_channels * 2) ;;
  proj <- nn.Conv2d_init img_channels img_channels 1 1 0 true ;;
  Ok {| cm_num_heads := num_heads; cm_img_norm := img_norm;
        cm_img_to_q := img_to_q; cm_param_norm := param_norm;
        cm_param_to_kv := param_to_kv; cm_proj := proj |}.

Record ParameterEncoder := mkParameterEncoder {
  pe_time_embed : nn.Sequential;
  pe_input_proj : nn.Linear;
  pe_layers : list nn.Sequential;
  pe_out_proj : nn.Linear
}.

Definition ParameterEncoder_init (param_dim hidden_dim out_dim time_dim : Z)
  : result ParameterEncoder :=
  t1 <- nn.Linear_init time_dim hidden_dim ;;
  t2 <- nn.Linear_init hidden_dim hidden_dim ;;
  input_proj <- nn.Linear_init param_dim hidden_dim ;;
  layers <- for_each (range 2)
              (fun _ acc =>
                 a <- nn.Linear_init hidden_dim hidden_dim ;;
                 b <- nn.Linear_init hidden_dim hidden_dim ;;
                 Ok (acc ++ [[nn.LLinear a; nn.LSiLU; nn.LLinear b]]))
              [] ;;
  out_proj <- nn.Linear_init hidden_dim out_dim ;;
  Ok {| pe_time_embed := [nn.LLinear t1; nn.LSiLU; nn.LLinear t2];
        pe_input_proj := input_proj;
        pe_layers := layers;
        pe_out_proj := out_proj |}.

Record Upsample := mkUpsample { up_use_conv : bool; up_conv : option nn.Conv2d }.

Definition Upsample_init (channels : Z) (use_conv : bool) : result Upsample :=
  if use_conv
  then c <- nn.Conv2d_init channels channels 3 1 1 true ;;
       Ok (mkUpsample true (Some c))
  else Ok (mkUpsample false None).

Inductive DownsampleOp : Type :=
| DownConv (c : nn.Conv2d)
| DownPool (p : nn.AvgPool2d).

Record Downsample := mkDownsample { dn_use_conv : bool; dn_op : DownsampleOp }.

Definition Downsample_init (channels : Z) (use_conv : bool) : result Downsample :=
  if use_conv
  then c <- nn.Conv2d_init channels channels 3 2 1 true ;;
       Ok (mkDownsample true (DownConv c))
  else Ok (mkDownsample false (DownPool (nn.mkAvgPool2d 2 2))).

(** The children of a [TimestepEmbedSequential]. *)
Inductive Block : Type :=
| BConv2d (c : nn.Conv2d)
| BResidualBlock (r : ResidualBlock)
| BAttentionBlock (a : AttentionBlock)
| BCrossModalAttentionBlock (c : CrossModalAttentionBlock)
| BUpsample (u : Upsample)
| BDownsample (d : Downsample).

Definition TimestepEmbedSequential := list Block.

(** ** Assembly: [UNet.__init__] and [UNet_Energy.__init__] *)

(** The arguments of [UNet.__init__].  [num_res_blocks] is the number of
    residual blocks per level, a natural number: every
    [num_res_blocks >= 0].  The constructor also accepts a negative int,
    for which both [range] loops are empty; that call is [UNet_init_int]
    below. *)
Record Config := mkConfig {
  in_channels : Z;
  out_channels : Z;
  model_channels : Z;
  param_dim : Z;
  param_hidden_dim : Z;
  num_res_blocks : nat;
  attention_resolutions : list Z;
  dropout : Q;
  channel_mult : list Z;
  conv_resample : bool;
  num_heads : Z;
  use_cross_attention : bool
}.

(** The running variables of the assembly loops: the module list being
    filled ([down_blocks] or [up_blocks]), [down_block_chans], [ch], [ds]. *)
Record BuildState := mkBuildState {
  bs_blocks : list TimestepEmbedSequential;
  bs_chans : list Z;
  bs_ch : Z;
  bs_ds : Z
}.

Definition time_embed_dim (cfg : Config) : Z := model_channels cfg * 4.

(** The attention layers appended after a residual block:
    [if ds in attention_resolutions: ...]. *)
Definition attention_layers (cfg : Config) (ch ds : Z) : result (list Block) :=
  if py_in ds (attention_resolutions cfg) then
    a <- AttentionBlock_init ch (num_heads cfg) ;;
    if use_cross_attention cfg then
      c <- CrossModalAttentionBlock_init ch (param_hidden_dim cfg) (num_heads cfg) ;;
      Ok [BAttentionBlock a; BCrossModalAttentionBlock c]
    else Ok [BAttentionBlock a]
  else Ok [].

(** Body of [for _ in range(num_res_blocks)] in the encoder. *)
Definition down_res_step (cfg : Config) (mult : Z) (st : BuildState)
  : result BuildState :=
  r <- ResidualBlock_init (bs_ch st) (mult * model_channels cfg)
         (time_embed_dim cfg) (dropout cfg) ;;
  let ch := mult * model_channels cfg in
  att <- attention_layers cfg ch (bs_ds st) ;;
  Ok {| bs_blocks := bs_blocks st ++ [BResidualBlock r :: att];
        bs_chans := bs_chans st ++ [ch];
        bs_ch := ch;
        bs_ds := bs_ds st |}.

(** Body of [for level, mult in enumerate(channel_mult)] in the encoder. *)
Definition down_level_step (cfg : Config) (lm : nat * Z) (st : BuildState)
  : result BuildState :=
  let '(level, mult) := lm in
  st1 <- for_each (range (num_res_blocks cfg))
           (fun _ s => down_res_step cfg mult s) st ;;
  if negb (level =? length (channel_mult cfg) - 1)%nat then
    d <- Downsample_init (bs_ch st1) (conv_resample cfg) ;;
    Ok {| bs_blocks := bs_blocks st1 ++ [[BDownsample d]];
          bs_chans := bs_chans st1 ++ [bs_ch st1];
          bs_ch := bs_ch st1;
          bs_ds := bs_ds st1 * 2 |}
  else Ok st1.

Definition build_down_blocks (cfg : Config) : result BuildState :=
  c <- nn.Conv2d_init (in_channels cfg) (model_channels cfg) 3 1 1 true ;;
  for_each (enumerate (channel_mult cfg)) (down_level_step cfg)
    {| bs_blocks := [[BConv2d c]];
       bs_chans := [model_channels cfg];
       bs_ch := model_channels cfg;
       bs_ds := 1 |}.

Definition build_middle_block (cfg : Config) (ch : Z)
  : result TimestepEmbedSequential :=
  r1 <- ResidualBlock_init ch ch (time_embed_dim cfg) (dropout cfg) ;;
  a <- AttentionBlock_init ch (num_heads cfg) ;;
  cross <- (if use_cross_attention cfg then
              c <- CrossModalAttentionBlock_init ch (param_hidden_dim cfg)
                     (num_heads cfg) ;;
              Ok [BCrossModalAttentionBlock c]
            else Ok []) ;;
  r2 <- ResidualBlock_init ch ch (time_embed_dim cfg) (dropout cfg) ;;
  Ok ([BResidualBlock r1; BAttentionBlock a] ++ cross ++ [BResidualBlock r2]).

(** Body of [for i in range(num_res_blocks + 1)] in the decoder. *)
Definition up_res_step (cfg : Config) (level : nat) (mult : Z) (i : nat)
  (st : BuildState) : result BuildState :=
  '(c, chans) <- pop (bs_chans st) ;;
  r <- ResidualBlock_init (bs_ch st + c) (model_channels cfg * mult)
         (time_embed_dim cfg) (dropout cfg) ;;
  let ch := model_channels cfg * mult in
  att <- attention_layers cfg ch (bs_ds st) ;;
  if (negb (level =? 0)%nat && (i =? num_res_blocks cfg)%nat)%bool then
    u <- Upsample_init ch (conv_resample cfg) ;;
    Ok {| bs_blocks := bs_blocks st ++ [BResidualBlock r :: att ++ [BUpsample u]];
          bs_chans := chans;
          bs_ch := ch;
          bs_ds := bs_ds st / 2 |}
  else
    Ok {| bs_blocks := bs_blocks st ++ [BResidualBlock r :: att];
          bs_chans := chans;
          bs_ch := ch;
          bs_ds := bs_ds st |}.

(** Body of [for level, mult in list(enumerate(channel_mult))[::-1]]. *)
Definition up_level_step (cfg : Config) (lm : nat * Z) (st : BuildState)
  : result BuildState :=
  let '(level, mult) := lm in
  for_each (range (num_res_blocks cfg + 1))
    (fun i s => up_res_step cfg level mult i s) st.

Definition build_up_blocks (cfg : Config) (enc : BuildState) : result BuildState :=
  for_each (rev (enumerate (channel_mult cfg))) (up_level_step cfg)
    {| bs_blocks := [];
       bs_chans := bs_chans enc;
       bs_ch := bs_ch enc;
       bs_ds := bs_ds enc |}.

Record UNet := mkUNet {
  u_model_channels : Z;
  u_time_embed : nn.Sequential;
  u_param_encoder : ParameterEncoder;
  u_down_blocks : list TimestepEmbedSequential;
  u_middle_block : TimestepEmbedSequential;
  u_up_blocks : list TimestepEmbedSequential;
  u_img_out : nn.Sequential;
  u_param_out : nn.Linear
}.

Definition build_time_embed (cfg : Config) : result nn.Sequential :=
  l1 <- nn.Linear_init (model_channels cfg) (time_embed_dim cfg) ;;
  l2 <- nn.Linear_init (time_embed_dim cfg) (time_embed_dim cfg) ;;
  Ok [nn.LLinear l1; nn.LSiLU; nn.LLinear l2].

Definition UNet_init (cfg : Config) : result UNet :=
  te <- build_time_embed cfg ;;
  pe <- ParameterEncoder_init (param_dim cfg) (param_hidden_dim cfg)
          (param_hidden_dim cfg) (time_embed_dim cfg) ;;
  enc <- build_down_blocks cfg ;;
  mid <- build_middle_block cfg (bs_ch enc) ;;
  dec <- build_up_blocks cfg enc ;;
  n <- norm_layer (bs_ch dec) ;;
  c <- nn.Conv2d_init (model_channels cfg) (out_channels cfg) 3 1 1 true ;;
  po <- nn.Linear_init (param_hidden_dim cfg) (param_dim cfg) ;;
  Ok {| u_model_channels := model_channels cfg;
        u_time_embed := te;
        u_param_encoder := pe;
        u_down_blocks := bs_blocks enc;
        u_middle_block := mid;
        u_up_blocks := bs_blocks dec;
        u_img_out := [nn.LGroupNorm n; nn.LSiLU; nn.LConv2d c];
        u_param_out := po |}.

(** *** [num_res_blocks] as any Python int

    [UNet.__init__] does not check the sign of [num_res_blocks].  The
    assembly below is the one above with the repeat count [nrb] an arbitrary
    int, the other arguments taken from [cfg]: [range(nrb)] and
    [range(nrb + 1)] are empty when [nrb] is negative, while the
    [Downsample] of a level is appended outside the inner loop. *)

(** [range(n)] for an int [n]: empty when [n <= 0]. *)
Definition int_range (n : Z) : list Z := map Z.of_nat (range (Z.to_nat n)).

Definition down_level_step_int (cfg : Config) (nrb : Z) (lm : nat * Z)
  (st : BuildState) : result BuildState :=
  let '(level, mult) := lm in
  st1 <- for_each (int_range nrb)
           (fun _ s => down_res_step cfg mult s) st ;;
  if negb (level =? length (channel_mult cfg) - 1)%nat then
    d <- Downsample_init (bs_ch st1) (conv_resample cfg) ;;
    Ok {| bs_blocks := bs_blocks st1 ++ [[BDownsample d]];
          bs_chans := bs_chans st1 ++ [bs_ch st1];
          bs_ch := bs_ch st1;
          bs_ds := bs_ds st1 * 2 |}
  else Ok st1.

Definition build_down_blocks_int (cfg : Config) (nrb : Z) : result BuildState :=
  c <- nn.Conv2d_init (in_channels cfg) (model_channels cfg) 3 1 1 true ;;
  for_each (enumerate (channel_mult cfg)) (down_level_step_int cfg nrb)
    {| bs_blocks := [[BConv2d c]];
       bs_chans := [model_channels cfg];
       bs_ch := model_channels cfg;
       bs_ds := 1 |}.

Definition up_res_step_int (cfg : Config) (nrb : Z) (level : nat) (mult : Z)
  (i : Z) (st : BuildState) : result BuildState :=
  '(c, chans) <- pop (bs_chans st) ;;
  r <- ResidualBlock_init (bs_ch st + c) (model_channels cfg * mult)
         (time_embed_dim cfg) (dropout cfg) ;;
  let ch := model_channels cfg * mult in
  att <- attention_layers cfg ch (bs_ds st) ;;
  if (negb (level =? 0)%nat && (i =? nrb))%bool then
    u <- Upsample_init ch (conv_resample cfg) ;;
    Ok {| bs_blocks := bs_blocks st ++ [BResidualBlock r :: att ++ [BUpsample u]];
          bs_chans := chans;
          bs_ch := ch;
          bs_ds := bs_ds st / 2 |}
  else
    Ok {| bs_blocks := bs_blocks st ++ [BResidualBlock r :: att];
          bs_chans := chans;
          bs_ch := ch;
          bs_ds := bs_ds st |}.

Definition up_level_step_int (cfg : Config) (nrb : Z) (lm : nat * Z)
  (st : BuildState) : result BuildState :=
  let '(level, mult) := lm in
  for_each (int_range (nrb + 1))
    (fun i s => up_res_step_int cfg nrb level mult i s) st.

Definition build_up_blocks_int (cfg : Config) (nrb : Z) (enc : BuildState)
  : result BuildState :=
  for_each (rev (enumerate (channel_mult cfg))) (up_level_step_int cfg nrb)
    {| bs_blocks := [];
       bs_chans := bs_chans enc;
       bs_ch := bs_ch enc;
       bs_ds := bs_ds enc |}.

Definition UNet_init_int (cfg : Config) (nrb : Z) : result UNet :=
  te <- build_time_embed cfg ;;
  pe <- ParameterEncoder_init (param_dim cfg) (param_hidden_dim cfg)
          (param_hidden_dim cfg) (time_embed_dim cfg) ;;
  enc <- build_down_blocks_int cfg nrb ;;
  mid <- build_middle_block cfg (bs_ch enc) ;;
  dec <- build_up_blocks_int cfg nrb enc ;;
  n <- norm_layer (bs_ch dec) ;;
  c <- nn.Conv2d_init (model_channels cfg) (out_channels cfg) 3 1 1 true ;;
  po <- nn.Linear_init (param_hidden_dim cfg) (param_dim cfg) ;;
  Ok {| u_model_channels := model_channels cfg;
        u_time_embed := te;
        u_param_encoder := pe;
        u_down_blocks := bs_blocks enc;
        u_middle_block := mid;
        u_up_blocks := bs_blocks dec;
        u_img_out := [nn.LGroupNorm n; nn.LSiLU; nn.LConv2d c];
        u_param_out := po |}.

Record EnergyConfig := mkEnergyConfig {
  e_cfg : Config;
  prop_dim : Z;
  prop_hidden_dim : Z
}.

Record UNet_Energy := mkUNet_Energy {
  e_model_channels : Z;
  e_time_embed : nn.Sequential;
  e_param_encoder : ParameterEncoder;
  e_down_blocks : list TimestepEmbedSequential;
  e_middle_block : TimestepEmbedSequential;
  e_property_predictor : nn.Sequential
}.

Definition UNet_Energy_init (ecfg : EnergyConfig) : result UNet_Energy :=
  let cfg := e_cfg ecfg in
  te <- build_time_embed cfg ;;
  pe <- ParameterEncoder_init (param_dim cfg) (param_hidden_dim cfg)
          (param_hidden_dim cfg) (time_embed_dim cfg) ;;
  enc <- build_down_blocks cfg ;;
  mid <- build_middle_block cfg (bs_ch enc) ;;
  l1 <- nn.Linear_init (bs_ch enc) (prop_hidden_dim ecfg) ;;
  l2 <- nn.Linear_init (prop_hidden_dim ecfg) (prop_dim ecfg) ;;
  Ok {| e_model_channels := model_channels cfg;
        e_time_embed := te;
        e_param_encoder := pe;
        e_down_blocks := bs_blocks enc;
        e_middle_block := mid;
        e_property_predictor :=
          [nn.LAdaptiveAvgPool2d 1; nn.LFlatten; nn.LLinear l1; nn.LSiLU;
           nn.LLinear l2] |}.

(** The reference configuration (the defaults of [UNet.__init__]). *)
Definition default_config : Config :=
  {| in_channels := 1; out_channels := 1; model_channels := 128;
     param_dim := 8; param_hidden_dim := 128; num_res_blocks := 2;
     attention_resolutions := [8; 16]; dropout := (1 # 10)%Q;
     channel_mult := [1; 2; 2; 2]; conv_resample := true; num_heads := 4;
     use_cross_attention := true |}.

(** ** Forward passes over an abstract tensor type

    [ModulePath] names a module instance inside a network (the prefix of its
    keys in [state_dict()]); the semantics of a block may depend on it, since
    every instance owns its weights. *)

Inductive ModulePath : Type :=
| time_embed
| param_encoder
| down_blocks (i j : nat)
| middle_block (j : nat)
| up_blocks (i j : nat)
| img_out
| param_out
| property_predictor.

Class Semantics (T : Type) : Type := {
  (** [timestep_embedding(timesteps, dim)] *)
  sem_timestep_embedding : T -> Z -> result T;
  (** [torch.cat([a, b], dim=1)] *)
  sem_cat : T -> T -> result T;
  sem_Sequential : ModulePath -> nn.Sequential -> T -> result T;
  sem_Linear : ModulePath -> nn.Linear -> T -> result T;
  sem_Conv2d : ModulePath -> nn.Conv2d -> T -> result T;
  sem_ParameterEncoder : ModulePath -> ParameterEncoder -> T -> T -> result T;
  sem_ResidualBlock : ModulePath -> ResidualBlock -> T -> T -> result T;
  sem_AttentionBlock : ModulePath -> AttentionBlock -> T -> result T;
  sem_CrossModalAttentionBlock :
    ModulePath -> CrossModalAttentionBlock -> T -> T -> result T;
  sem_Upsample : ModulePath -> Upsample -> T -> result T;
  sem_Downsample : ModulePath -> Downsample -> T -> result T
}.

Section Forward.

Context {T : Type} {Sem : Semantics T}.

(** One iteration of [for layer in self] in
    [TimestepEmbedSequential.forward]: the [isinstance] dispatch.  A
    [CrossModalAttentionBlock] reached with [params is None] falls to
    [layer(x)], which lacks an argument. *)
Definition apply_layer (at_ : ModulePath) (layer : Block) (x emb : T)
  (params : option T) : result T :=
  match layer with
  | BCrossModalAttentionBlock c =>
      match params with
      | Some p => sem_CrossModalAttentionBlock at_ c x p
      | None => Raise TypeError
      end
  | BResidualBlock r => sem_ResidualBlock at_ r x emb
  | BConv2d c => sem_Conv2d at_ c x
  | BAttentionBlock a => sem_AttentionBlock at_ a x
  | BUpsample u => sem_Upsample at_ u x
  | BDownsample d => sem_Downsample at_ d x
  end.

Fixpoint TimestepEmbedSequential_forward (at_ : nat -> ModulePath) (j : nat)
  (self : TimestepEmbedSequential) (x emb : T) (params : option T)
  : result T :=
  match self with
  | [] => Ok x
  | layer :: rest =>
      x' <- apply_layer (at_ j) layer x emb params ;;
      TimestepEmbedSequential_forward at_ (S j) rest x' emb params
  end.

(** [for module in self.down_blocks: h = module(h, emb, param_features);
    hs.append(h)], from loop state [(h, hs)]. *)
Definition down_step (emb pf : T) (im : nat * TimestepEmbedSequential)
  (st : T * list T) : result (T * list T) :=
  let '(i, module) := im in
  let '(h, hs) := st in
  h' <- TimestepEmbedSequential_forward (down_blocks i) 0 module h emb (Some pf) ;;
  Ok (h', hs ++ [h']).

Definition down_stage (blocks : list TimestepEmbedSequential) (emb pf : T)
  (st : T * list T) : result (T * list T) :=
  for_each (enumerate blocks) (down_step emb pf) st.

(** [for module in self.up_blocks: cat_in = torch.cat([h, hs.pop()], dim=1);
    h = module(cat_in, emb, param_features)]. *)
Definition up_step (emb pf : T) (im : nat * TimestepEmbedSequential)
  (st : T * list T) : result (T * list T) :=
  let '(i, module) := im in
  let '(h, hs) := st in
  '(skip, hs') <- pop hs ;;
  cat_in <- sem_cat h skip ;;
  h' <- TimestepEmbedSequential_forward (up_blocks i) 0 module cat_in emb (Some pf) ;;
  Ok (h', hs').

Definition up_stage (blocks : list TimestepEmbedSequential) (emb pf : T)
  (st : T * list T) : result (T * list T) :=
  for_each (enumerate blocks) (up_step emb pf) st.

(** The conditioning signals: [emb] and [param_features]. *)
Definition conditioning (mc : Z) (te : nn.Sequential) (pe : ParameterEncoder)
  (params timesteps : T) : result (T * T) :=
  e0 <- sem_timestep_embedding timesteps mc ;;
  emb <- sem_Sequential time_embed te e0 ;;
  pf <- sem_ParameterEncoder param_encoder pe params emb ;;
  Ok (emb, pf).

(** The local variables of [UNet.forward] when the decoder loop is left
    (just before the output projections): [(h, param_features, hs)].
    [hs] starts as the empty list. *)
Definition UNet_locals (self : UNet) (x params timesteps : T)
  : result (T * T * list T) :=
  let hs := [] in
  '(emb, pf) <- conditioning (u_model_channels self) (u_time_embed self)
                  (u_param_encoder self) params timesteps ;;
  '(h, hs) <- down_stage (u_down_blocks self) emb pf (x, hs) ;;
  h <- TimestepEmbedSequential_forward middle_block 0 (u_middle_block self)
         h emb (Some pf) ;;
  '(h, hs) <- up_stage (u_up_blocks self) emb pf (h, hs) ;;
  Ok (h, pf, hs).

Definition UNet_forward (self : UNet) (x params timesteps : T)
  : result (T * T) :=
  '(h, pf, _) <- UNet_locals self x params timesteps ;;
  io <- sem_Sequential img_out (u_img_out self) h ;;
  po <- sem_Linear param_out (u_param_out self) pf ;;
  Ok (io, po).

Definition UNet_Energy_forward (self : UNet_Energy) (x params prop timesteps : T)
  : result T :=
  let hs := [] in
  '(emb, pf) <- conditioning (e_model_channels self) (e_time_embed self)
                  (e_param_encoder self) params timesteps ;;
  '(h, hs) <- down_stage (e_down_blocks self) emb pf (x, hs) ;;
  h <- TimestepEmbedSequential_forward middle_block 0 (e_middle_block self)
         h emb (Some pf) ;;
  sem_Sequential property_predictor (e_property_predictor self) h.

End Forward.

(** ** Tensor shapes

    A tensor is abstracted to its shape ([x.shape]).  The functions of
    [Module torch] give, for each PyTorch operation the source calls, the
    shape of the result or the exception raised on a shape mismatch.  They
    cover batched inputs whose extents are positive. *)

Abbreviation shape := (list Z).

Module torch.

Fixpoint shape_eqb (a b : shape) : bool :=
  match a, b with
  | [], [] => true
  | x :: a', y :: b' => (x =? y) && shape_eqb a' b'
  | _, _ => false
  end.

Definition numel (s : shape) : Z := fold_right Z.mul 1 s.

(** Two extents under one subscript or one broadcast position. *)
Definition bdim (x y : Z) : result Z :=
  if x =? y then Ok x
  else if x =? 1 then Ok y
  else if y =? 1 then Ok x
  else Raise RuntimeError.

Fixpoint broadcast_rev (a b : shape) : result shape :=
  match a, b with
  | [], _ => Ok b
  | _, [] => Ok a
  | x :: a', y :: b' =>
      d <- bdim x y ;; r <- broadcast_rev a' b' ;; Ok (d :: r)
  end.

(** [a + b], [a * b] *)
Definition broadcast (a b : shape) : result shape :=
  r <- broadcast_rev (rev a) (rev b) ;; Ok (rev r).

(** [a += b]: the broadcast result must have the shape of [a]. *)
Definition iadd (a b : shape) : result shape :=
  r <- broadcast a b ;;
  if shape_eqb r a then Ok a else Raise RuntimeError.

(** [torch.cat([a, b], dim=1)] *)
Definition cat1 (a b : shape) : result shape :=
  match a, b with
  | n1 :: c1 :: r1, n2 :: c2 :: r2 =>
      if (n1 =? n2) && shape_eqb r1 r2 then Ok (n1 :: c1 + c2 :: r1)
      else Raise RuntimeError
  | _, _ => Raise IndexError
  end.

(** [torch.cat([a, b], dim=-1)] *)
Definition cat_last (a b : shape) : result shape :=
  match rev a, rev b with
  | d1 :: r1, d2 :: r2 =>
      if shape_eqb r1 r2 then Ok (rev (d1 + d2 :: r1)) else Raise RuntimeError
  | _, _ => Raise IndexError
  end.

(** [x.reshape(target)], with at most one [-1] in [target]. *)
Definition reshape (x target : shape) : result shape :=
  let known := numel (filter (fun d => negb (d =? -1)) target) in
  let holes := length (filter (fun d => d =? -1) target) in
  if existsb (fun d => d <? -1) target then Raise RuntimeError
  else match holes with
       | O => if numel x =? known then Ok target else Raise RuntimeError
       | S O =>
           if known =? 0 then Raise RuntimeError
           else if negb (numel x mod known =? 0) then Raise RuntimeError
           else Ok (map (fun d => if d =? -1 then numel x / known else d) target)
       | _ => Raise RuntimeError
       end.

(** [x.chunk(n, dim=1)]: pieces of [ceil(d / n)] along axis 1, the last
    one shorter; [n] empty pieces when the axis is empty. *)
Definition chunk (x : shape) (n : Z) : result (list shape) :=
  match x with
  | b :: d :: rest =>
      if n <=? 0 then Raise RuntimeError
      else
        let size := (d + n - 1) / n in
        if size =? 0 then Ok (repeat (b :: 0 :: rest) (Z.to_nat n))
        else
          Ok (repeat (b :: size :: rest) (Z.to_nat (d / size))
              ++ (if d mod size =? 0 then [] else [b :: d mod size :: rest]))
  | _ => Raise IndexError
  end.

(** [torch.einsum("bct,bcs->bts", q, k)] *)
Definition einsum_bct_bcs_bts (q k : shape) : result shape :=
  match q, k with
  | [b1; c1; t], [b2; c2; s] =>
      b <- bdim b1 b2 ;; _ <- bdim c1 c2 ;; Ok [b; t; s]
  | _, _ => Raise RuntimeError
  end.

(** [torch.einsum("bts,bcs->bct", attn, v)] *)
Definition einsum_bts_bcs_bct (a v : shape) : result shape :=
  match a, v with
  | [b1; t; s1], [b2; c; s2] =>
      b <- bdim b1 b2 ;; _ <- bdim s1 s2 ;; Ok [b; c; t]
  | _, _ => Raise RuntimeError
  end.

(** [x.softmax(dim)] for [dim] in [1, -1] *)
Definition softmax (x : shape) (dim : Z) : result shape :=
  if (dim =? -1) && (1 <=? Z.of_nat (length x)) then Ok x
  else if (dim =? 1) && (2 <=? Z.of_nat (length x)) then Ok x
  else Raise IndexError.

(** [x.unsqueeze(-1)] *)
Definition unsqueeze_last (x : shape) : shape := x ++ [1].

(** [x[:, :, None, None]] *)
Definition index_none2 (x : shape) : result shape :=
  match x with
  | a :: b :: rest => Ok (a :: b :: 1 :: 1 :: rest)
  | _ => Raise IndexError
  end.

(** [x[:, None]] *)
Definition index_none1 (x : shape) : result shape :=
  match x with
  | a :: rest => Ok (a :: 1 :: rest)
  | [] => Raise IndexError
  end.

(** [x[None]] *)
Definition index_none0 (x : shape) : shape := 1 :: x.

(** [x[:, :1]] *)
Definition slice_cols1 (x : shape) : result shape :=
  match x with
  | a :: b :: rest => Ok (a :: Z.min 1 b :: rest)
  | _ => Raise IndexError
  end.

(** [torch.arange(start=0, end=n)]: a negative [n] is refused. *)
Definition arange (n : Z) : result shape :=
  if n <? 0 then Raise RuntimeError else Ok [n].

(** [nn.GroupNorm.forward], that is [F.group_norm(x, num_groups, weight,
    bias)]: an input of rank below 2 is refused; then [_verify_batch_size]
    runs on [[N * C // num_groups, num_groups] + spatial] and raises
    [ValueError] when [(N * C // num_groups) * prod(spatial)] is 1, a single
    value per group to normalise; then the channel count is checked against
    the weights. *)
Definition group_norm (g : nn.GroupNorm) (x : shape) : result shape :=
  match x with
  | n :: c :: spatial =>
      if n * c / nn.num_groups g * numel spatial =? 1 then Raise ValueError
      else if (c =? nn.num_channels g) && (c mod nn.num_groups g =? 0) then Ok x
      else Raise RuntimeError
  | _ => Raise RuntimeError
  end.

Definition layer_norm (l : nn.LayerNorm) (x : shape) : result shape :=
  match rev x with
  | d :: _ => if d =? nn.normalized_shape l then Ok x else Raise RuntimeError
  | [] => Raise RuntimeError
  end.

(** Output extent of a convolution or pooling window along one axis. *)
Definition window_out (h k s p : Z) : result Z :=
  if (h + 2 * p <? k) || (s <=? 0) then Raise RuntimeError
  else Ok ((h + 2 * p - k) / s + 1).

Definition conv2d (c : nn.Conv2d) (x : shape) : result shape :=
  match x with
  | [n; ci; h; w] =>
      if ci =? nn.in_channels c then
        h' <- window_out h (nn.kernel_size c) (nn.stride c) (nn.padding c) ;;
        w' <- window_out w (nn.kernel_size c) (nn.stride c) (nn.padding c) ;;
        Ok [n; nn.out_channels c; h'; w']
      else Raise RuntimeError
  | _ => Raise RuntimeError
  end.

Definition avg_pool2d (p : nn.AvgPool2d) (x : shape) : result shape :=
  match x with
  | [n; c; h; w] =>
      h' <- window_out h (nn.pool_kernel p) (nn.pool_stride p) 0 ;;
      w' <- window_out w (nn.pool_kernel p) (nn.pool_stride p) 0 ;;
      Ok [n; c; h'; w']
  | _ => Raise RuntimeError
  end.

Definition linear (l : nn.Linear) (x : shape) : result shape :=
  match rev x with
  | d :: r =>
      if d =? nn.in_features l then Ok (rev (nn.out_features l :: r))
      else Raise RuntimeError
  | [] => Raise RuntimeError
  end.

Definition adaptive_avg_pool2d (o : Z) (x : shape) : result shape :=
  match x with
  | [n; c; h; w] =>
      if (0 <? h) && (0 <? w) then Ok [n; c; o; o] else Raise RuntimeError
  | _ => Raise RuntimeError
  end.

(** [nn.Flatten()]: axes from 1 on are merged. *)
Definition flatten (x : shape) : result shape :=
  match x with
  | n :: d :: rest => Ok [n; numel (d :: rest)]
  | _ => Raise IndexError
  end.

(** [F.interpolate(x, scale_factor=2, mode="nearest")] *)
Definition interpolate2 (x : shape) : result shape :=
  match x with
  | [n; c; h; w] => Ok [n; c; 2 * h; 2 * w]
  | _ => Raise RuntimeError
  end.

End torch.

(** ** The forward passes of the blocks, on shapes *)

Module Shape.

Definition Layer_forward (l : nn.Layer) (x : shape) : result shape :=
  match l with
  | nn.LGroupNorm g => torch.group_norm g x
  | nn.LSiLU => Ok x
  | nn.LConv2d c => torch.conv2d c x
  | nn.LLinear l => torch.linear l x
  | nn.LDropout _ => Ok x
  | nn.LIdentity => Ok x
  | nn.LAdaptiveAvgPool2d o => torch.adaptive_avg_pool2d o x
  | nn.LFlatten => torch.flatten x
  end.

Definition Sequential_forward (self : nn.Sequential) (x : shape)
  : result shape :=
  for_each self Layer_forward x.

(** [timestep_embedding(timesteps, dim)] *)
Definition timestep_embedding (timesteps : shape) (dim : Z) : result shape :=
  let half := dim / 2 in
  freqs <- torch.arange half ;;
  t <- torch.index_none1 timesteps ;;
  args <- torch.broadcast t (torch.index_none0 freqs) ;;
  embedding <- torch.cat_last args args ;;
  if negb (dim mod 2 =? 0) then
    z <- torch.slice_cols1 embedding ;;
    torch.cat_last embedding z
  else Ok embedding.

Definition ResidualBlock_forward (self : ResidualBlock) (x t : shape)
  : result shape :=
  h <- Sequential_forward (rb_conv1 self) x ;;
  e <- Sequential_forward (rb_time_emb self) t ;;
  e <- torch.index_none2 e ;;
  h <- torch.iadd h e ;;
  h <- Sequential_forward (rb_conv2 self) h ;;
  s <- Layer_forward (rb_shortcut self) x ;;
  torch.broadcast h s.

(** [1. / math.sqrt(math.sqrt(C // num_heads))] *)
Definition attention_scale (C num_heads : Z) : result unit :=
  d <- py_floordiv C num_heads ;;
  if d <? 0 then Raise ValueError
  else if d =? 0 then Raise ZeroDivisionError
  else Ok tt.

Definition AttentionBlock_forward (self : AttentionBlock) (x : shape)
  : result shape :=
  match x with
  | [B; C; H; W] =>
      n <- torch.group_norm (ab_norm self) x ;;
      qkv <- torch.conv2d (ab_qkv self) n ;;
      r <- torch.reshape qkv [B * ab_num_heads self; -1; H * W] ;;
      qkv3 <- torch.chunk r 3 ;;
      match qkv3 with
      | [q; k; v] =>
          _ <- attention_scale C (ab_num_heads self) ;;
          attn <- torch.einsum_bct_bcs_bts q k ;;
          attn <- torch.softmax attn (-1) ;;
          h <- torch.einsum_bts_bcs_bct attn v ;;
          h <- torch.reshape h [B; -1; H; W] ;;
          h <- torch.conv2d (ab_proj self) h ;;
          torch.broadcast h x
      | _ => Raise ValueError
      end
  | _ => Raise ValueError
  end.

Definition CrossModalAttentionBlock_forward (self : CrossModalAttentionBlock)
  (img params : shape) : result shape :=
  match img with
  | [B; C; H; W] =>
      let nh := cm_num_heads self in
      img_norm <- torch.group_norm (cm_img_norm self) img ;;
      q <- torch.conv2d (cm_img_to_q self) img_norm ;;
      d <- py_floordiv C nh ;;
      q <- torch.reshape q [B * nh; d; H * W] ;;
      param_norm <- torch.layer_norm (cm_param_norm self) params ;;
      kv <- torch.linear (cm_param_to_kv self) param_norm ;;
      kv2 <- torch.chunk kv 2 ;;
      match kv2 with
      | [k; v] =>
          let k := torch.unsqueeze_last k in
          let v := torch.unsqueeze_last v in
          k <- torch.reshape k [B * nh; d; 1] ;;
          v <- torch.reshape v [B * nh; d; 1] ;;
          _ <- attention_scale C nh ;;
          attn <- torch.einsum_bct_bcs_bts q k ;;
          attn <- torch.softmax attn 1 ;;
          h <- torch.einsum_bts_bcs_bct attn v ;;
          h <- torch.reshape h [B; C; H; W] ;;
          h <- torch.conv2d (cm_proj self) h ;;
          torch.broadcast h img
      | _ => Raise ValueError
      end
  | _ => Raise ValueError
  end.

Definition ParameterEncoder_forward (self : ParameterEncoder)
  (params time_emb : shape) : result shape :=
  h <- torch.linear (pe_input_proj self) params ;;
  time_emb <- Sequential_forward (pe_time_embed self) time_emb ;;
  h <- torch.broadcast h time_emb ;;
  h <- for_each (pe_layers self)
         (fun layer h => y <- Sequential_forward layer h ;; torch.broadcast y h)
         h ;;
  torch.linear (pe_out_proj self) h.

Definition Upsample_forward (self : Upsample) (x : shape) : result shape :=
  x <- torch.interpolate2 x ;;
  if up_use_conv self then
    match up_conv self with
    | Some c => torch.conv2d c x
    | None => Raise AttributeError
    end
  else Ok x.

Definition Downsample_forward (self : Downsample) (x : shape) : result shape :=
  match dn_op self with
  | DownConv c => torch.conv2d c x
  | DownPool p => torch.avg_pool2d p x
  end.

End Shape.

#[export] Instance ShapeSemantics : Semantics shape := {
  sem_timestep_embedding := Shape.timestep_embedding;
  sem_cat := torch.cat1;
  sem_Sequential := fun _ => Shape.Sequential_forward;
  sem_Linear := fun _ => torch.linear;
  sem_Conv2d := fun _ => torch.conv2d;
  sem_ParameterEncoder := fun _ => Shape.ParameterEncoder_forward;
  sem_ResidualBlock := fun _ => Shape.ResidualBlock_forward;
  sem_AttentionBlock := fun _ => Shape.AttentionBlock_forward;
  sem_CrossModalAttentionBlock := fun _ => Shape.CrossModalAttentionBlock_forward;
  sem_Upsample := fun _ => Shape.Upsample_forward;
  sem_Downsample := fun _ => Shape.Downsample_forward
}.

(** ** [timestep_embedding] on values

    A batch of timesteps is a list of scalars and a rank-2 tensor a list of
    rows.  The scalar type and its arithmetic are a parameter: nothing below
    depends on how [exp], [cos], [sin] or the products round. *)

Class FloatOps (F : Type) : Type := {
  f_zero : F;
  f_of_Z : Z -> F;
  f_neg : F -> F;
  f_mul : F -> F -> F;
  f_div : F -> F -> F;
  f_exp : F -> F;
  f_cos : F -> F;
  f_sin : F -> F;
  (** [math.log(x)], which raises on a non-positive argument *)
  math_log : F -> result F
}.

Section TimestepEmbedding.

Context {F : Type} {ops : FloatOps F}.

(** The integers [0 .. n-1]. *)
Definition upto (n : Z) : list Z := map Z.of_nat (seq 0 (Z.to_nat n)).

(** [torch.arange(start=0, end=n, dtype=torch.float32)], before conversion; a
    negative [n] is refused. *)
Definition arange (n : Z) : result (list Z) :=
  if n <? 0 then Raise RuntimeError else Ok (upto n).

(** [torch.cat([a, b], dim=-1)] on rank-2 tensors with as many rows *)
Definition cat_cols (a b : list (list F)) : list (list F) :=
  map (fun ab => fst ab ++ snd ab) (combine a b).

(** [x[:, :n]] *)
Definition slice_cols (n : nat) (x : list (list F)) : list (list F) :=
  map (firstn n) x.

Definition zeros_like (x : list (list F)) : list (list F) :=
  map (map (fun _ => f_zero)) x.

(** [timesteps[:, None].float() * freqs[None]] *)
Definition outer (timesteps freqs : list F) : list (list F) :=
  map (fun t => map (fun f => f_mul t f) freqs) timesteps.

Definition freq (lg : F) (half i : Z) : F :=
  f_exp (f_div (f_mul (f_neg lg) (f_of_Z i)) (f_of_Z half)).

Definition timestep_embedding (timesteps : list F) (dim : Z) (max_period : F)
  : result (list (list F)) :=
  let half := dim / 2 in
  lg <- math_log max_period ;;
  indices <- arange half ;;
  let freqs := map (freq lg half) indices in
  let args := outer timesteps freqs in
  let embedding := cat_cols (map (map f_cos) args) (map (map f_sin) args) in
  if negb (dim mod 2 =? 0) then
    Ok (cat_cols embedding (zeros_like (slice_cols 1 embedding)))
  else Ok embedding.

(** The row the docstring and the specification describe for a timestep
    [t]: [half] cosines, [half] sines and, for an odd [dim], one zero. *)
Definition embedding_row (lg : F) (dim : Z) (t : F) : list F :=
  let half := dim / 2 in
  map (fun i => f_cos (f_mul t (freq lg half i))) (upto half)
  ++ map (fun i => f_sin (f_mul t (freq lg half i))) (upto half)
  ++ (if dim mod 2 =? 0 then [] else [f_zero]).

End TimestepEmbedding.

(** The operations on real numbers, the idealised reading of the floats. *)
#[export] Instance RealOps : FloatOps R := {
  f_zero := 0%R;
  f_of_Z := IZR;
  f_neg := Ropp;
  f_mul := Rmult;
  f_div := Rdiv;
  f_exp := exp;
  f_cos := cos;
  f_sin := sin;
  math_log := fun x => if Rlt_dec 0 x then Ok (ln x) else Raise ValueError
}.

(** ** The attention weights of [CrossModalAttentionBlock.forward] on values

    A rank-3 tensor is a function of its three indices; the extents are
    passed along, as the source reads them from [img.shape].  Scalars are
    real numbers. *)

Module CrossAttention.

Local Open Scope R_scope.

Definition tensor3 := nat -> nat -> nat -> R.

(** Sum of [f 0 .. f (n-1)]. *)
Fixpoint sum_upto (n : nat) (f : nat -> R) : R :=
  match n with
  | O => 0
  | S n' => sum_upto n' f + f n'
  end.

(** [1. / math.sqrt(math.sqrt(C // num_heads))] *)
Definition scale (C num_heads : Z) : R :=
  1 / sqrt (sqrt (IZR (C / num_heads))).

(** [x * scale] *)
Definition mul_scalar (x : tensor3) (s : R) : tensor3 :=
  fun b i j => x b i j * s.

(** [torch.einsum("bct,bcs->bts", q, k)], with [c] ranging below [Cd] *)
Definition einsum_bct_bcs_bts (Cd : nat) (q k : tensor3) : tensor3 :=
  fun b t s => sum_upto Cd (fun c => q b c t * k b c s).

(** [attn.softmax(dim=1)] on a tensor indexed [b, t, s] with [Td]
    positions along axis 1 *)
Definition softmax_dim1 (Td : nat) (attn : tensor3) : tensor3 :=
  fun b t s => exp (attn b t s) / sum_upto Td (fun t' => exp (attn b t' s)).

(** [attn.softmax(dim=-1)], as [AttentionBlock.forward] has it, with [Sd]
    positions along the last axis *)
Definition softmax_last (Sd : nat) (attn : tensor3) : tensor3 :=
  fun b t s => exp (attn b t s) / sum_upto Sd (fun s' => exp (attn b t s')).

(** Lines 169-171: from the reshaped queries [q] (indexed
    [B*nh, C/nh, H*W]) and the reshaped key [k] (indexed [B*nh, C/nh, 1])
    to the attention weights (indexed [B*nh, H*W, 1]). *)
Definition attention_weights (C num_heads H W : Z) (q k : tensor3) : tensor3 :=
  let sc := scale C num_heads in
  let attn :=
    einsum_bct_bcs_bts (Z.to_nat (C / num_heads))
      (mul_scalar q sc) (mul_scalar k sc) in
  softmax_dim1 (Z.to_nat (H * W)) attn.

End CrossAttention.

(** ** Vocabulary of the statements *)

(** A decoder stage carries an [Upsample]. *)
Definition is_Upsample (b : Block) : bool :=
  match b with BUpsample _ => true | _ => false end.

Definition has_upsample (stage : TimestepEmbedSequential) : bool :=
  existsb is_Upsample stage.

(** Index in [up_blocks] of repeat [i] of the stage of [level]: the levels are
    visited from the last one down to level 0, [num_res_blocks + 1] repeats
    each. *)
Definition decoder_position (cfg : Config) (level i : nat) : nat :=
  ((length (channel_mult cfg) - 1 - level) * (num_res_blocks cfg + 1) + i)%nat.

(** The number of [Downsample] stages of the encoder. *)
Definition num_downsamples (cfg : Config) : nat :=
  (length (channel_mult cfg) - 1)%nat.

(** Extents a configuration must have for the network to be meaningful: every
    channel count, width, head count and multiplier is positive. *)
Definition positive_config (cfg : Config) : Prop :=
  0 < in_channels cfg /\ 0 < out_channels cfg /\ 0 < model_channels cfg /\
  0 < param_dim cfg /\ 0 < param_hidden_dim cfg /\ 0 < num_heads cfg /\
  Forall (fun mult => 0 < mult) (channel_mult cfg).


(** A batch the network accepts: [N] samples, extents [H] and [W] positive
    multiples of [2 ^ num_downsamples]. *)
Definition valid_batch (cfg : Config) (N H W : Z) : Prop :=
  0 < N /\ 0 < H /\ 0 < W /\
  (2 ^ Z.of_nat (num_downsamples cfg) | H) /\
  (2 ^ Z.of_nat (num_downsamples cfg) | W).

(** A batch that leaves every [GroupNorm] of the network more than one
    value per group: at the coarsest resolution, the [N] feature maps of
    [H / 2 ^ num_downsamples] by [W / 2 ^ num_downsamples] positions hold
    more than one value per channel. *)
Definition normalisable_batch (cfg : Config) (N H W : Z) : Prop :=
  1 < N * (H / 2 ^ Z.of_nat (num_downsamples cfg)
           * (W / 2 ^ Z.of_nat (num_downsamples cfg))).

(** The test of line 360: [level and i == num_res_blocks]. *)
Definition upsample_here (cfg : Config) (level i : nat) : bool :=
  (negb (level =? 0)%nat && (i =? num_res_blocks cfg)%nat)%bool.

(** The encoder as the specification words it: the outputs of the stages, in
    the order the stages run. *)
Fixpoint encoder_outputs {T : Type} {Sem : Semantics T} (emb pf : T)
  (stages : list (nat * TimestepEmbedSequential)) (h : T) : result (list T) :=
  match stages with
  | [] => Ok []
  | (i, module) :: stages' =>
      h' <- TimestepEmbedSequential_forward (down_blocks i) 0 module h emb
              (Some pf) ;;
      outs <- encoder_outputs emb pf stages' h' ;;
      Ok (h' :: outs)
  end.

(** The decoder as the specification words it: stage [k] concatenates the
    current tensor with the [k]-th tensor of [skips] and runs its module. *)
Fixpoint decode_with {T : Type} {Sem : Semantics T} (emb pf : T)
  (stages : list (nat * TimestepEmbedSequential)) (skips : list T) (h : T)
  : result T :=
  match stages, skips with
  | [], _ => Ok h
  | (i, module) :: stages', skip :: skips' =>
      cat_in <- sem_cat h skip ;;
      h' <- TimestepEmbedSequential_forward (up_blocks i) 0 module cat_in emb
              (Some pf) ;;
      decode_with emb pf stages' skips' h'
  | _ :: _, [] => Raise IndexError
  end.

(** The second output of [UNet.forward] recomputed from [params] and
    [timesteps] alone. *)
Definition param_path {T : Type} {Sem : Semantics T} (self : UNet)
  (params timesteps : T) : result T :=
  '(_, pf) <- conditioning (u_model_channels self) (u_time_embed self)
                (u_param_encoder self) params timesteps ;;
  sem_Linear param_out (u_param_out self) pf.

(** The scenario of the specification: two stages, one residual block per
    stage, attention at the half resolution. *)
Definition scenario_config : Config :=
  {| in_channels := 1; out_channels := 1; model_channels := 32;
     param_dim := 4; param_hidden_dim := 16; num_res_blocks := 1;
     attention_resolutions := [2]; dropout := (1 # 10)%Q;
     channel_mult := [1; 2]; conv_resample := true; num_heads := 2;
     use_cross_attention := true |}.


(** No stage at all: [channel_mult=()]. *)
Definition stageless_config : Config :=
  {| in_channels := 1; out_channels := 1; model_channels := 32;
     param_dim := 4; param_hidden_dim := 16; num_res_blocks := 1;
     attention_resolutions := [2]; dropout := (1 # 10)%Q;
     channel_mult := []; conv_resample := true; num_heads := 2;
     use_cross_attention := true |}.

Definition scenario_energy_config : EnergyConfig :=
  {| e_cfg := scenario_config; prop_dim := 1; prop_hidden_dim := 128 |}.

(** The shape of a feature map with [c] channels after [k] halvings of an
    [H x W] image, for a batch of [N]. *)
Definition feature_map (N H W c : Z) (k : nat) : shape :=
  [N; c; H / 2 ^ Z.of_nat k; W / 2 ^ Z.of_nat k].

(** The resolution level of each tensor on the skip stack, bottom first,
    when [k] levels are complete ([nrb + 1] tensors each) and [j] tensors of
    level [k] are present. *)
Definition skip_levels (nrb k j : nat) : list nat :=
  flat_map (fun l => repeat l (nrb + 1)) (seq 0 k) ++ repeat k j.

(** The shapes on the skip stack, from [down_block_chans] and the levels. *)
Definition skip_shapes (N H W : Z) (chans : list Z) (levels : list nat)
  : list shape :=
  map (fun cl => feature_map N H W (fst cl) (snd cl)) (combine chans levels).

(** The input batch of the networks, as shapes. *)
Definition image_shape (cfg : Config) (N H W : Z) : shape :=
  [N; in_channels cfg; H; W].

Definition params_shape (cfg : Config) (N : Z) : shape := [N; param_dim cfg].

Definition timesteps_shape (N : Z) : shape := [N].

(** The state of the encoder assembly, read as a statement about the forward
    pass on shapes: the stages built so far take the image to a feature map
    at level [k], and have pushed [k] complete levels and [j] tensors of
    level [k]. *)
Definition encoder_invariant (cfg : Config) (N H W : Z) (k j : nat)
  (st : BuildState) : Prop :=
  bs_ds st = 2 ^ Z.of_nat k /\
  0 < bs_ch st /\
  length (bs_chans st) = (k * (num_res_blocks cfg + 1) + j)%nat /\
  down_stage (bs_blocks st) [N; time_embed_dim cfg] [N; param_hidden_dim cfg]
    (image_shape cfg N H W, [])
  = Ok (feature_map N H W (bs_ch st) k,
        skip_shapes N H W (bs_chans st)
          (skip_levels (num_res_blocks cfg) k j)).


(** The two tests of [TimestepEmbedSequential.forward]:
    [isinstance(layer, CrossModalAttentionBlock)] and
    [isinstance(layer, TimestepBlock)] ([ResidualBlock] is the only
    [TimestepBlock] among the children). *)
Definition is_CrossModalAttentionBlock (b : Block) : bool :=
  match b with BCrossModalAttentionBlock _ => true | _ => false end.

Definition is_TimestepBlock (b : Block) : bool :=
  match b with BResidualBlock _ => true | _ => false end.

(** No stage of a module list holds a [CrossModalAttentionBlock]. *)
Definition without_cross_attention (blocks : list TimestepEmbedSequential)
  : Prop :=
  Forall (fun stage => existsb is_CrossModalAttentionBlock stage = false) blocks.

(** The scenario of the specification with [use_cross_attention=False]. *)
Definition plain_config : Config :=
  {| in_channels := 1; out_channels := 1; model_channels := 32;
     param_dim := 4; param_hidden_dim := 16; num_res_blocks := 1;
     attention_resolutions := [2]; dropout := (1 # 10)%Q;
     channel_mult := [1; 2]; conv_resample := true; num_heads := 2;
     use_cross_attention := false |}.

Definition plain_energy_config : EnergyConfig :=
  {| e_cfg := plain_config; prop_dim := 1; prop_hidden_dim := 128 |}.

(** A channel count every block of the network can be built on: positive,
    a multiple of the 32 groups of [norm_layer] and of [num_heads]. *)
Definition admissible_width (cfg : Config) (c : Z) : Prop :=
  0 < c /\ c mod 32 = 0 /\ c mod num_heads cfg = 0.

(** Hyper-parameters with positive extents, a base width that is a multiple
    of 32 and of [num_heads], and a dropout probability in [0, 1]. *)
Definition constructible (cfg : Config) : Prop :=
  positive_config cfg /\
  admissible_width cfg (model_channels cfg) /\
  (0 <= dropout cfg)%Q /\ (dropout cfg <= 1)%Q.

(** A configuration with another [attention_resolutions]. *)
Definition with_attention_resolutions (cfg : Config) (ar : list Z) : Config :=
  {| in_channels := in_channels cfg; out_channels := out_channels cfg;
     model_channels := model_channels cfg; param_dim := param_dim cfg;
     param_hidden_dim := param_hidden_dim cfg;
     num_res_blocks := num_res_blocks cfg;
     attention_resolutions := ar; dropout := dropout cfg;
     channel_mult := channel_mult cfg; conv_resample := conv_resample cfg;
     num_heads := num_heads cfg;
     use_cross_attention := use_cross_attention cfg |}.

(** Two lists of resolutions hold the same downsampling rates among
    [1, 2, ..., 2 ^ (L - 1)]. *)
Definition same_attention_levels (L : nat) (ar ar' : list Z) : Prop :=
  forall k : nat, (k < L)%nat ->
    py_in (2 ^ Z.of_nat k) ar = py_in (2 ^ Z.of_nat k) ar'.

(** The class of a child of a [TimestepEmbedSequential]. *)
Inductive BlockKind : Type :=
| KConv2d
| KResidualBlock
| KAttentionBlock
| KCrossModalAttentionBlock
| KUpsample
| KDownsample.

Definition kind_of (b : Block) : BlockKind :=
  match b with
  | BConv2d _ => KConv2d
  | BResidualBlock _ => KResidualBlock
  | BAttentionBlock _ => KAttentionBlock
  | BCrossModalAttentionBlock _ => KCrossModalAttentionBlock
  | BUpsample _ => KUpsample
  | BDownsample _ => KDownsample
  end.

Definition stage_kinds (stage : TimestepEmbedSequential) : list BlockKind :=
  map kind_of stage.

(** The attention blocks of a stage at resolution level [level], where the
    downsampling rate is [2 ^ level]. *)
Definition attention_kinds (cfg : Config) (level : nat) : list BlockKind :=
  if py_in (2 ^ Z.of_nat level) (attention_resolutions cfg)
  then KAttentionBlock ::
       (if use_cross_attention cfg then [KCrossModalAttentionBlock] else [])
  else [].

(** The stages of [down_blocks], level by level: the input convolution, then
    for each level [num_res_blocks] residual stages and, except after the
    last level, a [Downsample] stage. *)
Definition encoder_level_layout (cfg : Config) (level : nat)
  : list (list BlockKind) :=
  repeat (KResidualBlock :: attention_kinds cfg level) (num_res_blocks cfg)
  ++ (if (level =? length (channel_mult cfg) - 1)%nat then []
      else [[KDownsample]]).

Definition encoder_layout (cfg : Config) : list (list BlockKind) :=
  [KConv2d]
  :: flat_map (encoder_level_layout cfg) (seq 0 (length (channel_mult cfg))).

Definition middle_layout (cfg : Config) : list BlockKind :=
  [KResidualBlock; KAttentionBlock]
  ++ (if use_cross_attention cfg then [KCrossModalAttentionBlock] else [])
  ++ [KResidualBlock].

(** The stages of [up_blocks], from the last level down to level 0:
    [num_res_blocks + 1] residual stages per level, the last of which ends
    with an [Upsample] except at level 0. *)
Definition decoder_level_layout (cfg : Config) (level : nat)
  : list (list BlockKind) :=
  repeat (KResidualBlock :: attention_kinds cfg level) (num_res_blocks cfg)
  ++ [KResidualBlock :: attention_kinds cfg level
      ++ (if (level =? 0)%nat then [] else [KUpsample])].

Definition decoder_layout (cfg : Config) : list (list BlockKind) :=
  flat_map (decoder_level_layout cfg)
    (rev (seq 0 (length (channel_mult cfg)))).

(** ** The attention of the two blocks on values

    [AttentionBlock.forward] (lines 120-123) and
    [CrossModalAttentionBlock.forward] (lines 169-174), from the reshaped
    queries, keys and values to the attended values [h], on real-valued
    rank-3 tensors. *)

Module Attention.

Import CrossAttention.
Local Open Scope R_scope.

(** [torch.einsum("bts,bcs->bct", attn, v)], with [s] ranging below [Sd] *)
Definition einsum_bts_bcs_bct (Sd : nat) (attn v : tensor3) : tensor3 :=
  fun b c t => sum_upto Sd (fun s => attn b t s * v b c s).

(** [torch.einsum("bct,bcs->bts", q * scale, k * scale)], the logits of
    both blocks *)
Definition logits (C num_heads : Z) (q k : tensor3) : tensor3 :=
  let sc := scale C num_heads in
  einsum_bct_bcs_bts (Z.to_nat (C / num_heads))
    (mul_scalar q sc) (mul_scalar k sc).

(** [AttentionBlock.forward]: [q], [k], [v] are indexed [B*nh, C/nh, H*W] and
    the softmax runs over the last axis, the [H*W] keys. *)
Definition self_attention_weights (C num_heads H W : Z) (q k : tensor3)
  : tensor3 :=
  softmax_last (Z.to_nat (H * W)) (logits C num_heads q k).

Definition self_attention (C num_heads H W : Z) (q k v : tensor3) : tensor3 :=
  einsum_bts_bcs_bct (Z.to_nat (H * W))
    (self_attention_weights C num_heads H W q k) v.

(** [CrossModalAttentionBlock.forward]: [k] and [v] are indexed
    [B*nh, C/nh, 1], a single key, and the softmax runs over axis 1. *)
Definition cross_attention (C num_heads H W : Z) (q k v : tensor3) : tensor3 :=
  einsum_bts_bcs_bct 1 (attention_weights C num_heads H W q k) v.

End Attention.

(** * [train-energy.py]: the training driver of the energy network

    [train(config)] is embedded with its collaborators as parameters:
    [torch.load], [create_dataset], [joblib.dump], the constructors, the
    optimiser, [train_one_epoch_energy] and [ModelCheckpoint] come from
    modules that are not part of the sources, so each one is an arbitrary
    function of the state of the world that returns or raises.  Every
    call is recorded, in order, in a log of events. *)

Module TrainEnergy.

Import String.

(** Python values as a YAML configuration or a checkpoint holds them.
    [train] never looks inside a state dictionary, so any value can stand
    for one. *)
#[warnings="-register-all"]
Inductive value : Type :=
| VNone
| VBool (b : bool)
| VInt (n : Z)
| VFloat (q : Q)
| VStr (s : string)
| VList (l : list value)
| VDict (d : list (string * value)).

Inductive exn : Type :=
| KeyError (key : string)
| TypeError
| External (code : nat).

Inductive outcome (A : Type) : Type :=
| Return (a : A)
| Throw (e : exn).
Arguments Return {A} a.
Arguments Throw {A} e.

Fixpoint lookup_key (k : string) (d : list (string * value)) : option value :=
  match d with
  | [] => None
  | (k', v) :: d' => if String.eqb k k' then Some v else lookup_key k d'
  end.

(** [v[k]] for a string key: [KeyError] on a dictionary without the key,
    [TypeError] on a value that is not a dictionary. *)
Definition subscript (v : value) (k : string) : outcome value :=
  match v with
  | VDict d =>
      match lookup_key k d with
      | Some x => Return x
      | None => Throw (KeyError k)
      end
  | _ => Throw TypeError
  end.

(** [**v] in a call: [v] must be a mapping. *)
Definition kwargs (v : value) : outcome (list (string * value)) :=
  match v with
  | VDict d => Return d
  | _ => Throw TypeError
  end.

(** [bool(v)], the test of [if v:]. *)
Definition truthy (v : value) : bool :=
  match v with
  | VNone => false
  | VBool b => b
  | VInt n => negb (n =? 0)
  | VFloat q => negb (Qeq_bool q 0)
  | VStr s => negb (String.eqb s EmptyString)
  | VList l => match l with [] => false | _ => true end
  | VDict d => match d with [] => false | _ => true end
  end.

(** [v + 1] *)
Definition add_one (v : value) : outcome value :=
  match v with
  | VInt n => Return (VInt (n + 1))
  | VBool b => Return (VInt (Z.b2z b + 1))
  | VFloat q => Return (VFloat (q + 1))
  | _ => Throw TypeError
  end.

(** The integer a value is taken for by [range]. *)
Definition as_index (v : value) : outcome Z :=
  match v with
  | VInt n => Return n
  | VBool b => Return (Z.b2z b)
  | _ => Throw TypeError
  end.

(** The integers [start, start + 1, ..., stop - 1]. *)
Definition interval (start stop : Z) : list Z :=
  map (fun i => start + Z.of_nat i) (seq 0 (Z.to_nat (stop - start))).

(** [range(start, stop)] *)
Definition py_range (start stop : value) : outcome (list Z) :=
  match as_index start with
  | Return a =>
      match as_index stop with
      | Return b => Return (interval a b)
      | Throw e => Throw e
      end
  | Throw e => Throw e
  end.

(** The calls [train] makes, with the arguments that identify them. *)
Inductive event : Type :=
| EvLoad (path : value)
| EvPrint (config : value)
| EvDevice (name : value)
| EvCreateDataset (args : list (string * value))
| EvDump (path : string)
| EvModel (args : list (string * value))
| EvModelTo
| EvParameters
| EvOptimizer (lr : value)
| EvTrainer (args : list (string * value))
| EvTrainerTo
| EvCallback (args : list (string * value))
| EvLoadStateDict (target : string) (state : value)
| EvStateDict (target : string)
| EvTrainEpoch (epoch : Z)
| EvStep (epoch : Z) (config : value).

(** The collaborators.  [World] is whatever they read and change: files,
    the device, the random generators, the objects they build. *)
Record Externals : Type := {
  World : Type;
  Device : Type;
  Loader : Type;
  Scaler : Type;
  Model : Type;
  Parameters : Type;
  Optimizer : Type;
  Trainer : Type;
  Callback : Type;
  Loss : Type;
  torch_load : value -> World -> World * outcome value;
  print : value -> World -> World * outcome unit;
  torch_device : value -> World -> World * outcome Device;
  create_dataset :
    list (string * value) -> World -> World * outcome (Loader * Scaler * Scaler);
  joblib_dump : Scaler -> string -> World -> World * outcome unit;
  UNet_Energy_new : list (string * value) -> World -> World * outcome Model;
  model_to : Model -> Device -> World -> World * outcome Model;
  model_parameters : Model -> World -> World * outcome Parameters;
  (** [torch.optim.AdamW(params, lr=lr, weight_decay=1e-4)] *)
  AdamW : Parameters -> value -> World -> World * outcome Optimizer;
  EnergyTrainer_new :
    Model -> list (string * value) -> World -> World * outcome Trainer;
  trainer_to : Trainer -> Device -> World -> World * outcome Trainer;
  ModelCheckpoint_new : list (string * value) -> World -> World * outcome Callback;
  model_load_state_dict : Model -> value -> World -> World * outcome unit;
  optimizer_load_state_dict : Optimizer -> value -> World -> World * outcome unit;
  callback_load_state_dict : Callback -> value -> World -> World * outcome unit;
  model_state_dict : Model -> World -> World * outcome value;
  optimizer_state_dict : Optimizer -> World -> World * outcome value;
  callback_state_dict : Callback -> World -> World * outcome value;
  train_one_epoch_energy :
    Trainer -> Loader -> Optimizer -> Device -> Z -> World -> World * outcome Loss;
  (** [model_checkpoint.step(loss, model=..., config=..., optimizer=...,
      start_epoch=..., model_checkpoint=...)] *)
  callback_step :
    Callback -> Loss -> value -> value -> value -> Z -> value ->
    World -> World * outcome unit
}.

Section Train.

Variable X : Externals.

(** A computation: from the world and the log so far to the world and the
    log after it, with the value returned or the exception raised. *)
Definition M (A : Type) : Type :=
  World X * list event -> (World X * list event) * outcome A.

Definition ret {A : Type} (a : A) : M A := fun st => (st, Return a).

Definition bind {A B : Type} (m : M A) (k : A -> M B) : M B :=
  fun st =>
    match m st with
    | (st', Return a) => k a st'
    | (st', Throw e) => (st', Throw e)
    end.

(** A step of [train] itself, which touches neither the world nor the log. *)
Definition lift {A : Type} (o : outcome A) : M A := fun st => (st, o).

(** A call of a collaborator: it is recorded, then it runs. *)
Definition call {A : Type} (ev : event)
  (f : World X -> World X * outcome A) : M A :=
  fun st =>
    let '(w, log) := st in
    let '(w', r) := f w in
    ((w', log ++ [ev]), r).

Declare Scope train_scope.
Delimit Scope train_scope with train.
Notation "x <- m ;; k" := (bind m (fun x => k))
  (at level 61, m at next level, right associativity) : train_scope.
Notation "' p <- m ;; k" := (bind m (fun x => match x with p => k end))
  (at level 61, p pattern, m at next level, right associativity) : train_scope.
Local Open Scope train_scope.

(** [for epoch in epochs: body(epoch)] *)
Fixpoint for_epochs (epochs : list Z) (body : Z -> M unit) : M unit :=
  match epochs with
  | [] => ret tt
  | epoch :: rest => _ <- body epoch ;; for_epochs rest body
  end.

(** Lines 42-45: one epoch of training and the checkpoint step. *)
Definition epoch_body (trainer : Trainer X) (loader : Loader X)
  (optimizer : Optimizer X) (device : Device X) (model : Model X)
  (model_checkpoint : Callback X) (config : value) (epoch : Z) : M unit :=
  loss <- call (EvTrainEpoch epoch)
            (train_one_epoch_energy X trainer loader optimizer device epoch) ;;
  msd <- call (EvStateDict "model") (model_state_dict X model) ;;
  osd <- call (EvStateDict "optimizer") (optimizer_state_dict X optimizer) ;;
  csd <- call (EvStateDict "model_checkpoint")
           (callback_state_dict X model_checkpoint) ;;
  call (EvStep epoch config)
    (callback_step X model_checkpoint loss msd config osd epoch csd).

(** Lines 17-20: [config] and, when [consume] is true, the checkpoint
    [cp]. *)
Definition load_config (config : value) : M (value * option value) :=
  consume <- lift (subscript config "consume") ;;
  if truthy consume then
    path <- lift (subscript config "consume_path") ;;
    cp <- call (EvLoad path) (torch_load X path) ;;
    config <- lift (subscript cp "config") ;;
    ret (config, Some cp)
  else ret (config, None).

(** Lines 35-39: [start_epoch] after the second [if consume:]; [cp] is
    bound exactly when [consume] is true. *)
Definition restore (cp : option value) (model : Model X)
  (optimizer : Optimizer X) (model_checkpoint : Callback X)
  (start_epoch : value) : M value :=
  match cp with
  | Some cp =>
      sd <- lift (subscript cp "model") ;;
      _ <- call (EvLoadStateDict "model" sd) (model_load_state_dict X model sd) ;;
      sd <- lift (subscript cp "optimizer") ;;
      _ <- call (EvLoadStateDict "optimizer" sd)
             (optimizer_load_state_dict X optimizer sd) ;;
      sd <- lift (subscript cp "model_checkpoint") ;;
      _ <- call (EvLoadStateDict "model_checkpoint" sd)
             (callback_load_state_dict X model_checkpoint sd) ;;
      s <- lift (subscript cp "start_epoch") ;;
      lift (add_one s)
  | None => ret start_epoch
  end.

Definition train (config : value) : M unit :=
  '(config, cp) <- load_config config ;;
  _ <- call (EvPrint config) (print X config) ;;
  name <- lift (subscript config "device") ;;
  device <- call (EvDevice name) (torch_device X name) ;;
  ds <- lift (subscript config "Dataset") ;;
  ds <- lift (kwargs ds) ;;
  '(loader, param_scaler, prop_scaler) <-
     call (EvCreateDataset ds) (create_dataset X ds) ;;
  _ <- call (EvDump "checkpoint/param_scaler_energy.pkl")
         (joblib_dump X param_scaler "checkpoint/param_scaler_energy.pkl") ;;
  _ <- call (EvDump "checkpoint/prop_scaler_energy.pkl")
         (joblib_dump X prop_scaler "checkpoint/prop_scaler_energy.pkl") ;;
  let start_epoch := VInt 1 in
  me <- lift (subscript config "ModelEnergy") ;;
  me <- lift (kwargs me) ;;
  model <- call (EvModel me) (UNet_Energy_new X me) ;;
  model <- call EvModelTo (model_to X model device) ;;
  params <- call EvParameters (model_parameters X model) ;;
  lr <- lift (subscript config "lr") ;;
  optimizer <- call (EvOptimizer lr) (AdamW X params lr) ;;
  tk <- lift (subscript config "Trainer") ;;
  tk <- lift (kwargs tk) ;;
  trainer <- call (EvTrainer tk) (EnergyTrainer_new X model tk) ;;
  trainer <- call EvTrainerTo (trainer_to X trainer device) ;;
  ck <- lift (subscript config "CallbackEnergy") ;;
  ck <- lift (kwargs ck) ;;
  model_checkpoint <- call (EvCallback ck) (ModelCheckpoint_new X ck) ;;
  start_epoch <- restore cp model optimizer model_checkpoint start_epoch ;;
  last <- lift (subscript config "epochs") ;;
  stop <- lift (add_one last) ;;
  epochs <- lift (py_range start_epoch stop) ;;
  for_epochs epochs
    (epoch_body trainer loader optimizer device model model_checkpoint config).

End Train.

(** The training epochs and checkpoint steps of a log. *)
Definition is_training_event (ev : event) : bool :=
  match ev with
  | EvTrainEpoch _ | EvStep _ _ => true
  | _ => false
  end.

Definition training_events (log : list event) : list event :=
  filter is_training_event log.

(** What the loop records for a list of epochs: each epoch of training,
    followed by its checkpoint step. *)
Definition schedule (config : value) (epochs : list Z) : list event :=
  flat_map (fun epoch => [EvTrainEpoch epoch; EvStep epoch config]) epochs.

Local Open Scope string_scope.

(** Collaborators that always succeed, on a world without state. *)
Definition quiet : Externals := {|
  World := unit;
  Device := unit; Loader := unit; Scaler := unit; Model := unit;
  Parameters := unit; Optimizer := unit; Trainer := unit; Callback := unit; Loss := unit;
  torch_load := fun _ w =>
    (w, Return (VDict [("config", VDict [("device", VStr "cpu");
                                           ("Dataset", VDict []);
                                           ("ModelEnergy", VDict []);
                                           ("lr", VFloat (1 # 1000));
                                           ("Trainer", VDict []);
                                           ("CallbackEnergy", VDict []);
                                           ("epochs", VInt 5)]);
                       ("model", VDict []); ("optimizer", VDict []);
                       ("model_checkpoint", VDict []);
                       ("start_epoch", VInt 3)]));
  print := fun _ w => (w, Return tt);
  torch_device := fun _ w => (w, Return tt);
  create_dataset := fun _ w => (w, Return (tt, tt, tt));
  joblib_dump := fun _ _ w => (w, Return tt);
  UNet_Energy_new := fun _ w => (w, Return tt);
  model_to := fun _ _ w => (w, Return tt);
  model_parameters := fun _ w => (w, Return tt);
  AdamW := fun _ _ w => (w, Return tt);
  EnergyTrainer_new := fun _ _ w => (w, Return tt);
  trainer_to := fun _ _ w => (w, Return tt);
  ModelCheckpoint_new := fun _ w => (w, Return tt);
  model_load_state_dict := fun _ _ w => (w, Return tt);
  optimizer_load_state_dict := fun _ _ w => (w, Return tt);
  callback_load_state_dict := fun _ _ w => (w, Return tt);
  model_state_dict := fun _ w => (w, Return (VDict []));
  optimizer_state_dict := fun _ w => (w, Return (VDict []));
  callback_state_dict := fun _ w => (w, Return (VDict []));
  train_one_epoch_energy := fun _ _ _ _ _ w => (w, Return tt);
  callback_step := fun _ _ _ _ _ _ _ w => (w, Return tt)
|}.

(** A configuration for a fresh run of two epochs, and one that resumes. *)
Definition fresh_config : value :=
  VDict [("consume", VBool false); ("device", VStr "cpu");
         ("Dataset", VDict []); ("ModelEnergy", VDict []);
         ("lr", VFloat (1 # 1000)); ("Trainer", VDict []);
         ("CallbackEnergy", VDict []); ("epochs", VInt 2)].

Definition resume_config : value :=
  VDict [("consume", VBool true); ("consume_path", VStr "checkpoint/last.pt");
         ("epochs", VInt 100)].

End TrainEnergy.

(** * Properties *)

(** ** The error monad, loops and stacks *)

Lemma bind_Ok_inv {A B : Type} (m : result A) (k : A -> result B) (b : B) :
  bind m k = Ok b -> exists a, m = Ok a /\ k a = Ok b.
Proof. destruct m as [a|e]; simpl; intros E; [eauto | discriminate]. Qed.

(** [step H x Hx] splits [H : bind m k = Ok b] into [Hx : m = Ok x] and
    [H : k x = Ok b]. *)
Tactic Notation "step" hyp(H) ident(x) ident(Hx) :=
  apply bind_Ok_inv in H; destruct H as (x & Hx & H).

(** The last equation [H : Ok a = Ok b]. *)
Ltac done_ok H := injection H as H.

Lemma for_each_app {A S : Type} (l1 l2 : list A) (body : A -> S -> result S) s :
  for_each (l1 ++ l2) body s = (s' <- for_each l1 body s ;; for_each l2 body s').
Proof.
  revert s; induction l1 as [|x l1 IH]; intros s; simpl; [reflexivity|].
  destruct (body x s); simpl; auto.
Qed.

Lemma for_each_invariant {A S : Type} (P : S -> Prop) (l : list A)
  (body : A -> S -> result S) :
  (forall x s s', In x l -> P s -> body x s = Ok s' -> P s') ->
  forall s s', P s -> for_each l body s = Ok s' -> P s'.
Proof.
  induction l as [|x l IH]; intros Hstep s s' Hs E; simpl in E.
  - injection E as <-; exact Hs.
  - apply bind_Ok_inv in E; destruct E as (s1 & E1 & E).
    apply IH with (s := s1); auto.
    + intros y t t' Hy; apply Hstep; right; exact Hy.
    + apply Hstep with (x := x) (s := s); auto; left; reflexivity.
Qed.

Lemma pop_snoc {A : Type} (l : list A) (x : A) : pop (l ++ [x]) = Ok (x, l).
Proof.
  induction l as [|y l IH]; simpl; [reflexivity|].
  rewrite IH; simpl. destruct (l ++ [x]) eqn:E; [|reflexivity].
  destruct l; discriminate.
Qed.

Lemma pop_Ok_inv {A : Type} (l : list A) (x : A) (r : list A) :
  pop l = Ok (x, r) -> l = r ++ [x].
Proof.
  destruct l as [|y l] using rev_ind; [discriminate|].
  rewrite pop_snoc; intros E; injection E as <- <-; reflexivity.
Qed.

Lemma enumerate_length {A : Type} (l : list A) : length (enumerate l) = length l.
Proof. unfold enumerate; rewrite length_combine, length_seq; lia. Qed.

Lemma combine_app_same {A B : Type} (l1 l2 : list A) (m1 m2 : list B) :
  length l1 = length m1 ->
  combine (l1 ++ l2) (m1 ++ m2) = combine l1 m1 ++ combine l2 m2.
Proof.
  revert m1; induction l1 as [|a l1 IH]; intros [|b m1] E; simpl in *;
    try discriminate; [reflexivity|].
  f_equal; apply IH; lia.
Qed.

Lemma enumerate_snoc {A : Type} (l : list A) (x : A) :
  enumerate (l ++ [x]) = enumerate l ++ [(length l, x)].
Proof.
  unfold enumerate. rewrite length_app; simpl length.
  rewrite seq_app; simpl seq.
  rewrite combine_app_same by (rewrite length_seq; reflexivity). reflexivity.
Qed.

Lemma enumerate_In {A : Type} (l : list A) (i : nat) (x : A) :
  In (i, x) (enumerate l) -> (i < length l)%nat /\ In x l.
Proof.
  unfold enumerate; intros H; split.
  - apply in_combine_l in H; apply in_seq in H; lia.
  - apply in_combine_r in H; exact H.
Qed.

(** ** Constructors *)

Lemma py_mod_Ok (a b r : Z) : py_mod a b = Ok r -> b <> 0 /\ r = a mod b.
Proof.
  unfold py_mod; destruct (Z.eqb_spec b 0); [discriminate|].
  intros E; injection E as <-; auto.
Qed.

Lemma GroupNorm_init_Ok (g c : Z) (n : nn.GroupNorm) :
  nn.GroupNorm_init g c = Ok n ->
  n = nn.mkGroupNorm g c /\ g <> 0 /\ c mod g = 0 /\ 0 <= c.
Proof.
  unfold nn.GroupNorm_init; intros E. step E r Er.
  apply py_mod_Ok in Er; destruct Er as (Hg & ->).
  destruct (Z.eqb_spec (c mod g) 0); simpl in E; [|discriminate].
  step E u Eu. done_ok E. unfold nn.alloc in Eu; simpl in Eu.
  destruct (Z.leb_spec 0 c); [|discriminate]. auto.
Qed.

Lemma norm_layer_Ok (c : Z) (n : nn.GroupNorm) :
  norm_layer c = Ok n -> n = nn.mkGroupNorm 32 c /\ c mod 32 = 0 /\ 0 <= c.
Proof.
  intros E; apply GroupNorm_init_Ok in E; destruct E as (-> & _ & ? & ?); auto.
Qed.

Lemma norm_layer_eq (c : Z) :
  0 <= c -> c mod 32 = 0 -> norm_layer c = Ok (nn.mkGroupNorm 32 c).
Proof.
  intros Hc Hm; unfold norm_layer, nn.GroupNorm_init, py_mod, nn.alloc; simpl.
  rewrite Hm; simpl. destruct (Z.leb_spec 0 c); [reflexivity | lia].
Qed.

Lemma norm_layer_not_divisible (c : Z) :
  c mod 32 <> 0 -> norm_layer c = Raise ValueError.
Proof.
  intros Hm; unfold norm_layer, nn.GroupNorm_init, py_mod; simpl.
  destruct (Z.eqb_spec (c mod 32) 0); [contradiction | reflexivity].
Qed.

Lemma Conv2d_init_eq (cin cout k s p : Z) (b : bool) :
  0 <= cin -> 0 <= cout -> 0 <= k ->
  nn.Conv2d_init cin cout k s p b = Ok (nn.mkConv2d cin cout k s p b).
Proof.
  intros; unfold nn.Conv2d_init, nn.alloc; simpl.
  repeat match goal with |- context [?a <=? ?b] =>
    destruct (Z.leb_spec a b); [|lia] end. reflexivity.
Qed.

Lemma Conv2d_init_Ok (cin cout k s p : Z) (b : bool) (c : nn.Conv2d) :
  nn.Conv2d_init cin cout k s p b = Ok c -> c = nn.mkConv2d cin cout k s p b.
Proof. unfold nn.Conv2d_init; intros E; step E u Eu; done_ok E; auto. Qed.

Lemma Linear_init_eq (fin fout : Z) :
  0 <= fin -> 0 <= fout -> nn.Linear_init fin fout = Ok (nn.mkLinear fin fout).
Proof.
  intros; unfold nn.Linear_init, nn.alloc; simpl.
  repeat match goal with |- context [?a <=? ?b] =>
    destruct (Z.leb_spec a b); [|lia] end. reflexivity.
Qed.

Lemma Linear_init_Ok (fin fout : Z) (l : nn.Linear) :
  nn.Linear_init fin fout = Ok l -> l = nn.mkLinear fin fout.
Proof. unfold nn.Linear_init; intros E; step E u Eu; done_ok E; auto. Qed.

Lemma LayerNorm_init_Ok (d : Z) (l : nn.LayerNorm) :
  nn.LayerNorm_init d = Ok l -> l = nn.mkLayerNorm d.
Proof. unfold nn.LayerNorm_init; intros E; step E u Eu; done_ok E; auto. Qed.

Lemma LayerNorm_init_eq (d : Z) :
  0 <= d -> nn.LayerNorm_init d = Ok (nn.mkLayerNorm d).
Proof.
  intros; unfold nn.LayerNorm_init, nn.alloc; simpl.
  destruct (Z.leb_spec 0 d); [reflexivity | lia].
Qed.

(** What a successfully built residual block looks like. *)
Lemma ResidualBlock_init_Ok (cin cout tc : Z) (dr : Q) (r : ResidualBlock) :
  ResidualBlock_init cin cout tc dr = Ok r ->
  cin mod 32 = 0 /\ cout mod 32 = 0 /\ 0 <= cin /\ 0 <= cout /\
  exists d,
    r = {| rb_conv1 := [nn.LGroupNorm (nn.mkGroupNorm 32 cin); nn.LSiLU;
                        nn.LConv2d (nn.mkConv2d cin cout 3 1 1 true)];
           rb_time_emb := [nn.LSiLU; nn.LLinear (nn.mkLinear tc cout)];
           rb_conv2 := [nn.LGroupNorm (nn.mkGroupNorm 32 cout); nn.LSiLU;
                        nn.LDropout d;
                        nn.LConv2d (nn.mkConv2d cout cout 3 1 1 true)];
           rb_shortcut := if negb (cin =? cout)
                          then nn.LConv2d (nn.mkConv2d cin cout 1 1 0 true)
                          else nn.LIdentity |}.
Proof.
  unfold ResidualBlock_init; intros E.
  step E n1 En1. step E c1 Ec1. step E l El. step E n2 En2. step E d Ed.
  step E c2 Ec2. step E sc Esc. done_ok E.
  apply norm_layer_Ok in En1; destruct En1 as (-> & ? & ?).
  apply norm_layer_Ok in En2; destruct En2 as (-> & ? & ?).
  apply Conv2d_init_Ok in Ec1, Ec2; subst c1 c2.
  apply Linear_init_Ok in El; subst l.
  repeat split; auto. exists d. rewrite <- E. f_equal.
  destruct (negb (cin =? cout)).
  - step Esc c Ec. done_ok Esc. apply Conv2d_init_Ok in Ec; subst; reflexivity.
  - done_ok Esc; auto.
Qed.

Lemma AttentionBlock_init_Ok (c nh : Z) (a : AttentionBlock) :
  AttentionBlock_init c nh = Ok a ->
  nh <> 0 /\ c mod nh = 0 /\ c mod 32 = 0 /\ 0 <= c /\
  a = {| ab_num_heads := nh; ab_norm := nn.mkGroupNorm 32 c;
         ab_qkv := nn.mkConv2d c (c * 3) 1 1 0 false;
         ab_proj := nn.mkConv2d c c 1 1 0 true |}.
Proof.
  unfold AttentionBlock_init; intros E.
  step E r Er. step E u Eu. step E n En. step E q Eq. step E p Ep. done_ok E.
  apply py_mod_Ok in Er; destruct Er as (Hnh & ->).
  unfold py_assert in Eu. destruct (Z.eqb_spec (c mod nh) 0); [|discriminate].
  apply norm_layer_Ok in En; destruct En as (-> & ? & ?).
  apply Conv2d_init_Ok in Eq, Ep; subst. auto.
Qed.

Lemma CrossModalAttentionBlock_init_Ok (c pd nh : Z) (a : CrossModalAttentionBlock) :
  CrossModalAttentionBlock_init c pd nh = Ok a ->
  nh <> 0 /\ c mod nh = 0 /\ c mod 32 = 0 /\ 0 <= c /\
  a = {| cm_num_heads := nh; cm_img_norm := nn.mkGroupNorm 32 c;
         cm_img_to_q := nn.mkConv2d c c 1 1 0 false;
         cm_param_norm := nn.mkLayerNorm pd;
         cm_param_to_kv := nn.mkLinear pd (c * 2);
         cm_proj := nn.mkConv2d c c 1 1 0 true |}.
Proof.
  unfold CrossModalAttentionBlock_init; intros E.
  step E r Er. step E u Eu. step E n En. step E q Eq. step E pn Epn.
  step E kv Ekv. step E p Ep. done_ok E.
  apply py_mod_Ok in Er; destruct Er as (Hnh & ->).
  unfold py_assert in Eu. destruct (Z.eqb_spec (c mod nh) 0); [|discriminate].
  apply norm_layer_Ok in En; destruct En as (-> & ? & ?).
  apply Conv2d_init_Ok in Eq, Ep; subst.
  apply LayerNorm_init_Ok in Epn; apply Linear_init_Ok in Ekv; subst. auto.
Qed.

(** C7 (as amended).  With positive arguments, constructing an
    [AttentionBlock] or a [CrossModalAttentionBlock] raises [AssertionError]
    exactly when the image channel count is not divisible by [num_heads];
    construction succeeds exactly when the channel count is divisible by
    [num_heads] and by the 32 groups of [norm_layer]. *)
Theorem attention_construction (channels param_dim num_heads : Z) :
  0 < channels -> 0 < param_dim -> 0 < num_heads ->
  (AttentionBlock_init channels num_heads = Raise AssertionError
   <-> channels mod num_heads <> 0) /\
  (CrossModalAttentionBlock_init channels param_dim num_heads = Raise AssertionError
   <-> channels mod num_heads <> 0) /\
  (is_ok (AttentionBlock_init channels num_heads) = true
   <-> channels mod num_heads = 0 /\ channels mod 32 = 0) /\
  (is_ok (CrossModalAttentionBlock_init channels param_dim num_heads) = true
   <-> channels mod num_heads = 0 /\ channels mod 32 = 0).
Proof.
  intros Hc Hp Hn.
  assert (Hnz : (num_heads =? 0) = false) by (apply Z.eqb_neq; lia).
  assert (Hshape :
            channels mod num_heads = 0 -> channels mod 32 <> 0 ->
            AttentionBlock_init channels num_heads = Raise ValueError /\
            CrossModalAttentionBlock_init channels param_dim num_heads
              = Raise ValueError).
  { intros H1 H2.
    unfold AttentionBlock_init, CrossModalAttentionBlock_init, py_mod.
    rewrite Hnz; simpl. rewrite H1; simpl.
    rewrite (norm_layer_not_divisible _ H2); auto. }
  assert (Hgood : channels mod num_heads = 0 -> channels mod 32 = 0 ->
            is_ok (AttentionBlock_init channels num_heads) = true /\
            is_ok (CrossModalAttentionBlock_init channels param_dim num_heads)
              = true).
  { intros H1 H2.
    unfold AttentionBlock_init, CrossModalAttentionBlock_init, py_mod.
    rewrite Hnz; simpl. rewrite H1; simpl.
    rewrite norm_layer_eq by lia; simpl.
    rewrite !Conv2d_init_eq by lia; simpl.
    rewrite LayerNorm_init_eq by lia; simpl.
    rewrite Linear_init_eq by lia; simpl. auto. }
  assert (Hbad : channels mod num_heads <> 0 ->
            AttentionBlock_init channels num_heads = Raise AssertionError /\
            CrossModalAttentionBlock_init channels param_dim num_heads
              = Raise AssertionError).
  { intros H1.
    unfold AttentionBlock_init, CrossModalAttentionBlock_init, py_mod.
    rewrite Hnz; simpl.
    destruct (Z.eqb_spec (channels mod num_heads) 0); [contradiction|]. auto. }
  destruct (Z.eq_dec (channels mod num_heads) 0) as [H1|H1].
  - destruct (Z.eq_dec (channels mod 32) 0) as [H2|H2].
    + destruct (Hgood H1 H2) as (G1 & G2).
      repeat split; auto; try contradiction;
        intros E; rewrite E in *; discriminate.
    + destruct (Hshape H1 H2) as (G1 & G2). rewrite G1, G2.
      repeat split; try discriminate; try tauto; intros (_ & ?); contradiction.
  - destruct (Hbad H1) as (G1 & G2). rewrite G1, G2.
    repeat split; auto; try discriminate; intros (? & _); contradiction.
Qed.

Lemma attention_construction_witness :
  (AttentionBlock_init 64 3 = Raise AssertionError <-> 64 mod 3 <> 0) /\
  (is_ok (CrossModalAttentionBlock_init 64 16 4) = true
   <-> 64 mod 4 = 0 /\ 64 mod 32 = 0).
Proof.
  assert (H := attention_construction 64 16 3 ltac:(lia) ltac:(lia) ltac:(lia)).
  assert (H' := attention_construction 64 16 4 ltac:(lia) ltac:(lia) ltac:(lia)).
  split; [exact (proj1 H) | exact (proj2 (proj2 (proj2 H')))].
Defined.

(** C7 as stated fails: 16 channels are divisible by 4 heads, yet both
    constructors raise, from the group normalisation. *)
Lemma attention_construction_counterexample :
  16 mod 4 = 0 /\
  AttentionBlock_init 16 4 = Raise ValueError /\
  CrossModalAttentionBlock_init 16 8 4 = Raise ValueError.
Proof. repeat split. Qed.

(** ** Induction principles for the loops *)

Lemma for_each_seq_ind {S : Type} (P : nat -> S -> Prop)
  (body : nat -> S -> result S) (a n : nat) :
  (forall i s s', (a <= i < a + n)%nat -> P i s -> body i s = Ok s' -> P (Datatypes.S i) s') ->
  forall s s', P a s -> for_each (seq a n) body s = Ok s' -> P (a + n)%nat s'.
Proof.
  revert a; induction n as [|n IH]; intros a Hstep s s' Hs E; simpl in E.
  - done_ok E; subst; rewrite Nat.add_0_r; exact Hs.
  - step E s1 E1. replace (a + Datatypes.S n)%nat with (Datatypes.S a + n)%nat by lia.
    apply IH with (s := s1); auto.
    + intros i t t' Hi; apply Hstep; lia.
    + apply Hstep with (i := a) (s := s); auto; lia.
Qed.

Lemma for_each_range_ind {S : Type} (P : nat -> S -> Prop)
  (body : nat -> S -> result S) (n : nat) :
  (forall i s s', (i < n)%nat -> P i s -> body i s = Ok s' -> P (Datatypes.S i) s') ->
  forall s s', P O s -> for_each (range n) body s = Ok s' -> P n s'.
Proof.
  intros Hstep s s' Hs E.
  apply (for_each_seq_ind P body O n) with (s := s); auto.
  intros i t t' Hi; apply Hstep; lia.
Qed.

Lemma for_each_enumerate_ind {A S : Type} (P : nat -> S -> Prop)
  (body : nat * A -> S -> result S) (l : list A) :
  (forall i x s s', nth_error l i = Some x -> P i s -> body (i, x) s = Ok s' ->
                    P (Datatypes.S i) s') ->
  forall s s', P O s -> for_each (enumerate l) body s = Ok s' -> P (length l) s'.
Proof.
  induction l as [|x l IH] using rev_ind; intros Hstep s s' Hs E.
  - simpl in E; done_ok E; subst; exact Hs.
  - rewrite enumerate_snoc, for_each_app in E. step E s1 E1.
    simpl in E. step E s2 E2. done_ok E; subst s2.
    rewrite length_app; simpl; rewrite Nat.add_1_r.
    apply Hstep with (x := x) (s := s1); auto.
    + rewrite nth_error_app2, Nat.sub_diag by lia; reflexivity.
    + apply IH with (s := s); auto.
      intros i y t t' Hi; apply Hstep.
      rewrite nth_error_app1; auto. apply nth_error_Some; congruence.
Qed.

Lemma for_each_rev_enumerate_ind {A S : Type} (P : nat -> S -> Prop)
  (body : nat * A -> S -> result S) (l : list A) :
  (forall i x s s', nth_error l i = Some x -> P (Datatypes.S i) s ->
                    body (i, x) s = Ok s' -> P i s') ->
  forall s s', P (length l) s -> for_each (rev (enumerate l)) body s = Ok s' ->
               P O s'.
Proof.
  induction l as [|x l IH] using rev_ind; intros Hstep s s' Hs E.
  - simpl in E; done_ok E; subst; exact Hs.
  - rewrite enumerate_snoc, rev_app_distr in E; simpl in E. step E s1 E1.
    rewrite length_app in Hs; simpl in Hs; rewrite Nat.add_1_r in Hs.
    apply IH with (s := s1); auto.
    + intros i y t t' Hi; apply Hstep.
      rewrite nth_error_app1; auto. apply nth_error_Some; congruence.
    + apply Hstep with (x := x) (s := s); auto.
      rewrite nth_error_app2, Nat.sub_diag by lia; reflexivity.
Qed.

(** ** The assembly loops, one iteration at a time *)

Lemma attention_layers_Ok (cfg : Config) (ch ds : Z) (att : list Block) :
  attention_layers cfg ch ds = Ok att ->
  att = [] \/
  (exists a, AttentionBlock_init ch (num_heads cfg) = Ok a /\
             (att = [BAttentionBlock a] \/
              exists c, CrossModalAttentionBlock_init ch (param_hidden_dim cfg)
                          (num_heads cfg) = Ok c /\
                        att = [BAttentionBlock a; BCrossModalAttentionBlock c])).
Proof.
  unfold attention_layers; intros E.
  destruct (py_in ds (attention_resolutions cfg)).
  - step E a Ea. right; exists a; split; auto.
    destruct (use_cross_attention cfg).
    + step E c Ec. done_ok E; subst. right; exists c; auto.
    + done_ok E; subst; auto.
  - done_ok E; subst; auto.
Qed.

Lemma attention_layers_no_upsample (cfg : Config) (ch ds : Z) (att : list Block) :
  attention_layers cfg ch ds = Ok att -> existsb is_Upsample att = false.
Proof.
  intros E; apply attention_layers_Ok in E.
  destruct E as [->|(a & _ & [->|(c & _ & ->)])]; reflexivity.
Qed.

Lemma down_res_step_Ok (cfg : Config) (mult : Z) (st st' : BuildState) :
  down_res_step cfg mult st = Ok st' ->
  exists r att,
    ResidualBlock_init (bs_ch st) (mult * model_channels cfg)
      (time_embed_dim cfg) (dropout cfg) = Ok r /\
    attention_layers cfg (mult * model_channels cfg) (bs_ds st) = Ok att /\
    st' = {| bs_blocks := bs_blocks st ++ [BResidualBlock r :: att];
             bs_chans := bs_chans st ++ [mult * model_channels cfg];
             bs_ch := mult * model_channels cfg;
             bs_ds := bs_ds st |}.
Proof.
  unfold down_res_step; intros E. step E r Er. step E att Eatt. done_ok E.
  exists r, att; auto.
Qed.

Lemma down_level_step_Ok (cfg : Config) (level : nat) (mult : Z)
  (st st' : BuildState) :
  down_level_step cfg (level, mult) st = Ok st' ->
  exists st1,
    for_each (range (num_res_blocks cfg)) (fun _ s => down_res_step cfg mult s) st
      = Ok st1 /\
    ((level <> length (channel_mult cfg) - 1)%nat /\
     (exists d, Downsample_init (bs_ch st1) (conv_resample cfg) = Ok d /\
        st' = {| bs_blocks := bs_blocks st1 ++ [[BDownsample d]];
                 bs_chans := bs_chans st1 ++ [bs_ch st1];
                 bs_ch := bs_ch st1;
                 bs_ds := bs_ds st1 * 2 |})
     \/ (level = length (channel_mult cfg) - 1)%nat /\ st' = st1).
Proof.
  unfold down_level_step; intros E. step E st1 E1. exists st1; split; auto.
  destruct (Nat.eqb_spec level (length (channel_mult cfg) - 1)); simpl in E.
  - done_ok E; auto.
  - step E d Ed. done_ok E. left; split; auto. exists d; auto.
Qed.

Lemma up_res_step_Ok (cfg : Config) (level : nat) (mult : Z) (i : nat)
  (st st' : BuildState) :
  up_res_step cfg level mult i st = Ok st' ->
  exists c chans r att,
    bs_chans st = chans ++ [c] /\
    ResidualBlock_init (bs_ch st + c) (model_channels cfg * mult)
      (time_embed_dim cfg) (dropout cfg) = Ok r /\
    attention_layers cfg (model_channels cfg * mult) (bs_ds st) = Ok att /\
    bs_chans st' = chans /\
    bs_ch st' = model_channels cfg * mult /\
    ((level <> O /\ i = num_res_blocks cfg) /\
     (exists u, Upsample_init (model_channels cfg * mult) (conv_resample cfg) = Ok u /\
        bs_blocks st' = bs_blocks st ++ [BResidualBlock r :: att ++ [BUpsample u]]) /\
     bs_ds st' = bs_ds st / 2
     \/ ~ (level <> O /\ i = num_res_blocks cfg) /\
        bs_blocks st' = bs_blocks st ++ [BResidualBlock r :: att] /\
        bs_ds st' = bs_ds st).
Proof.
  unfold up_res_step; intros E. step E p Ep. destruct p as (c, chans).
  apply pop_Ok_inv in Ep. step E r Er. step E att Eatt.
  exists c, chans, r, att. repeat (split; [assumption|]).
  destruct (Nat.eqb_spec level 0) as [Hl|Hl];
    destruct (Nat.eqb_spec i (num_res_blocks cfg)) as [Hi|Hi]; simpl in E;
    try (done_ok E; subst st'; simpl; repeat split; auto; right;
         repeat split; auto; intros (? & ?); contradiction).
  step E u Eu. done_ok E; subst st'; simpl. repeat split; auto.
  left; repeat split; auto. exists u; auto.
Qed.

(** ** C10: the 32 groups of [norm_layer] *)

Lemma build_down_blocks_ch (cfg : Config) (enc : BuildState) :
  build_down_blocks cfg = Ok enc ->
  bs_ch enc = model_channels cfg \/ model_channels cfg mod 32 = 0.
Proof.
  unfold build_down_blocks; intros E. step E c Ec.
  pose (P := fun st : BuildState =>
               bs_ch st = model_channels cfg \/ model_channels cfg mod 32 = 0).
  apply (for_each_invariant P) in E; auto; [|left; reflexivity].
  intros (level, mult) s s' _ Hs Es.
  apply down_level_step_Ok in Es. destruct Es as (s1 & E1 & Hd).
  assert (H1 : P s1).
  { apply (for_each_invariant P) in E1; auto.
    intros _ t t' _ Ht Et. apply down_res_step_Ok in Et.
    destruct Et as (r & att & Er & _ & ->). unfold P; simpl.
    apply ResidualBlock_init_Ok in Er. destruct Er as (Hm & _).
    destruct Ht as [Ht|Ht]; [right; congruence | right; exact Ht]. }
  destruct Hd as [(_ & d & _ & ->)|(_ & ->)]; auto.
Qed.

Lemma encoder_middle_mod32 (cfg : Config) (enc : BuildState)
  (mid : TimestepEmbedSequential) :
  build_down_blocks cfg = Ok enc ->
  build_middle_block cfg (bs_ch enc) = Ok mid ->
  model_channels cfg mod 32 = 0.
Proof.
  intros Eenc Emid. apply build_down_blocks_ch in Eenc.
  unfold build_middle_block in Emid. step Emid r1 Er1.
  apply ResidualBlock_init_Ok in Er1. destruct Er1 as (Hm & _).
  destruct Eenc as [Hc|Hc]; congruence.
Qed.

Lemma mult_mod32 (mc : Z) (mults : list Z) :
  mc mod 32 = 0 -> Forall (fun mult => (mult * mc) mod 32 = 0) mults.
Proof.
  intros Hm. apply Forall_forall; intros mult _.
  apply Z.mod_divide in Hm; [|lia]. apply Z.mod_divide; [lia|].
  apply Z.divide_mul_r; exact Hm.
Qed.

(** C10.  [norm_layer] always builds a normalisation with 32 groups, so a
    [UNet] or a [UNet_Energy] is only constructed when [model_channels] and
    every [mult * model_channels], [mult] in [channel_mult], are multiples
    of 32. *)
Theorem groupnorm_constraint (cfg : Config) (prop_dim prop_hidden_dim : Z) :
  is_ok (UNet_init cfg) = true \/
  is_ok (UNet_Energy_init (mkEnergyConfig cfg prop_dim prop_hidden_dim)) = true ->
  (forall c g, norm_layer c = Ok g -> nn.num_groups g = 32) /\
  model_channels cfg mod 32 = 0 /\
  Forall (fun mult => (mult * model_channels cfg) mod 32 = 0) (channel_mult cfg).
Proof.
  intros Hok.
  assert (Hm : model_channels cfg mod 32 = 0).
  { destruct Hok as [Hok|Hok].
    - destruct (UNet_init cfg) as [u|] eqn:E; [|discriminate].
      unfold UNet_init in E. step E te Ete. step E pe Epe. step E enc Eenc.
      step E mid Emid. eapply encoder_middle_mod32; eauto.
    - destruct (UNet_Energy_init _) as [u|] eqn:E; [|discriminate].
      unfold UNet_Energy_init in E; simpl in E.
      step E te Ete. step E pe Epe. step E enc Eenc. step E mid Emid.
      eapply encoder_middle_mod32; eauto. }
  split; [|split; [exact Hm | apply mult_mod32; exact Hm]].
  intros c g Hg. apply norm_layer_Ok in Hg. destruct Hg as (-> & _). reflexivity.
Qed.

Lemma groupnorm_constraint_witness :
  model_channels default_config mod 32 = 0 /\
  Forall (fun mult => (mult * model_channels default_config) mod 32 = 0)
    (channel_mult default_config).
Proof.
  apply (groupnorm_constraint default_config 1 128).
  left; vm_compute; reflexivity.
Defined.

(** ** C3: where the decoder places its [Upsample] operators *)

Lemma upsample_here_spec (cfg : Config) (level i : nat) :
  upsample_here cfg level i = true <-> level <> O /\ i = num_res_blocks cfg.
Proof.
  unfold upsample_here.
  destruct (Nat.eqb_spec level 0); destruct (Nat.eqb_spec i (num_res_blocks cfg));
    simpl; split; intros; try discriminate; try tauto.
Qed.

Lemma up_res_step_block (cfg : Config) (level : nat) (mult : Z) (i : nat)
  (st st' : BuildState) :
  up_res_step cfg level mult i st = Ok st' ->
  exists blk, bs_blocks st' = bs_blocks st ++ [blk] /\
              has_upsample blk = upsample_here cfg level i /\
              bs_ds st' = if upsample_here cfg level i
                          then bs_ds st / 2 else bs_ds st.
Proof.
  intros E. apply up_res_step_Ok in E.
  destruct E as (c & chans & r & att & _ & _ & Eatt & _ & _ & Hcase).
  apply attention_layers_no_upsample in Eatt.
  destruct Hcase as [(Hc & (u & _ & Hb) & Hds)|(Hc & Hb & Hds)].
  - apply upsample_here_spec in Hc. rewrite Hc.
    eexists; split; [exact Hb|]. split; auto.
    unfold has_upsample; simpl. rewrite existsb_app; simpl.
    apply orb_true_r.
  - assert (Hf : upsample_here cfg level i = false).
    { destruct (upsample_here cfg level i) eqn:Hu; auto.
      apply upsample_here_spec in Hu; contradiction. }
    rewrite Hf. eexists; split; [exact Hb|]. split; auto.
Qed.

Lemma up_level_step_blocks (cfg : Config) (level : nat) (mult : Z)
  (st st' : BuildState) :
  up_level_step cfg (level, mult) st = Ok st' ->
  exists blks,
    bs_blocks st' = bs_blocks st ++ blks /\
    length blks = (num_res_blocks cfg + 1)%nat /\
    forall i, (i <= num_res_blocks cfg)%nat ->
      exists blk, nth_error blks i = Some blk /\
                  has_upsample blk = upsample_here cfg level i.
Proof.
  unfold up_level_step; intros E.
  pose (P := fun (j : nat) (s : BuildState) =>
    exists blks, bs_blocks s = bs_blocks st ++ blks /\ length blks = j /\
      forall i, (i < j)%nat ->
        exists blk, nth_error blks i = Some blk /\
                    has_upsample blk = upsample_here cfg level i).
  apply (for_each_range_ind P) in E.
  - destruct E as (blks & Hb & Hl & Hn). exists blks; repeat split; auto.
    intros i Hi; apply Hn; lia.
  - intros i s s' Hi (blks & Hb & Hl & Hn) Es.
    apply up_res_step_block in Es. destruct Es as (blk & Hb' & Hu & _).
    exists (blks ++ [blk]); repeat split.
    + rewrite Hb', Hb, <- app_assoc; reflexivity.
    + rewrite length_app; simpl; lia.
    + intros k Hk. destruct (Nat.eq_dec k i) as [->|Hne].
      * exists blk; split; auto.
        rewrite nth_error_app2, Hl, Nat.sub_diag by lia; reflexivity.
      * destruct (Hn k ltac:(lia)) as (b & Hb1 & Hb2).
        exists b; split; auto. rewrite nth_error_app1 by lia; exact Hb1.
  - exists []; repeat split; [rewrite app_nil_r; reflexivity | intros; lia].
Qed.

(** The decoder loop over any list of multipliers, from any state. *)
Lemma up_levels_blocks (cfg : Config) (mults : list Z) (st st' : BuildState) :
  for_each (rev (enumerate mults)) (up_level_step cfg) st = Ok st' ->
  exists blks,
    bs_blocks st' = bs_blocks st ++ blks /\
    length blks = (length mults * (num_res_blocks cfg + 1))%nat /\
    forall level i, (level < length mults)%nat -> (i <= num_res_blocks cfg)%nat ->
      exists blk,
        nth_error blks
          ((length mults - 1 - level) * (num_res_blocks cfg + 1) + i)%nat
          = Some blk /\
        has_upsample blk = upsample_here cfg level i.
Proof.
  revert st st'; induction mults as [|m mults IH] using rev_ind; intros st st' E.
  - simpl in E; done_ok E; subst. exists []; repeat split.
    + rewrite app_nil_r; reflexivity.
    + intros level i Hl; simpl in Hl; lia.
  - rewrite enumerate_snoc, rev_app_distr in E; simpl in E. step E s1 E1.
    apply up_level_step_blocks in E1. destruct E1 as (b1 & Hb1 & Hl1 & Hn1).
    apply IH in E. destruct E as (b2 & Hb2 & Hl2 & Hn2).
    exists (b1 ++ b2); repeat split.
    + rewrite Hb2, Hb1, <- app_assoc; reflexivity.
    + rewrite !length_app, Hl1, Hl2; simpl; lia.
    + intros level i Hlev Hi. rewrite length_app in *; simpl in *.
      destruct (Nat.eq_dec level (length mults)) as [->|Hne].
      * destruct (Hn1 i Hi) as (blk & Hb & Hu). exists blk; split; auto.
        replace (length mults + 1 - 1 - length mults)%nat with O by lia.
        simpl. rewrite nth_error_app1 by lia. exact Hb.
      * destruct (Hn2 level i ltac:(lia) Hi) as (blk & Hb & Hu).
        exists blk; split; auto.
        rewrite nth_error_app2 by (rewrite Hl1; nia).
        rewrite Hl1. rewrite <- Hb. f_equal. nia.
Qed.

Lemma UNet_init_Ok (cfg : Config) (u : UNet) :
  UNet_init cfg = Ok u ->
  exists te pe enc mid dec n c po,
    build_time_embed cfg = Ok te /\
    ParameterEncoder_init (param_dim cfg) (param_hidden_dim cfg)
      (param_hidden_dim cfg) (time_embed_dim cfg) = Ok pe /\
    build_down_blocks cfg = Ok enc /\
    build_middle_block cfg (bs_ch enc) = Ok mid /\
    build_up_blocks cfg enc = Ok dec /\
    norm_layer (bs_ch dec) = Ok n /\
    nn.Conv2d_init (model_channels cfg) (out_channels cfg) 3 1 1 true = Ok c /\
    nn.Linear_init (param_hidden_dim cfg) (param_dim cfg) = Ok po /\
    u = {| u_model_channels := model_channels cfg;
           u_time_embed := te;
           u_param_encoder := pe;
           u_down_blocks := bs_blocks enc;
           u_middle_block := mid;
           u_up_blocks := bs_blocks dec;
           u_img_out := [nn.LGroupNorm n; nn.LSiLU; nn.LConv2d c];
           u_param_out := po |}.
Proof.
  unfold UNet_init; intros E.
  step E te Ete. step E pe Epe. step E enc Eenc. step E mid Emid.
  step E dec Edec. step E n En. step E c Ec. step E po Epo. done_ok E.
  exists te, pe, enc, mid, dec, n, c, po. repeat split; auto.
Qed.

Lemma UNet_up_blocks (cfg : Config) (u : UNet) :
  UNet_init cfg = Ok u ->
  length (u_up_blocks u)
    = (length (channel_mult cfg) * (num_res_blocks cfg + 1))%nat /\
  forall level i,
    (level < length (channel_mult cfg))%nat -> (i <= num_res_blocks cfg)%nat ->
    exists stage,
      nth_error (u_up_blocks u) (decoder_position cfg level i) = Some stage /\
      has_upsample stage = upsample_here cfg level i.
Proof.
  intros E. apply UNet_init_Ok in E.
  destruct E as (te & pe & enc & mid & dec & n & c & po & _ & _ & _ & _ & Ed
                 & _ & _ & _ & ->). simpl.
  unfold build_up_blocks in Ed. apply up_levels_blocks in Ed.
  destruct Ed as (blks & Hb & Hl & Hn). simpl in Hb. subst blks.
  split; auto.
Qed.

(** C3 (as amended).  In the decoder of a constructed [UNet], the stage
    built for repeat [i] of [level] carries an [Upsample] exactly when [i] is
    the last repeat ([i = num_res_blocks]) and [level] is not level 0, the
    finest resolution, which is visited last; [ds] is halved by exactly
    those iterations.  The stages listed are all the decoder has. *)
Theorem upsample_placement (cfg : Config) (u : UNet) :
  UNet_init cfg = Ok u ->
  length (u_up_blocks u)
    = (length (channel_mult cfg) * (num_res_blocks cfg + 1))%nat /\
  (forall level i,
     (level < length (channel_mult cfg))%nat -> (i <= num_res_blocks cfg)%nat ->
     exists stage,
       nth_error (u_up_blocks u) (decoder_position cfg level i) = Some stage /\
       (has_upsample stage = true <-> level <> O /\ i = num_res_blocks cfg)) /\
  (forall level mult i st st',
     up_res_step cfg level mult i st = Ok st' ->
     (level <> O /\ i = num_res_blocks cfg -> bs_ds st' = bs_ds st / 2) /\
     (~ (level <> O /\ i = num_res_blocks cfg) -> bs_ds st' = bs_ds st)).
Proof.
  intros E. destruct (UNet_up_blocks cfg u E) as (Hlen & Hpos).
  split; [exact Hlen|]. split.
  - intros level i Hl Hi. destruct (Hpos level i Hl Hi) as (stage & Hs & Hu).
    exists stage; split; auto. rewrite Hu. apply upsample_here_spec.
  - intros level mult i st st' Es. apply up_res_step_block in Es.
    destruct Es as (blk & _ & _ & Hds). split; intros Hc.
    + apply upsample_here_spec in Hc. rewrite Hc in Hds; exact Hds.
    + destruct (upsample_here cfg level i) eqn:Hu; auto.
      apply upsample_here_spec in Hu; contradiction.
Qed.

Lemma upsample_placement_witness :
  exists u, UNet_init scenario_config = Ok u /\
            length (u_up_blocks u) = 4%nat /\
            exists stage,
              nth_error (u_up_blocks u) (decoder_position scenario_config 1 1)
                = Some stage /\
              has_upsample stage = true.
Proof.
  destruct (UNet_init scenario_config) as [u|] eqn:E; [|vm_compute in E; discriminate].
  exists u; split; [reflexivity|].
  destruct (upsample_placement scenario_config u E) as (Hlen & Hpos & _).
  split; [exact Hlen|].
  destruct (Hpos 1%nat 1%nat) as (stage & Hs & Hu); [simpl; lia | simpl; lia |].
  exists stage; split; [exact Hs|]. apply Hu; split; [lia | reflexivity].
Defined.

(** C3 as stated fails.  With two stages, level 1 is the coarsest
    resolution and is visited first: its last repeat (position 1) carries an
    [Upsample], while the last repeat of level 0 (position 3), which is not
    the coarsest stage, carries none. *)
Lemma upsample_placement_counterexample :
  exists u, UNet_init scenario_config = Ok u /\
            (length (channel_mult scenario_config) - 1 = 1)%nat /\
            decoder_position scenario_config 1 1 = 1%nat /\
            decoder_position scenario_config 0 1 = 3%nat /\
            option_map has_upsample (nth_error (u_up_blocks u) 1) = Some true /\
            option_map has_upsample (nth_error (u_up_blocks u) 3) = Some false.
Proof.
  destruct (UNet_init scenario_config) as [u|] eqn:E; [|vm_compute in E; discriminate].
  exists u; split; [reflexivity|].
  vm_compute in E. injection E as <-. repeat split.
Qed.

(** ** C4: the skip-connection stack *)

Lemma down_res_loop_lengths (cfg : Config) (mult : Z) (n : nat)
  (st st' : BuildState) :
  for_each (range n) (fun _ s => down_res_step cfg mult s) st = Ok st' ->
  length (bs_blocks st') = (length (bs_blocks st) + n)%nat /\
  length (bs_chans st') = (length (bs_chans st) + n)%nat.
Proof.
  intros E.
  apply (for_each_range_ind
           (fun j s => length (bs_blocks s) = (length (bs_blocks st) + j)%nat /\
                       length (bs_chans s) = (length (bs_chans st) + j)%nat))
    in E; auto.
  intros i s s' _ (Hb & Hc) Es. apply down_res_step_Ok in Es.
  destruct Es as (r & att & _ & _ & ->); simpl.
  rewrite !length_app, Hb, Hc; simpl; lia.
Qed.

(** [1 + len(channel_mult) * num_res_blocks + (len(channel_mult) - 1)] encoder
    stages; the subtraction is the truncated one, so that the count is 1 for
    an empty [channel_mult]. *)
Lemma build_down_blocks_lengths (cfg : Config) (enc : BuildState) :
  build_down_blocks cfg = Ok enc ->
  length (bs_blocks enc)
    = (1 + length (channel_mult cfg) * num_res_blocks cfg
       + (length (channel_mult cfg) - 1))%nat /\
  length (bs_chans enc) = length (bs_blocks enc).
Proof.
  unfold build_down_blocks; intros E. step E c Ec.
  set (L := length (channel_mult cfg)) in *.
  apply (for_each_enumerate_ind
           (fun i s => (i <= L)%nat /\
              length (bs_blocks s)
                = (1 + i * num_res_blocks cfg + Nat.min i (L - 1))%nat /\
              length (bs_chans s) = length (bs_blocks s))) in E.
  - destruct E as (_ & Hb & Hc). split; auto. rewrite Hb. fold L. lia.
  - intros i x s s' Hx (Hi & Hb & Hc) Es.
    assert (i < L)%nat by (apply nth_error_Some; congruence).
    apply down_level_step_Ok in Es. destruct Es as (s1 & E1 & Hd).
    apply down_res_loop_lengths in E1. destruct E1 as (Hb1 & Hc1).
    fold L in Hd.
    destruct Hd as [(Hne & d & _ & ->)|(He & ->)];
      cbn [bs_blocks bs_chans]; rewrite ?length_app; cbn [length];
      split; try lia; split; lia.
  - simpl. repeat split; lia.
Qed.

Lemma last_cons_default {A : Type} (l : list A) (a d d' : A) :
  last (a :: l) d = last (a :: l) d'.
Proof.
  revert a; induction l as [|b l IH]; intros a; [reflexivity|].
  change (last (b :: l) d = last (b :: l) d'). apply IH.
Qed.

Section Stack.

Context {T : Type} {Sem : Semantics T}.
Variables emb pf : T.

(** The encoder pushes the output of each stage, in order, and nothing
    else. *)
Lemma down_loop_pushes (stages : list (nat * TimestepEmbedSequential))
  (x : T) (hs0 : list T) :
  for_each stages (down_step emb pf) (x, hs0)
  = (outs <- encoder_outputs emb pf stages x ;;
     Ok (last outs x, hs0 ++ outs)).
Proof.
  revert x hs0; induction stages as [|(i, m) stages IH]; intros x hs0; simpl.
  - rewrite app_nil_r; reflexivity.
  - destruct (TimestepEmbedSequential_forward (down_blocks i) 0 m x emb (Some pf))
      as [h'|e]; simpl; [|reflexivity].
    rewrite IH.
    destruct (encoder_outputs emb pf stages h') as [outs|e]; simpl; [|reflexivity].
    rewrite <- app_assoc; simpl app.
    destruct outs as [|t outs]; [reflexivity|].
    change (last (h' :: t :: outs) x) with (last (t :: outs) x).
    rewrite (last_cons_default outs t x h'). reflexivity.
Qed.

Lemma encoder_outputs_length (stages : list (nat * TimestepEmbedSequential))
  (x : T) (outs : list T) :
  encoder_outputs emb pf stages x = Ok outs -> length outs = length stages.
Proof.
  revert x outs; induction stages as [|(i, m) stages IH]; intros x outs E;
    simpl in E.
  - done_ok E; subst; reflexivity.
  - step E h' Eh. step E o Eo. done_ok E; subst. simpl; f_equal; eauto.
Qed.

(** The decoder pops the tensors above [base] last pushed first, one per
    stage, and leaves [base] alone. *)
Lemma up_loop_pops (stages : list (nat * TimestepEmbedSequential))
  (skips base : list T) (h : T) :
  length skips = length stages ->
  for_each stages (up_step emb pf) (h, base ++ rev skips)
  = (h' <- decode_with emb pf stages skips h ;; Ok (h', base)).
Proof.
  revert skips h; induction stages as [|(i, m) stages IH];
    intros [|s skips] h Hl; simpl in Hl; try discriminate.
  - simpl. rewrite app_nil_r; reflexivity.
  - simpl. rewrite app_assoc, pop_snoc; simpl.
    destruct (sem_cat h s) as [c|e]; simpl; [|reflexivity].
    destruct (TimestepEmbedSequential_forward (up_blocks i) 0 m c emb (Some pf))
      as [h'|e]; simpl; [|reflexivity].
    apply IH; lia.
Qed.

Lemma up_loop_length (stages : list (nat * TimestepEmbedSequential))
  (h h' : T) (hs hs' : list T) :
  for_each stages (up_step emb pf) (h, hs) = Ok (h', hs') ->
  length hs = (length hs' + length stages)%nat.
Proof.
  revert h hs; induction stages as [|(i, m) stages IH]; intros h hs E;
    simpl in E.
  - injection E as _ <-. simpl; lia.
  - step E st1 E1. unfold up_step in E1. step E1 p Ep. destruct p as (s, r).
    apply pop_Ok_inv in Ep. step E1 c Ec. step E1 h1 Eh. done_ok E1; subst st1.
    apply IH in E. subst hs. rewrite length_app; simpl; lia.
Qed.

End Stack.

(** C4 (as amended).  For a constructed [UNet] whose [num_res_blocks] is
    not negative (a [Config]) and which has at least one multiplier in
    [channel_mult]: the encoder has
    [1 + len(channel_mult)*num_res_blocks + (len(channel_mult)-1)] stages and
    the decoder [len(channel_mult)*(num_res_blocks+1)], the same number; the
    encoder pushes the output of every stage once, in order; the decoder pops
    once per stage, last pushed first, down to the empty stack; and whenever
    the forward pass reaches the output projections the stack, empty at the
    start, is empty again. *)
Theorem skip_stack_balanced (cfg : Config) (u : UNet) :
  UNet_init cfg = Ok u ->
  channel_mult cfg <> [] ->
  let L := length (channel_mult cfg) in
  length (u_down_blocks u) = (1 + L * num_res_blocks cfg + (L - 1))%nat /\
  length (u_up_blocks u) = (L * (num_res_blocks cfg + 1))%nat /\
  length (u_down_blocks u) = length (u_up_blocks u) /\
  (forall (T : Type) (Sem : Semantics T) (emb pf x : T),
     down_stage (u_down_blocks u) emb pf (x, [])
     = (outs <- encoder_outputs emb pf (enumerate (u_down_blocks u)) x ;;
        Ok (last outs x, outs))) /\
  (forall (T : Type) (Sem : Semantics T) (emb pf h : T) (hs : list T),
     length hs = length (u_down_blocks u) ->
     up_stage (u_up_blocks u) emb pf (h, hs)
     = (h' <- decode_with emb pf (enumerate (u_up_blocks u)) (rev hs) h ;;
        Ok (h', []))) /\
  (forall (T : Type) (Sem : Semantics T) (x params timesteps h pf : T)
          (hs : list T),
     UNet_locals u x params timesteps = Ok (h, pf, hs) -> hs = []).
Proof.
  intros E Hne L.
  destruct (UNet_up_blocks cfg u E) as (Hup & _).
  assert (Hdown : length (u_down_blocks u)
                  = (1 + L * num_res_blocks cfg + (L - 1))%nat).
  { apply UNet_init_Ok in E.
    destruct E as (te & pe & enc & mid & dec & n & c & po & _ & _ & Eenc & _ & _
                   & _ & _ & _ & ->). simpl.
    apply build_down_blocks_lengths in Eenc. apply Eenc. }
  assert (HL : (1 <= L)%nat).
  { subst L. destruct (channel_mult cfg); [contradiction | simpl; lia]. }
  assert (Heq : length (u_down_blocks u) = length (u_up_blocks u)).
  { rewrite Hdown, Hup. fold L. nia. }
  repeat split; auto.
  - intros T Sem emb pf x. unfold down_stage. rewrite down_loop_pushes.
    reflexivity.
  - intros T Sem emb pf h hs Hl. unfold up_stage.
    rewrite <- (rev_involutive hs) at 1.
    rewrite <- (app_nil_l (rev (rev hs))).
    apply up_loop_pops. rewrite length_rev, enumerate_length. congruence.
  - intros T Sem x params timesteps h pf hs El. unfold UNet_locals in El.
    step El c Ec. destruct c as (emb, pf0).
    step El d Ed. destruct d as (h1, hs1).
    step El h2 Eh2. step El q Eq. destruct q as (h3, hs3).
    injection El as _ _ <-.
    unfold down_stage in Ed. rewrite down_loop_pushes in Ed.
    step Ed outs Eo. injection Ed as _ <-.
    apply encoder_outputs_length in Eo. rewrite enumerate_length in Eo.
    unfold up_stage in Eq. apply up_loop_length in Eq.
    rewrite enumerate_length in Eq. simpl in Eq.
    destruct hs3; [reflexivity | simpl in Eq; lia].
Qed.

(** ** C9 and the first half of C8: what the outputs depend on *)

Section Dependence.

Context {T : Type} {Sem : Semantics T}.

Lemma UNet_forward_param_out (u : UNet) (x params timesteps io po : T) :
  UNet_forward u x params timesteps = Ok (io, po) ->
  param_path u params timesteps = Ok po.
Proof.
  unfold UNet_forward, UNet_locals, param_path; intros E.
  step E l El. destruct l as ((h, pf), hs).
  step El c Ec. destruct c as (emb, pf0). rewrite Ec; simpl.
  step El d Ed. destruct d as (h1, hs1). step El h2 Eh2.
  step El q Eq. destruct q as (h3, hs3).
  injection El as _ <- _.
  step E io' Eio. step E po' Epo. injection E as _ <-.
  exact Epo.
Qed.

(** C9.  Two forward passes that differ only in the image return the same
    [param_out]: it is the parameter head applied to the parameter
    features, which are computed from [params] and [timesteps] alone. *)
Theorem param_out_ignores_image (u : UNet)
  (x1 x2 params timesteps io1 po1 io2 po2 : T) :
  UNet_forward u x1 params timesteps = Ok (io1, po1) ->
  UNet_forward u x2 params timesteps = Ok (io2, po2) ->
  po1 = po2 /\ param_path u params timesteps = Ok po1.
Proof.
  intros E1 E2. apply UNet_forward_param_out in E1, E2.
  split; [congruence | exact E1].
Qed.


End Dependence.

(** ** C5: [timestep_embedding] *)

Section TimestepEmbeddingFacts.

Context {F : Type} {ops : FloatOps F}.

Lemma cat_cols_map {A : Type} (f g : A -> list F) (l : list A) :
  cat_cols (map f l) (map g l) = map (fun x => f x ++ g x) l.
Proof.
  unfold cat_cols. induction l as [|x l IH]; simpl; [reflexivity|].
  f_equal; exact IH.
Qed.

Lemma upto_length (n : Z) : 0 <= n -> Z.of_nat (length (upto n)) = n.
Proof. intros Hn; unfold upto; rewrite length_map, length_seq; lia. Qed.

Lemma arange_Ok (n : Z) : 0 <= n -> arange n = Ok (upto n).
Proof. intros Hn; unfold arange. destruct (Z.ltb_spec n 0); [lia | reflexivity]. Qed.

Lemma upto_pos (n : Z) :
  0 < n -> upto n = 0 :: map Z.of_nat (seq 1 (Z.to_nat n - 1)).
Proof.
  intros Hn; unfold upto.
  destruct (Z.to_nat n) as [|k] eqn:E; [lia|]. simpl.
  rewrite Nat.sub_0_r; reflexivity.
Qed.

(** Every row of the result is the row of the docstring, except for
    [dim = 1] (and negative [dim]). *)
Lemma timestep_embedding_rows (timesteps : list F) (dim : Z)
  (max_period lg : F) :
  math_log max_period = Ok lg ->
  0 <= dim -> dim <> 1 ->
  timestep_embedding timesteps dim max_period
  = Ok (map (embedding_row lg dim) timesteps) /\
  forall t, Z.of_nat (length (embedding_row lg dim t)) = dim.
Proof.
  intros Hlg Hd H1.
  assert (Hhalf : 0 <= dim / 2) by (apply Z.div_pos; lia).
  unfold timestep_embedding. rewrite Hlg; simpl.
  rewrite (arange_Ok _ Hhalf); simpl.
  unfold outer. rewrite !map_map.
  rewrite (cat_cols_map
             (fun t => map f_cos (map (fun f => f_mul t f)
                                    (map (freq lg (dim / 2)) (upto (dim / 2)))))
             (fun t => map f_sin (map (fun f => f_mul t f)
                                    (map (freq lg (dim / 2)) (upto (dim / 2)))))).
  split.
  - destruct (dim mod 2 =? 0) eqn:Hb; simpl.
    + f_equal. apply map_ext; intros t. unfold embedding_row.
      rewrite Hb, !map_map, app_nil_r. reflexivity.
    + apply Z.eqb_neq in Hb as Ho.
      f_equal. unfold zeros_like, slice_cols. rewrite !map_map.
      rewrite cat_cols_map.
      apply map_ext; intros t. unfold embedding_row.
      rewrite Hb, !map_map, <- app_assoc. do 2 f_equal.
      assert (Hpos : 0 < dim / 2).
      { assert (dim = 2 * (dim / 2) + dim mod 2) by (apply Z.div_mod; lia).
        assert (0 <= dim mod 2 < 2) by (apply Z.mod_pos_bound; lia). lia. }
      rewrite (upto_pos _ Hpos). reflexivity.
  - intros t. unfold embedding_row.
    rewrite !length_app, !length_map.
    assert (Hl := upto_length _ Hhalf).
    assert (dim = 2 * (dim / 2) + dim mod 2) by (apply Z.div_mod; lia).
    assert (0 <= dim mod 2 < 2) by (apply Z.mod_pos_bound; lia).
    destruct (Z.eqb_spec (dim mod 2) 0); simpl length; lia.
Qed.

(** For [dim = 1] the sliced tensor [embedding[:, :1]] has no column, so
    nothing is appended. *)
Lemma timestep_embedding_dim1 (timesteps : list F) (max_period lg : F) :
  math_log max_period = Ok lg ->
  timestep_embedding timesteps 1 max_period = Ok (map (fun _ => []) timesteps).
Proof.
  intros Hlg. unfold timestep_embedding. rewrite Hlg; simpl.
  f_equal. unfold cat_cols, zeros_like, slice_cols, outer.
  induction timesteps as [|t ts IH]; simpl; [reflexivity|].
  f_equal; exact IH.
Qed.

End TimestepEmbeddingFacts.

Lemma math_log_10000 : math_log 10000%R = Ok (ln 10000).
Proof. simpl. destruct (Rlt_dec 0 10000) as [_|Hn]; [reflexivity | exfalso; lra]. Qed.

(** C5, at the input where the code departs from it.  For one timestep and
    [dim = 1] the function returns one row with no column, a [1 x 0] tensor,
    where its docstring and the specification announce [N x dim]: the row
    made of the (zero) cosines, the (zero) sines and one zero. *)
Theorem timestep_embedding_dim1_has_no_column :
  timestep_embedding [0%R] 1 10000%R = Ok [[]] /\
  Shape.timestep_embedding [1] 1 = Ok [1; 0] /\
  embedding_row (ln 10000) 1 0%R = [0%R].
Proof.
  split; [|split].
  - exact (timestep_embedding_dim1 [0%R] 10000%R (ln 10000) math_log_10000).
  - reflexivity.
  - reflexivity.
Qed.

(** ** C6: the attention weights of the cross-modal block *)

Module CrossAttentionFacts.

Import CrossAttention.
Local Open Scope R_scope.

Lemma sum_upto_div (n : nat) (f : nat -> R) (c : R) :
  sum_upto n (fun t => f t / c) = sum_upto n f / c.
Proof.
  induction n as [|n IH]; simpl; [unfold Rdiv; ring|].
  rewrite IH; unfold Rdiv; ring.
Qed.

Lemma sum_upto_pos (n : nat) (f : nat -> R) :
  (0 < n)%nat -> (forall t, 0 < f t) -> 0 < sum_upto n f.
Proof.
  intros Hn Hf. destruct n as [|n]; [lia|]. clear Hn.
  induction n as [|n IH]; simpl in *.
  - specialize (Hf O); lra.
  - specialize (Hf (S n)); lra.
Qed.

Lemma softmax_dim1_sums_to_1 (Td : nat) (attn : tensor3) (b s : nat) :
  (0 < Td)%nat -> sum_upto Td (fun t => softmax_dim1 Td attn b t s) = 1.
Proof.
  intros HT. unfold softmax_dim1.
  rewrite (sum_upto_div Td (fun t => exp (attn b t s))).
  apply Rdiv_diag. apply Rgt_not_eq, Rlt_gt.
  apply sum_upto_pos; auto. intros t; apply exp_pos.
Qed.

End CrossAttentionFacts.



(** ** Shapes: the PyTorch operations *)

Module TorchFacts.

Import torch.

Lemma shape_eqb_refl (s : shape) : shape_eqb s s = true.
Proof. induction s as [|x s IH]; simpl; [|rewrite Z.eqb_refl]; auto. Qed.

Lemma bdim_same (x : Z) : bdim x x = Ok x.
Proof. unfold bdim; rewrite Z.eqb_refl; reflexivity. Qed.

Lemma bdim_1_r (x : Z) : bdim x 1 = Ok x.
Proof.
  unfold bdim. destruct (Z.eqb_spec x 1); [reflexivity|]. reflexivity.
Qed.

Lemma bdim_1_l (x : Z) : bdim 1 x = Ok x.
Proof.
  unfold bdim. destruct (Z.eqb_spec 1 x) as [<-|]; reflexivity.
Qed.

Lemma broadcast_rev_same (s : shape) : broadcast_rev s s = Ok s.
Proof.
  induction s as [|x s IH]; simpl; [reflexivity|].
  rewrite bdim_same; simpl. rewrite IH; reflexivity.
Qed.

Lemma broadcast_same (s : shape) : broadcast s s = Ok s.
Proof.
  unfold broadcast. rewrite broadcast_rev_same; simpl.
  rewrite rev_involutive; reflexivity.
Qed.

(** [h += e[:, :, None, None]] *)
Lemma iadd_channel_bias (n c h w : Z) :
  iadd [n; c; h; w] [n; c; 1; 1] = Ok [n; c; h; w].
Proof.
  unfold iadd, broadcast; simpl.
  rewrite !bdim_1_r, !bdim_same; simpl.
  rewrite !Z.eqb_refl; reflexivity.
Qed.

Lemma numel_app (a b : shape) : numel (a ++ b) = numel a * numel b.
Proof.
  unfold numel. induction a as [|x a IH]; simpl fold_right.
  - destruct (fold_right Z.mul 1 b); reflexivity.
  - rewrite IH. ring.
Qed.

Lemma numel_pos (a : shape) : Forall (fun d => 0 < d) a -> 0 < numel a.
Proof.
  unfold numel. induction 1 as [|x a Hx _ IH]; simpl fold_right; [lia|nia].
Qed.

Section Reshape.

Let keep (d : Z) : bool := negb (d =? -1).
Let hole (d : Z) : bool := d =? -1.
Let bad (d : Z) : bool := d <? -1.

Lemma filter_positive (a : shape) :
  Forall (fun d => 0 < d) a ->
  filter keep a = a /\ filter hole a = [] /\ existsb bad a = false.
Proof.
  induction 1 as [|x a Hx _ (IH1 & IH2 & IH3)]; simpl; auto.
  unfold keep, hole, bad in *.
  destruct (Z.eqb_spec x (-1)); [lia|].
  destruct (Z.ltb_spec x (-1)); [lia|]. simpl.
  rewrite IH1, IH2, IH3; auto.
Qed.

(** A target without [-1]. *)
Lemma reshape_exact (x target : shape) :
  Forall (fun d => 0 < d) target -> numel x = numel target ->
  reshape x target = Ok target.
Proof.
  intros Hp Hn. destruct (filter_positive _ Hp) as (H1 & H2 & H3).
  unfold reshape. fold keep hole bad. rewrite H1, H2, H3; simpl.
  rewrite Hn, Z.eqb_refl; reflexivity.
Qed.

(** A target with one [-1], which stands for [m]. *)
Lemma reshape_infer (x pre post : shape) (m : Z) :
  Forall (fun d => 0 < d) pre -> Forall (fun d => 0 < d) post ->
  numel x = numel pre * m * numel post ->
  reshape x (pre ++ -1 :: post) = Ok (pre ++ m :: post).
Proof.
  intros Hpre Hpost Hn.
  destruct (filter_positive _ Hpre) as (A1 & A2 & A3).
  destruct (filter_positive _ Hpost) as (B1 & B2 & B3).
  assert (Hk : numel (pre ++ post) = numel pre * numel post)
    by apply numel_app.
  assert (Hpp : 0 < numel pre * numel post).
  { apply Z.mul_pos_pos; apply numel_pos; assumption. }
  unfold reshape. fold keep hole bad.
  rewrite !filter_app, existsb_app; simpl.
  change (keep (-1)) with false; change (hole (-1)) with true;
    change (bad (-1)) with false.
  rewrite A1, A2, A3, B1, B2, B3; simpl. rewrite Hk.
  destruct (Z.eqb_spec (numel pre * numel post) 0); [lia|].
  replace (numel x) with (m * (numel pre * numel post)) by (rewrite Hn; ring).
  rewrite Z.mod_mul by lia. simpl.
  rewrite Z.div_mul by lia.
  f_equal. rewrite map_app; simpl.
  assert (Hid : forall l, Forall (fun d => 0 < d) l ->
            map (fun d => if d =? -1 then m else d) l = l).
  { induction 1 as [|y l Hy _ IH]; simpl; [reflexivity|].
    destruct (Z.eqb_spec y (-1)); [lia|]. rewrite IH; reflexivity. }
  rewrite (Hid pre Hpre), (Hid post Hpost). reflexivity.
Qed.

End Reshape.

(** [n] equal pieces of [k] columns. *)
Lemma chunk_even (b k n : Z) (rest : shape) :
  0 < n -> 0 < k ->
  chunk (b :: n * k :: rest) n = Ok (repeat (b :: k :: rest) (Z.to_nat n)).
Proof.
  intros Hn Hk. unfold chunk.
  destruct (Z.leb_spec n 0); [lia|].
  assert (Hs : (n * k + n - 1) / n = k).
  { replace (n * k + n - 1) with (k * n + (n - 1)) by ring.
    rewrite Z.div_add_l by lia. rewrite Z.div_small by lia. lia. }
  rewrite Hs. destruct (Z.eqb_spec k 0); [lia|].
  rewrite Z.div_mul, Z.mod_mul by lia.
  simpl. rewrite app_nil_r. reflexivity.
Qed.

Ltac window_tac :=
  unfold window_out;
  match goal with
  | |- context [?a <? ?b] => destruct (Z.ltb_spec a b); [lia|]
  end;
  match goal with
  | |- context [?a <=? ?b] => destruct (Z.leb_spec a b); [lia|]
  end;
  cbn [orb]; f_equal; Z.to_euclidean_division_equations; lia.

Lemma window_same_3 (h : Z) : 1 <= h -> window_out h 3 1 1 = Ok h.
Proof. intros Hh. window_tac. Qed.

Lemma window_same_1 (h : Z) : 1 <= h -> window_out h 1 1 0 = Ok h.
Proof. intros Hh. window_tac. Qed.

Lemma window_half_conv (h : Z) : 1 <= h -> window_out (2 * h) 3 2 1 = Ok h.
Proof. intros Hh. window_tac. Qed.

Lemma window_half_pool (h : Z) : 1 <= h -> window_out (2 * h) 2 2 0 = Ok h.
Proof. intros Hh. window_tac. Qed.

Lemma conv2d_3x3 (cin cout n h w : Z) (b : bool) :
  1 <= h -> 1 <= w ->
  conv2d (nn.mkConv2d cin cout 3 1 1 b) [n; cin; h; w] = Ok [n; cout; h; w].
Proof.
  intros Hh Hw. unfold conv2d; simpl. rewrite Z.eqb_refl.
  rewrite !window_same_3 by assumption. reflexivity.
Qed.

Lemma conv2d_1x1 (cin cout n h w : Z) (b : bool) :
  1 <= h -> 1 <= w ->
  conv2d (nn.mkConv2d cin cout 1 1 0 b) [n; cin; h; w] = Ok [n; cout; h; w].
Proof.
  intros Hh Hw. unfold conv2d; simpl. rewrite Z.eqb_refl.
  rewrite !window_same_1 by assumption. reflexivity.
Qed.


Lemma conv2d_stride2 (c n h w : Z) (b : bool) :
  1 <= h -> 1 <= w ->
  conv2d (nn.mkConv2d c c 3 2 1 b) [n; c; 2 * h; 2 * w] = Ok [n; c; h; w].
Proof.
  intros Hh Hw. unfold conv2d; simpl nn.in_channels; cbn [nn.kernel_size
    nn.stride nn.padding nn.out_channels]. rewrite Z.eqb_refl.
  rewrite !window_half_conv by assumption. reflexivity.
Qed.

Lemma avg_pool2d_half (n c h w : Z) :
  1 <= h -> 1 <= w ->
  avg_pool2d (nn.mkAvgPool2d 2 2) [n; c; 2 * h; 2 * w] = Ok [n; c; h; w].
Proof.
  intros Hh Hw. unfold avg_pool2d; cbn [nn.pool_kernel nn.pool_stride].
  rewrite !window_half_pool by assumption. reflexivity.
Qed.

(** More than one value per group: [c] is a multiple of 32 and the batch
    holds more than one position. *)
Lemma several_values_per_group (n c h w : Z) :
  c mod 32 = 0 -> 0 <= c -> 0 < n -> 1 <= h -> 1 <= w -> 1 < n * (h * w) ->
  n * c / 32 * (h * w) <> 1.
Proof.
  intros Hm Hc Hn Hh Hw Hnhw.
  assert (Hk : c = 32 * (c / 32)) by (apply Z_div_exact_2; lia).
  assert (Hq : 0 <= c / 32) by (apply Z.div_pos; lia).
  set (q := c / 32) in *. rewrite Hk.
  replace (n * (32 * q)) with (n * q * 32) by ring.
  rewrite Z.div_mul by lia.
  destruct (Z.eq_dec q 0) as [->|Hq0]; [lia|].
  assert (Hge : n * (h * w) <= n * q * (h * w)).
  { replace (n * q * (h * w)) with (q * (n * (h * w))) by ring.
    assert (0 < n * (h * w)) by lia. nia. }
  lia.
Qed.

(** The three outcomes of a [GroupNorm(32, c)] on an image batch. *)
Lemma group_norm_32_cases (n c c' h w : Z) :
  c mod 32 = 0 ->
  group_norm (nn.mkGroupNorm 32 c) [n; c'; h; w]
  = if n * c' / 32 * (h * w) =? 1 then Raise ValueError
    else if c' =? c then Ok [n; c'; h; w] else Raise RuntimeError.
Proof.
  intros Hm. unfold group_norm. cbn [nn.num_groups nn.num_channels].
  replace (numel [h; w]) with (h * w) by (unfold numel; simpl; ring).
  destruct (n * c' / 32 * (h * w) =? 1); [reflexivity|].
  destruct (Z.eqb_spec c' c) as [->|_]; [|reflexivity].
  rewrite Hm. reflexivity.
Qed.

Lemma group_norm_32_exact (n c h w : Z) :
  c mod 32 = 0 -> n * c / 32 * (h * w) <> 1 ->
  group_norm (nn.mkGroupNorm 32 c) [n; c; h; w] = Ok [n; c; h; w].
Proof.
  intros Hm Hne. rewrite group_norm_32_cases by assumption.
  destruct (Z.eqb_spec (n * c / 32 * (h * w)) 1); [contradiction|].
  rewrite Z.eqb_refl. reflexivity.
Qed.

Lemma group_norm_32 (n c h w : Z) :
  c mod 32 = 0 -> 0 <= c -> 0 < n -> 1 <= h -> 1 <= w -> 1 < n * (h * w) ->
  group_norm (nn.mkGroupNorm 32 c) [n; c; h; w] = Ok [n; c; h; w].
Proof.
  intros Hm Hc Hn Hh Hw Hnhw. apply group_norm_32_exact; [assumption|].
  apply several_values_per_group; assumption.
Qed.

Lemma linear_2d (fin fout n : Z) :
  linear (nn.mkLinear fin fout) [n; fin] = Ok [n; fout].
Proof. unfold linear; simpl. rewrite Z.eqb_refl. reflexivity. Qed.

Lemma layer_norm_2d (d n : Z) :
  layer_norm (nn.mkLayerNorm d) [n; d] = Ok [n; d].
Proof. unfold layer_norm; simpl. rewrite Z.eqb_refl. reflexivity. Qed.

End TorchFacts.

(** ** Shapes: the blocks *)

Module BlockFacts.

Import TorchFacts.

#[local] Arguments torch.group_norm : simpl never.
#[local] Arguments torch.layer_norm : simpl never.
#[local] Arguments torch.conv2d : simpl never.
#[local] Arguments torch.avg_pool2d : simpl never.
#[local] Arguments torch.linear : simpl never.
#[local] Arguments torch.iadd : simpl never.
#[local] Arguments torch.broadcast : simpl never.
#[local] Arguments torch.reshape : simpl never.
#[local] Arguments torch.chunk : simpl never.
#[local] Arguments torch.einsum_bct_bcs_bts : simpl never.
#[local] Arguments torch.einsum_bts_bcs_bct : simpl never.
#[local] Arguments torch.softmax : simpl never.
#[local] Arguments torch.cat_last : simpl never.
#[local] Arguments Z.mul : simpl never.
#[local] Arguments Z.add : simpl never.
#[local] Arguments Z.div : simpl never.
#[local] Arguments Z.modulo : simpl never.
#[local] Arguments Z.eqb : simpl never.

Lemma reshape_heads (x : shape) (a m b : Z) :
  0 < a -> 0 < b -> torch.numel x = a * m * b ->
  torch.reshape x [a; -1; b] = Ok [a; m; b].
Proof.
  intros Ha Hb Hn.
  apply (reshape_infer x [a] [b] m); auto.
  unfold torch.numel in *; simpl. rewrite Hn; ring.
Qed.

Lemma reshape_unheads (x : shape) (a m b c : Z) :
  0 < a -> 0 < b -> 0 < c -> torch.numel x = a * m * b * c ->
  torch.reshape x [a; -1; b; c] = Ok [a; m; b; c].
Proof.
  intros Ha Hb Hc Hn.
  apply (reshape_infer x [a] [b; c] m); auto.
  unfold torch.numel in *; simpl. rewrite Hn; ring.
Qed.

Lemma chunk_3 (b k t : Z) :
  0 < k ->
  torch.chunk [b; 3 * k; t] 3 = Ok [[b; k; t]; [b; k; t]; [b; k; t]].
Proof. intros Hk. apply (chunk_even b k 3 [t]); lia. Qed.

Lemma chunk_2 (b k : Z) :
  0 < k -> torch.chunk [b; k * 2] 2 = Ok [[b; k]; [b; k]].
Proof.
  intros Hk. rewrite (Z.mul_comm k 2). apply (chunk_even b k 2 []); lia.
Qed.

Lemma einsum_qk (b c t s : Z) :
  torch.einsum_bct_bcs_bts [b; c; t] [b; c; s] = Ok [b; t; s].
Proof.
  unfold torch.einsum_bct_bcs_bts. rewrite !bdim_same. reflexivity.
Qed.

Lemma einsum_av (b c t s : Z) :
  torch.einsum_bts_bcs_bct [b; t; s] [b; c; s] = Ok [b; c; t].
Proof.
  unfold torch.einsum_bts_bcs_bct. rewrite !bdim_same. reflexivity.
Qed.

Lemma attention_scale_Ok (nh k : Z) :
  0 < nh -> 0 < k -> Shape.attention_scale (nh * k) nh = Ok tt.
Proof.
  intros Hn Hk. unfold Shape.attention_scale, py_floordiv.
  destruct (Z.eqb_spec nh 0); [lia|]. simpl.
  rewrite (Z.mul_comm nh k), Z.div_mul by lia.
  destruct (Z.ltb_spec k 0); [lia|]. destruct (Z.eqb_spec k 0); [lia|].
  reflexivity.
Qed.

Lemma divisible_by_heads (c nh : Z) :
  0 < c -> 0 < nh -> c mod nh = 0 -> exists k, c = nh * k /\ 0 < k.
Proof.
  intros Hc Hn Hm. exists (c / nh).
  assert (c = nh * (c / nh)) by (apply Z_div_exact_2; lia). split; [auto|nia].
Qed.

Lemma ResidualBlock_shape (cin cout tc n h w : Z) (dr : Q) (r : ResidualBlock) :
  ResidualBlock_init cin cout tc dr = Ok r ->
  0 < n -> 1 <= h -> 1 <= w -> 1 < n * (h * w) ->
  Shape.ResidualBlock_forward r [n; cin; h; w] [n; tc] = Ok [n; cout; h; w].
Proof.
  intros E Hn Hh Hw Hnhw. apply ResidualBlock_init_Ok in E.
  destruct E as (Hci & Hco & Hci0 & Hco0 & d & ->).
  unfold Shape.ResidualBlock_forward, Shape.Sequential_forward; simpl.
  rewrite group_norm_32 by assumption; simpl.
  rewrite conv2d_3x3 by assumption; simpl.
  rewrite linear_2d; simpl. rewrite iadd_channel_bias; simpl.
  rewrite group_norm_32 by assumption; simpl.
  rewrite conv2d_3x3 by assumption; simpl.
  destruct (Z.eqb_spec cin cout) as [->|Hne]; simpl.
  - apply broadcast_same.
  - rewrite conv2d_1x1 by assumption; simpl. apply broadcast_same.
Qed.

Lemma AttentionBlock_shape_exact (c nh n h w : Z) (a : AttentionBlock) :
  AttentionBlock_init c nh = Ok a ->
  0 < c -> 0 < nh -> 0 < n -> 1 <= h -> 1 <= w ->
  n * c / 32 * (h * w) <> 1 ->
  Shape.AttentionBlock_forward a [n; c; h; w] = Ok [n; c; h; w].
Proof.
  intros E Hc Hnh Hn Hh Hw Hnhw. apply AttentionBlock_init_Ok in E.
  destruct E as (_ & Hm & Hm32 & _ & ->).
  destruct (divisible_by_heads c nh Hc Hnh Hm) as (k & Hck & Hk).
  unfold Shape.AttentionBlock_forward; simpl.
  rewrite group_norm_32_exact by assumption; simpl.
  rewrite conv2d_1x1 by assumption; simpl.
  rewrite (reshape_heads [n; c * 3; h; w] (n * nh) (3 * k) (h * w))
    by (try nia; unfold torch.numel; simpl; subst c; ring).
  simpl. rewrite chunk_3 by assumption; simpl.
  rewrite Hck at 1. rewrite attention_scale_Ok by assumption; simpl.
  rewrite einsum_qk; simpl.
  change (torch.softmax [n * nh; h * w; h * w] (-1))
    with (Ok [n * nh; h * w; h * w]); simpl.
  rewrite einsum_av; simpl.
  rewrite (reshape_unheads [n * nh; k; h * w] n c h w)
    by (try lia; unfold torch.numel; simpl; subst c; ring).
  simpl. rewrite conv2d_1x1 by assumption; simpl. apply broadcast_same.
Qed.

Lemma AttentionBlock_shape (c nh n h w : Z) (a : AttentionBlock) :
  AttentionBlock_init c nh = Ok a ->
  0 < c -> 0 < nh -> 0 < n -> 1 <= h -> 1 <= w -> 1 < n * (h * w) ->
  Shape.AttentionBlock_forward a [n; c; h; w] = Ok [n; c; h; w].
Proof.
  intros E Hc Hnh Hn Hh Hw Hnhw.
  apply AttentionBlock_shape_exact with (nh := nh); try assumption.
  apply AttentionBlock_init_Ok in E. destruct E as (_ & _ & Hm32 & _).
  apply several_values_per_group; (assumption || lia).
Qed.

Lemma CrossModalAttentionBlock_shape_exact (c pd nh n h w : Z)
  (a : CrossModalAttentionBlock) :
  CrossModalAttentionBlock_init c pd nh = Ok a ->
  0 < c -> 0 < nh -> 0 < n -> 1 <= h -> 1 <= w ->
  n * c / 32 * (h * w) <> 1 ->
  Shape.CrossModalAttentionBlock_forward a [n; c; h; w] [n; pd]
  = Ok [n; c; h; w].
Proof.
  intros E Hc Hnh Hn Hh Hw Hnhw. apply CrossModalAttentionBlock_init_Ok in E.
  destruct E as (_ & Hm & Hm32 & _ & ->).
  destruct (divisible_by_heads c nh Hc Hnh Hm) as (k & Hck & Hk).
  assert (Hdiv : py_floordiv c nh = Ok k).
  { unfold py_floordiv. destruct (Z.eqb_spec nh 0); [lia|].
    rewrite Hck, (Z.mul_comm nh k), Z.div_mul by lia. reflexivity. }
  unfold Shape.CrossModalAttentionBlock_forward; simpl.
  rewrite group_norm_32_exact by assumption; simpl.
  rewrite conv2d_1x1 by assumption; simpl.
  rewrite Hdiv; simpl.
  rewrite (reshape_exact [n; c; h; w] [n * nh; k; h * w])
    by (try (unfold torch.numel; simpl; subst c; ring);
        repeat constructor; nia).
  simpl. rewrite layer_norm_2d; simpl. rewrite linear_2d; simpl.
  rewrite chunk_2 by assumption; simpl.
  change (torch.unsqueeze_last [n; c]) with [n; c; 1].
  rewrite (reshape_exact [n; c; 1] [n * nh; k; 1])
    by (try (unfold torch.numel; simpl; subst c; ring);
        repeat constructor; nia).
  simpl. rewrite Hck at 1. rewrite attention_scale_Ok by assumption; simpl.
  rewrite einsum_qk; simpl.
  change (torch.softmax [n * nh; h * w; 1] 1) with (Ok [n * nh; h * w; 1]);
    simpl.
  rewrite einsum_av; simpl.
  rewrite (reshape_exact [n * nh; k; h * w] [n; c; h; w])
    by (try (unfold torch.numel; simpl; subst c; ring);
        repeat constructor; nia).
  simpl. rewrite conv2d_1x1 by assumption; simpl. apply broadcast_same.
Qed.

Lemma CrossModalAttentionBlock_shape (c pd nh n h w : Z)
  (a : CrossModalAttentionBlock) :
  CrossModalAttentionBlock_init c pd nh = Ok a ->
  0 < c -> 0 < nh -> 0 < n -> 1 <= h -> 1 <= w -> 1 < n * (h * w) ->
  Shape.CrossModalAttentionBlock_forward a [n; c; h; w] [n; pd]
  = Ok [n; c; h; w].
Proof.
  intros E Hc Hnh Hn Hh Hw Hnhw.
  apply CrossModalAttentionBlock_shape_exact with (nh := nh); try assumption.
  apply CrossModalAttentionBlock_init_Ok in E.
  destruct E as (_ & _ & Hm32 & _).
  apply several_values_per_group; (assumption || lia).
Qed.

Lemma Downsample_shape (c n h w : Z) (b : bool) (d : Downsample) :
  Downsample_init c b = Ok d ->
  1 <= h -> 1 <= w ->
  Shape.Downsample_forward d [n; c; 2 * h; 2 * w] = Ok [n; c; h; w].
Proof.
  intros E Hh Hw. unfold Downsample_init in E. destruct b.
  - step E cv Ecv. done_ok E; subst d.
    apply Conv2d_init_Ok in Ecv; subst cv.
    unfold Shape.Downsample_forward; simpl. apply conv2d_stride2; assumption.
  - done_ok E; subst d.
    unfold Shape.Downsample_forward; simpl. apply avg_pool2d_half; assumption.
Qed.

Lemma Upsample_shape (c n h w : Z) (b : bool) (u : Upsample) :
  Upsample_init c b = Ok u ->
  1 <= h -> 1 <= w ->
  Shape.Upsample_forward u [n; c; h; w] = Ok [n; c; 2 * h; 2 * w].
Proof.
  intros E Hh Hw. unfold Upsample_init in E. destruct b.
  - step E cv Ecv. done_ok E; subst u.
    apply Conv2d_init_Ok in Ecv; subst cv.
    unfold Shape.Upsample_forward; simpl. apply conv2d_3x3; lia.
  - done_ok E; subst u. reflexivity.
Qed.

Lemma ParameterEncoder_shape (pd hd od td n : Z) (pe : ParameterEncoder) :
  ParameterEncoder_init pd hd od td = Ok pe ->
  Shape.ParameterEncoder_forward pe [n; pd] [n; td] = Ok [n; od].
Proof.
  unfold ParameterEncoder_init; intros E.
  step E t1 Et1. step E t2 Et2. step E ip Eip. step E ls Els.
  step E op Eop. done_ok E; subst pe.
  apply Linear_init_Ok in Et1, Et2, Eip, Eop; subst.
  simpl in Els. step Els l1 El1. step El1 a1 Ea1. step El1 b1 Eb1.
  done_ok El1; subst l1. step Els l2 El2. step El2 a2 Ea2. step El2 b2 Eb2.
  done_ok El2; subst l2. done_ok Els; subst ls.
  apply Linear_init_Ok in Ea1, Eb1, Ea2, Eb2; subst.
  unfold Shape.ParameterEncoder_forward, Shape.Sequential_forward; simpl.
  repeat (first [rewrite linear_2d | rewrite broadcast_same]; simpl).
  reflexivity.
Qed.

Lemma timestep_embedding_shape (n dim : Z) :
  0 < dim -> dim mod 2 = 0 -> Shape.timestep_embedding [n] dim = Ok [n; dim].
Proof.
  intros Hd He. unfold Shape.timestep_embedding; simpl.
  assert (Hdim : dim = 2 * (dim / 2)) by (apply Z_div_exact_2; lia).
  assert (Hhalf : 0 < dim / 2) by lia.
  unfold torch.arange. destruct (Z.ltb_spec (dim / 2) 0); [lia|]. simpl.
  unfold torch.broadcast; simpl. rewrite bdim_1_l, bdim_1_r; simpl.
  unfold torch.cat_last; simpl. rewrite Z.eqb_refl; simpl.
  rewrite He; simpl. do 3 f_equal. lia.
Qed.

Lemma time_embed_shape (cfg : Config) (te : nn.Sequential) (n : Z) :
  build_time_embed cfg = Ok te ->
  Shape.Sequential_forward te [n; model_channels cfg]
  = Ok [n; time_embed_dim cfg].
Proof.
  unfold build_time_embed; intros E. step E l1 E1. step E l2 E2.
  done_ok E; subst te. apply Linear_init_Ok in E1, E2; subst.
  unfold Shape.Sequential_forward; simpl.
  repeat (rewrite linear_2d; simpl). reflexivity.
Qed.

(** *** Arithmetic of the resolution levels *)

Lemma pow2_pos (k : nat) : 0 < 2 ^ Z.of_nat k.
Proof. apply Z.pow_pos_nonneg; lia. Qed.

Lemma pow2_S (k : nat) : 2 ^ Z.of_nat (S k) = 2 * 2 ^ Z.of_nat k.
Proof. rewrite Nat2Z.inj_succ, Z.pow_succ_r by lia. reflexivity. Qed.

Lemma pow2_divide (k D : nat) (H : Z) :
  (k <= D)%nat -> (2 ^ Z.of_nat D | H) -> (2 ^ Z.of_nat k | H).
Proof.
  intros Hk (q & ->). exists (q * 2 ^ Z.of_nat (D - k)).
  rewrite <- Z.mul_assoc, <- Z.pow_add_r by lia. do 2 f_equal. lia.
Qed.

Lemma level_extent_pos (k D : nat) (H : Z) :
  0 < H -> (k <= D)%nat -> (2 ^ Z.of_nat D | H) -> 1 <= H / 2 ^ Z.of_nat k.
Proof.
  intros HH Hk Hd. destruct (pow2_divide k D H Hk Hd) as (q & ->).
  assert (Hp := pow2_pos k). rewrite Z.div_mul by lia. nia.
Qed.

Lemma level_extent_double (k D : nat) (H : Z) :
  (S k <= D)%nat -> (2 ^ Z.of_nat D | H) ->
  H / 2 ^ Z.of_nat k = 2 * (H / 2 ^ Z.of_nat (S k)).
Proof.
  intros Hk Hd. destruct (pow2_divide (S k) D H Hk Hd) as (q & ->).
  assert (Hp := pow2_pos k). rewrite Z.div_mul by (rewrite pow2_S; lia).
  rewrite pow2_S. replace (q * (2 * 2 ^ Z.of_nat k))
    with (2 * q * 2 ^ Z.of_nat k) by ring.
  rewrite Z.div_mul by lia. reflexivity.
Qed.

Lemma feature_map_0 (N H W c : Z) : feature_map N H W c 0 = [N; c; H; W].
Proof. unfold feature_map; simpl. rewrite !Z.div_1_r. reflexivity. Qed.

(** *** The list of skip levels *)

Lemma repeat_snoc {A : Type} (x : A) (n : nat) :
  repeat x (S n) = repeat x n ++ [x].
Proof. induction n as [|n IH]; simpl in *; [reflexivity|]. f_equal; exact IH. Qed.

Lemma skip_levels_snoc (nrb k j : nat) :
  skip_levels nrb k (S j) = skip_levels nrb k j ++ [k].
Proof. unfold skip_levels. rewrite repeat_snoc, app_assoc. reflexivity. Qed.

Lemma skip_levels_full (nrb k : nat) :
  skip_levels nrb k (nrb + 1) = skip_levels nrb (S k) 0.
Proof.
  unfold skip_levels. rewrite seq_S, flat_map_app; simpl.
  rewrite !app_nil_r. reflexivity.
Qed.

Lemma skip_levels_length (nrb k j : nat) :
  length (skip_levels nrb k j) = (k * (nrb + 1) + j)%nat.
Proof.
  unfold skip_levels. rewrite length_app, repeat_length. f_equal.
  induction k as [|k IH]; [reflexivity|].
  rewrite seq_S, flat_map_app, length_app, IH; simpl.
  rewrite app_nil_r, repeat_length. lia.
Qed.

Lemma skip_shapes_snoc (N H W : Z) (chans : list Z) (levels : list nat)
  (c : Z) (k : nat) :
  length chans = length levels ->
  skip_shapes N H W (chans ++ [c]) (levels ++ [k])
  = skip_shapes N H W chans levels ++ [feature_map N H W c k].
Proof.
  intros Hl. unfold skip_shapes.
  rewrite combine_app_same by assumption. rewrite map_app. reflexivity.
Qed.

(** *** Running stage lists *)

Lemma bind_Ok_r {A : Type} (m : result A) : (x <- m ;; Ok x) = m.
Proof. destruct m; reflexivity. Qed.

Section Generic.

Context {T : Type} {Sem : Semantics T}.


Lemma down_stage_snoc (blocks : list TimestepEmbedSequential)
  (b : TimestepEmbedSequential) (emb pf : T) (st : T * list T) :
  down_stage (blocks ++ [b]) emb pf st
  = (st' <- down_stage blocks emb pf st ;;
     down_step emb pf (length blocks, b) st').
Proof.
  unfold down_stage. rewrite enumerate_snoc, for_each_app.
  destruct (for_each (enumerate blocks) (down_step emb pf) st) as [s|e];
    simpl; [|reflexivity].
  apply bind_Ok_r.
Qed.


End Generic.

#[local] Arguments Shape.ResidualBlock_forward : simpl never.
#[local] Arguments Shape.AttentionBlock_forward : simpl never.
#[local] Arguments Shape.CrossModalAttentionBlock_forward : simpl never.
#[local] Arguments Shape.Upsample_forward : simpl never.
#[local] Arguments Shape.Downsample_forward : simpl never.
#[local] Arguments Shape.ParameterEncoder_forward : simpl never.
#[local] Arguments Shape.Sequential_forward : simpl never.
#[local] Arguments Shape.timestep_embedding : simpl never.
#[local] Arguments torch.cat1 : simpl never.

(** *** The stages of a network, on shapes *)

Section Stages.

Variable cfg : Config.
Variables N H W : Z.
Hypothesis Hconfig : positive_config cfg.
Hypothesis Hbatch : valid_batch cfg N H W.
Hypothesis Hnorm : normalisable_batch cfg N H W.

Let emb : shape := [N; time_embed_dim cfg].
Let pf : shape := [N; param_hidden_dim cfg].

Lemma attention_layers_shape (c ds h w : Z) (att : list Block)
  (at_ : nat -> ModulePath) (j : nat) :
  attention_layers cfg c ds = Ok att ->
  0 < c -> 1 <= h -> 1 <= w -> 1 < N * (h * w) ->
  TimestepEmbedSequential_forward at_ j att [N; c; h; w] emb (Some pf)
  = Ok [N; c; h; w].
Proof.
  intros E Hc Hh Hw Hnhw.
  destruct Hconfig as (_ & _ & _ & _ & _ & Hnh & _).
  destruct Hbatch as (HN & _).
  apply attention_layers_Ok in E.
  destruct E as [->|(a & Ea & [->|(x & Ex & ->)])]; simpl.
  - reflexivity.
  - rewrite (AttentionBlock_shape c (num_heads cfg)) by assumption.
    reflexivity.
  - rewrite (AttentionBlock_shape c (num_heads cfg)) by assumption. simpl.
    unfold pf.
    rewrite (CrossModalAttentionBlock_shape c (param_hidden_dim cfg)
               (num_heads cfg)) by assumption.
    reflexivity.
Qed.

(** A residual block followed by its attention layers. *)
Lemma stage_shape (cin cout ds h w : Z) (r : ResidualBlock) (att : list Block)
  (at_ : nat -> ModulePath) :
  ResidualBlock_init cin cout (time_embed_dim cfg) (dropout cfg) = Ok r ->
  attention_layers cfg cout ds = Ok att ->
  0 < cout -> 1 <= h -> 1 <= w -> 1 < N * (h * w) ->
  TimestepEmbedSequential_forward at_ 0 (BResidualBlock r :: att)
    [N; cin; h; w] emb (Some pf)
  = Ok [N; cout; h; w].
Proof.
  intros Er Eatt Hc Hh Hw Hnhw. simpl. unfold emb.
  assert (HN : 0 < N) by (destruct Hbatch as (? & _); assumption).
  rewrite (ResidualBlock_shape cin cout (time_embed_dim cfg) N h w
             (dropout cfg) r Er HN Hh Hw Hnhw). simpl.
  apply attention_layers_shape with (ds := ds); assumption.
Qed.

Lemma middle_block_shape (ch h w : Z) (mid : TimestepEmbedSequential) :
  build_middle_block cfg ch = Ok mid ->
  0 < ch -> 1 <= h -> 1 <= w -> 1 < N * (h * w) ->
  TimestepEmbedSequential_forward middle_block 0 mid [N; ch; h; w] emb
    (Some pf)
  = Ok [N; ch; h; w].
Proof.
  intros E Hc Hh Hw Hnhw.
  destruct Hconfig as (_ & _ & _ & _ & _ & Hnh & _).
  destruct Hbatch as (HN & _).
  unfold build_middle_block in E.
  step E r1 Er1. step E a Ea. step E cross Ec. step E r2 Er2. done_ok E.
  subst mid. simpl. unfold emb.
  rewrite (ResidualBlock_shape ch ch (time_embed_dim cfg) N h w
             (dropout cfg) r1 Er1 HN Hh Hw Hnhw). simpl.
  rewrite (AttentionBlock_shape ch (num_heads cfg)) by assumption. simpl.
  destruct (use_cross_attention cfg).
  - step Ec x Ex. done_ok Ec; subst cross. simpl. unfold pf.
    rewrite (CrossModalAttentionBlock_shape ch (param_hidden_dim cfg)
               (num_heads cfg)) by assumption. simpl.
    rewrite (ResidualBlock_shape ch ch (time_embed_dim cfg) N h w
               (dropout cfg) r2 Er2 HN Hh Hw Hnhw). reflexivity.
  - done_ok Ec; subst cross. simpl.
    rewrite (ResidualBlock_shape ch ch (time_embed_dim cfg) N h w
               (dropout cfg) r2 Er2 HN Hh Hw Hnhw). reflexivity.
Qed.

Lemma conditioning_shape (te : nn.Sequential) (pe : ParameterEncoder) :
  build_time_embed cfg = Ok te ->
  ParameterEncoder_init (param_dim cfg) (param_hidden_dim cfg)
    (param_hidden_dim cfg) (time_embed_dim cfg) = Ok pe ->
  model_channels cfg mod 32 = 0 ->
  conditioning (model_channels cfg) te pe (params_shape cfg N)
    (timesteps_shape N)
  = Ok (emb, pf).
Proof.
  intros Ete Epe Hm.
  destruct Hconfig as (_ & _ & Hmc & _).
  unfold conditioning, params_shape, timesteps_shape; simpl.
  rewrite timestep_embedding_shape; [simpl| lia |].
  - rewrite (time_embed_shape cfg te N Ete); simpl.
    rewrite (ParameterEncoder_shape _ _ _ _ N pe Epe). reflexivity.
  - apply Z.mod_divide in Hm; [|lia]. apply Z.mod_divide; [lia|].
    destruct Hm as (q & ->). exists (q * 16). ring.
Qed.

  (** *** The encoder *)

Let D : nat := num_downsamples cfg.
Let nrb : nat := num_res_blocks cfg.

Lemma extent_pos (k : nat) :
  (k <= D)%nat -> 1 <= H / 2 ^ Z.of_nat k /\ 1 <= W / 2 ^ Z.of_nat k.
Proof.
  intros Hk. destruct Hbatch as (_ & HH & HW & HdH & HdW).
  split; eapply level_extent_pos; eauto.
Qed.

(** Every level holds at least as many positions as the coarsest one. *)
Lemma extent_normalisable (k : nat) :
  (k <= D)%nat -> 1 < N * (H / 2 ^ Z.of_nat k * (W / 2 ^ Z.of_nat k)).
Proof.
  intros Hk. unfold normalisable_batch in Hnorm. fold D in Hnorm.
  destruct Hbatch as (HN & HH & HW & _).
  assert (Hpk := pow2_pos k).
  assert (Hle : 2 ^ Z.of_nat k <= 2 ^ Z.of_nat D)
    by (apply Z.pow_le_mono_r; lia).
  assert (HhD : H / 2 ^ Z.of_nat D <= H / 2 ^ Z.of_nat k)
    by (apply Z.div_le_compat_l; lia).
  assert (HwD : W / 2 ^ Z.of_nat D <= W / 2 ^ Z.of_nat k)
    by (apply Z.div_le_compat_l; lia).
  assert (Hh0 : 0 <= H / 2 ^ Z.of_nat D) by (apply Z.div_pos; lia).
  assert (Hw0 : 0 <= W / 2 ^ Z.of_nat D) by (apply Z.div_pos; lia).
  assert (Hprod : H / 2 ^ Z.of_nat D * (W / 2 ^ Z.of_nat D)
                  <= H / 2 ^ Z.of_nat k * (W / 2 ^ Z.of_nat k))
    by (apply Z.mul_le_mono_nonneg; lia).
  nia.
Qed.

Lemma mult_channels_pos (mult : Z) :
  0 < mult -> 0 < mult * model_channels cfg /\ 0 < model_channels cfg * mult.
Proof.
  intros Hm. destruct Hconfig as (_ & _ & Hmc & _). split; nia.
Qed.

Lemma down_res_step_invariant (k j : nat) (mult : Z) (st st' : BuildState) :
  encoder_invariant cfg N H W k j st ->
  down_res_step cfg mult st = Ok st' ->
  0 < mult -> (k <= D)%nat ->
  encoder_invariant cfg N H W k (S j) st'.
Proof.
  intros (Hds & Hch & Hlen & Hrun) E Hm Hk.
  apply down_res_step_Ok in E. destruct E as (r & att & Er & Eatt & ->).
  destruct (extent_pos k Hk) as (Hh & Hw).
  destruct (mult_channels_pos mult Hm) as (Hc & _).
  unfold encoder_invariant; cbn [bs_blocks bs_chans bs_ch bs_ds].
  repeat split; auto.
  - rewrite length_app; simpl; lia.
  - rewrite down_stage_snoc, Hrun. cbn [bind down_step].
    unfold feature_map at 1.
    rewrite (stage_shape (bs_ch st) (mult * model_channels cfg) (bs_ds st)
               _ _ r att _ Er Eatt Hc Hh Hw (extent_normalisable k Hk)).
    cbn [bind]. rewrite skip_levels_snoc, skip_shapes_snoc.
    + reflexivity.
    + rewrite skip_levels_length; exact Hlen.
Qed.

Lemma down_res_loop_invariant (k : nat) (mult : Z) (st st' : BuildState) :
  encoder_invariant cfg N H W k 1 st ->
  for_each (range nrb) (fun _ s => down_res_step cfg mult s) st = Ok st' ->
  0 < mult -> (k <= D)%nat ->
  encoder_invariant cfg N H W k (nrb + 1) st'.
Proof.
  intros Hinv E Hm Hk. rewrite Nat.add_comm.
  apply (for_each_range_ind
           (fun i s => encoder_invariant cfg N H W k (1 + i) s)) in E; auto.
  - intros i s s' _ Hs Es. simpl.
    eapply down_res_step_invariant; eauto.
Qed.

Lemma downsample_invariant (k : nat) (st : BuildState) (d : Downsample) :
  encoder_invariant cfg N H W k (nrb + 1) st ->
  Downsample_init (bs_ch st) (conv_resample cfg) = Ok d ->
  (S k <= D)%nat ->
  encoder_invariant cfg N H W (S k) 1
    {| bs_blocks := bs_blocks st ++ [[BDownsample d]];
       bs_chans := bs_chans st ++ [bs_ch st];
       bs_ch := bs_ch st;
       bs_ds := bs_ds st * 2 |}.
Proof.
  intros (Hds & Hch & Hlen & Hrun) Ed Hk.
  destruct (extent_pos (S k) Hk) as (Hh & Hw).
  destruct Hbatch as (_ & _ & _ & HdH & HdW).
  unfold encoder_invariant; cbn [bs_blocks bs_chans bs_ch bs_ds].
  repeat split; auto.
  - rewrite Hds, pow2_S. ring.
  - rewrite length_app; simpl. fold nrb. lia.
  - rewrite down_stage_snoc, Hrun. cbn [bind down_step].
    unfold feature_map at 1.
    rewrite (level_extent_double k D H Hk HdH),
            (level_extent_double k D W Hk HdW).
    cbn [TimestepEmbedSequential_forward apply_layer sem_Downsample
         ShapeSemantics].
    rewrite (Downsample_shape _ N _ _ _ d Ed Hh Hw). cbn [bind].
    fold nrb.
    replace (skip_levels nrb (S k) 1) with (skip_levels nrb k (nrb + 1) ++ [S k]).
    + rewrite skip_shapes_snoc; [reflexivity|].
      rewrite skip_levels_length; exact Hlen.
    + rewrite skip_levels_full. symmetry. apply skip_levels_snoc.
Qed.

Lemma initial_encoder_invariant (c : nn.Conv2d) :
  nn.Conv2d_init (in_channels cfg) (model_channels cfg) 3 1 1 true = Ok c ->
  encoder_invariant cfg N H W 0 1
    {| bs_blocks := [[BConv2d c]];
       bs_chans := [model_channels cfg];
       bs_ch := model_channels cfg;
       bs_ds := 1 |}.
Proof.
  intros Ec. apply Conv2d_init_Ok in Ec; subst c.
  destruct Hconfig as (_ & _ & Hmc & _).
  destruct Hbatch as (_ & HH & HW & _).
  unfold encoder_invariant; cbn [bs_blocks bs_chans bs_ch bs_ds].
  repeat split; auto.
  unfold down_stage, image_shape; simpl.
  rewrite conv2d_3x3 by lia. simpl.
  unfold skip_shapes; simpl. rewrite !feature_map_0. reflexivity.
Qed.

(** The encoder of a network with at least one level. *)
Lemma build_down_blocks_invariant (enc : BuildState) :
  build_down_blocks cfg = Ok enc ->
  channel_mult cfg <> [] ->
  encoder_invariant cfg N H W D (nrb + 1) enc.
Proof.
  unfold build_down_blocks; intros E Hne. step E c Ec.
  set (L := length (channel_mult cfg)).
  assert (HL : (1 <= L)%nat).
  { subst L. destruct (channel_mult cfg); [contradiction | simpl; lia]. }
  assert (HD : D = (L - 1)%nat) by reflexivity.
  apply (for_each_enumerate_ind
           (fun i s => if (i <? L)%nat
                       then encoder_invariant cfg N H W i 1 s
                       else encoder_invariant cfg N H W D (nrb + 1) s))
    in E.
  - fold L in E. rewrite Nat.ltb_irrefl in E. exact E.
  - intros i mult s s' Hx Hs Es.
    assert (Hi : (i < L)%nat) by (apply nth_error_Some; congruence).
    assert (Hm : 0 < mult).
    { destruct Hconfig as (_ & _ & _ & _ & _ & _ & Hall).
      rewrite Forall_forall in Hall. apply Hall.
      eapply nth_error_In; eauto. }
    destruct (Nat.ltb_spec i L) as [_|]; [|lia].
    apply down_level_step_Ok in Es. destruct Es as (s1 & E1 & Hd).
    fold nrb in E1.
    apply (down_res_loop_invariant i mult s s1 Hs) in E1; [|assumption|lia].
    fold L in Hd.
    destruct Hd as [(Hnl & d & Ed & ->)|(Hl & ->)].
    + destruct (Nat.ltb_spec (S i) L) as [_|]; [|lia].
      apply downsample_invariant; auto. lia.
    + destruct (Nat.ltb_spec (S i) L) as [|_]; [lia|].
      replace D with i by lia. exact E1.
  - destruct (Nat.ltb_spec 0 L) as [_|]; [|lia].
    apply initial_encoder_invariant; assumption.
Qed.

Lemma build_down_blocks_stageless (enc : BuildState) :
  build_down_blocks cfg = Ok enc ->
  channel_mult cfg = [] ->
  encoder_invariant cfg N H W 0 1 enc /\
  bs_ch enc = model_channels cfg /\ bs_chans enc = [model_channels cfg].
Proof.
  unfold build_down_blocks; intros E Hnil. step E c Ec.
  rewrite Hnil in E; simpl in E. done_ok E; subst enc.
  split; [apply initial_encoder_invariant; assumption | split; reflexivity].
Qed.

(** Whatever the number of levels, the encoder ends on a feature map of
    a level the batch allows. *)
Lemma build_down_blocks_feature (enc : BuildState) :
  build_down_blocks cfg = Ok enc ->
  exists k hs,
    (k <= D)%nat /\ 0 < bs_ch enc /\
    down_stage (bs_blocks enc) [N; time_embed_dim cfg]
      [N; param_hidden_dim cfg] (image_shape cfg N H W, [])
    = Ok (feature_map N H W (bs_ch enc) k, hs).
Proof.
  intros E. destruct (channel_mult cfg) as [|m ms] eqn:Hm.
  - destruct (build_down_blocks_stageless enc E Hm)
      as ((_ & Hch & _ & Hrun) & _).
    exists O; eexists; repeat split; [lia | assumption | exact Hrun].
  - assert (Hne : channel_mult cfg <> []) by congruence.
    destruct (build_down_blocks_invariant enc E Hne) as (_ & Hch & _ & Hrun).
    exists D; eexists; repeat split; [lia | assumption | exact Hrun].
Qed.

(** *** The decoder *)

Variable start : shape * list shape.





End Stages.

(** *** The whole network *)





Lemma property_predictor_shape (ch hid out N h w : Z) :
  1 <= h -> 1 <= w ->
  Shape.Sequential_forward
    [nn.LAdaptiveAvgPool2d 1; nn.LFlatten; nn.LLinear (nn.mkLinear ch hid);
     nn.LSiLU; nn.LLinear (nn.mkLinear hid out)] [N; ch; h; w]
  = Ok [N; out].
Proof.
  intros Hh Hw. unfold Shape.Sequential_forward; simpl.
  unfold torch.adaptive_avg_pool2d.
  destruct (Z.ltb_spec 0 h); [|lia]. destruct (Z.ltb_spec 0 w); [|lia].
  simpl. unfold torch.numel; simpl. rewrite !Z.mul_1_r.
  rewrite linear_2d; simpl. rewrite linear_2d. reflexivity.
Qed.

Lemma UNet_Energy_forward_shape (ecfg : EnergyConfig) (e : UNet_Energy)
  (N H W : Z) (prop : shape) :
  positive_config (e_cfg ecfg) -> valid_batch (e_cfg ecfg) N H W ->
  normalisable_batch (e_cfg ecfg) N H W ->
  UNet_Energy_init ecfg = Ok e ->
  UNet_Energy_forward e (image_shape (e_cfg ecfg) N H W)
    (params_shape (e_cfg ecfg) N) prop (timesteps_shape N)
  = Ok [N; prop_dim ecfg].
Proof.
  intros Hconfig Hbatch Hnorm E. unfold UNet_Energy_init in E. cbv zeta in E.
  set (cfg := e_cfg ecfg) in *.
  step E te Ete. step E pe Epe. step E enc Eenc. step E mid Emid.
  step E l1 El1. step E l2 El2. done_ok E; subst e.
  apply Linear_init_Ok in El1, El2; subst l1 l2.
  assert (Hm32 := encoder_middle_mod32 cfg enc mid Eenc Emid).
  destruct (build_down_blocks_feature cfg N H W Hconfig Hbatch Hnorm enc Eenc)
    as (k & hs & Hk & Hch & Hrun).
  destruct (extent_pos cfg N H W Hbatch k Hk) as (Hh & Hw).
  assert (Hnhw := extent_normalisable cfg N H W Hbatch Hnorm k Hk).
  unfold UNet_Energy_forward;
    cbn [e_model_channels e_time_embed e_param_encoder e_down_blocks
         e_middle_block e_property_predictor].
  rewrite (conditioning_shape cfg N Hconfig te pe Ete Epe Hm32).
  cbn [bind]. rewrite Hrun. cbn [bind]. unfold feature_map.
  rewrite (middle_block_shape cfg N H W Hconfig Hbatch _ _ _ mid Emid Hch
             Hh Hw Hnhw).
  cbn [bind].
  change (@sem_Sequential (list Z) ShapeSemantics property_predictor)
    with Shape.Sequential_forward.
  apply property_predictor_shape; assumption.
Qed.

End BlockFacts.

(** ** C1, C2, C8: the shapes of the outputs *)



Lemma scenario_batch_valid : valid_batch scenario_config 2 16 16.
Proof.
  unfold valid_batch; simpl. repeat split; try lia; exists 8; reflexivity.
Qed.


Lemma scenario_batch_normalisable : normalisable_batch scenario_config 2 16 16.
Proof. vm_compute. reflexivity. Qed.









(** ** Witnesses and counterexamples for the stack and the parameter path *)

Lemma skip_stack_balanced_witness :
  match UNet_init scenario_config with
  | Ok u => length (u_down_blocks u) = 4%nat /\ length (u_up_blocks u) = 4%nat
  | Raise _ => False
  end.
Proof.
  destruct (UNet_init scenario_config) as [u|] eqn:E;
    [|vm_compute in E; discriminate].
  assert (Hne : channel_mult scenario_config <> []) by discriminate.
  destruct (skip_stack_balanced scenario_config u E Hne) as (Hd & Hu & _).
  split; [exact Hd | exact Hu].
Defined.

(** C4 as stated fails in two ways.  For [channel_mult=()] the network is
    constructed, the encoder has its one stage (the input convolution) and
    the decoder none, so the forward pass pushes once, never pops, and
    reaches the output projections with one tensor left on the stack.  For
    [num_res_blocks=-1] and [channel_mult=(1, 2)] both [range] loops are
    empty but the [Downsample] of level 0 is still appended: the encoder has
    two stages, the decoder none, and the forward pass returns with two
    tensors on the stack. *)
Lemma skip_stack_balanced_counterexample :
  (exists u,
     UNet_init stageless_config = Ok u /\
     length (u_down_blocks u) = 1%nat /\
     length (u_up_blocks u) = 0%nat /\
     UNet_locals u [2; 1; 16; 16] [2; 4] [2]
     = Ok ([2; 32; 16; 16], [2; 16], [[2; 32; 16; 16]]) /\
     UNet_forward u [2; 1; 16; 16] [2; 4] [2] = Ok ([2; 1; 16; 16], [2; 4])) /\
  (exists u,
     UNet_init_int scenario_config (-1) = Ok u /\
     length (u_down_blocks u) = 2%nat /\
     length (u_up_blocks u) = 0%nat /\
     UNet_locals u [2; 1; 16; 16] [2; 4] [2]
     = Ok ([2; 32; 8; 8], [2; 16], [[2; 32; 16; 16]; [2; 32; 8; 8]]) /\
     UNet_forward u [2; 1; 16; 16] [2; 4] [2] = Ok ([2; 1; 8; 8], [2; 4])).
Proof.
  split.
  - destruct (UNet_init stageless_config) as [u|] eqn:E;
      [|vm_compute in E; discriminate].
    exists u; split; [reflexivity|].
    vm_compute in E. injection E as <-. repeat split.
  - destruct (UNet_init_int scenario_config (-1)) as [u|] eqn:E;
      [|vm_compute in E; discriminate].
    exists u; split; [reflexivity|].
    vm_compute in E. injection E as <-. repeat split.
Qed.

Lemma param_out_ignores_image_witness :
  match UNet_init scenario_config with
  | Ok u => param_path u [2; 4] [2] = Ok [2; 4]
  | Raise _ => False
  end.
Proof.
  destruct (UNet_init scenario_config) as [u|] eqn:E;
    [|vm_compute in E; discriminate].
  assert (H1 : UNet_forward u [2; 1; 16; 16] [2; 4] [2]
               = Ok ([2; 1; 16; 16], [2; 4])).
  { vm_compute in E. injection E as <-. reflexivity. }
  assert (H2 : UNet_forward u [2; 1; 32; 32] [2; 4] [2]
               = Ok ([2; 1; 32; 32], [2; 4])).
  { vm_compute in E. injection E as <-. reflexivity. }
  exact (proj2 (param_out_ignores_image u [2; 1; 16; 16] [2; 1; 32; 32]
                  [2; 4] [2] [2; 1; 16; 16] [2; 4] [2; 1; 32; 32] [2; 4]
                  H1 H2)).
Defined.

(** * Further properties of the code *)

(** ** The forward passes of the blocks: accepted inputs and errors *)

Module BlockForward.

Import TorchFacts BlockFacts.

#[local] Arguments Z.mul : simpl never.
#[local] Arguments Z.add : simpl never.
#[local] Arguments Z.div : simpl never.
#[local] Arguments Z.modulo : simpl never.
#[local] Arguments Z.eqb : simpl never.
#[local] Arguments torch.conv2d : simpl never.
#[local] Arguments torch.reshape : simpl never.
#[local] Arguments torch.chunk : simpl never.
#[local] Arguments torch.broadcast : simpl never.
#[local] Arguments torch.iadd : simpl never.
#[local] Arguments torch.group_norm : simpl never.
#[local] Arguments torch.layer_norm : simpl never.
#[local] Arguments torch.linear : simpl never.
#[local] Arguments torch.einsum_bct_bcs_bts : simpl never.
#[local] Arguments torch.einsum_bts_bcs_bct : simpl never.
#[local] Arguments torch.softmax : simpl never.
#[local] Arguments torch.avg_pool2d : simpl never.

(** [h += e[:, :, None, None]] with a bias of batch size [m]: the bias is
    broadcast over the batch when [m = 1]; the in-place sum cannot grow [h]. *)
Lemma iadd_bias_batch (n m c h w : Z) :
  torch.iadd [n; c; h; w] [m; c; 1; 1]
  = if (m =? n) || (m =? 1) then Ok [n; c; h; w] else Raise RuntimeError.
Proof.
  unfold torch.iadd, torch.broadcast; simpl.
  rewrite !bdim_1_r, bdim_same; simpl.
  unfold torch.bdim.
  destruct (Z.eqb_spec n m) as [->|Hnm]; simpl.
  - rewrite !Z.eqb_refl; reflexivity.
  - destruct (Z.eqb_spec m n) as [->|_]; [contradiction|].
    destruct (Z.eqb_spec n 1) as [->|Hn1]; simpl.
    + destruct (Z.eqb_spec m 1) as [->|Hm1]; [contradiction|]. reflexivity.
    + destruct (Z.eqb_spec m 1) as [->|Hm1]; simpl;
        [rewrite !Z.eqb_refl|]; reflexivity.
Qed.

(** X1.  [ResidualBlock.forward] on an image batch [(n, c, h, w)] and a time
    embedding [(m, t)].  The first normalisation raises [ValueError] when
    the batch holds a single value per group, [(n*c // 32) * h * w = 1].
    Otherwise [c] must be the block's [in_channels], [t] its
    [time_channels], and the embedding must have the batch size of the
    image or batch size 1, else [RuntimeError]; then the second
    normalisation raises [ValueError] when [(n*out_channels // 32) * h * w
    = 1], and in every other case the block returns
    [(n, out_channels, h, w)], the spatial size unchanged. *)
Theorem ResidualBlock_forward_accepts (cin cout tc n m c t h w : Z) (dr : Q)
  (r : ResidualBlock) :
  ResidualBlock_init cin cout tc dr = Ok r ->
  1 <= h -> 1 <= w ->
  Shape.ResidualBlock_forward r [n; c; h; w] [m; t]
  = if n * c / 32 * (h * w) =? 1 then Raise ValueError
    else if (c =? cin) && (t =? tc) && ((m =? n) || (m =? 1)) then
      if n * cout / 32 * (h * w) =? 1 then Raise ValueError
      else Ok [n; cout; h; w]
    else Raise RuntimeError.
Proof.
  intros E Hh Hw. apply ResidualBlock_init_Ok in E.
  destruct E as (Hci & Hco & _ & _ & d & ->).
  unfold Shape.ResidualBlock_forward, Shape.Sequential_forward; simpl.
  rewrite (group_norm_32_cases n cin c h w Hci).
  destruct (n * c / 32 * (h * w) =? 1); simpl; [reflexivity|].
  destruct (Z.eqb_spec c cin) as [->|Hc]; simpl; [|reflexivity].
  rewrite conv2d_3x3 by assumption; simpl.
  unfold torch.linear; simpl.
  destruct (Z.eqb_spec t tc) as [->|Ht]; simpl; [|reflexivity].
  rewrite iadd_bias_batch.
  destruct ((m =? n) || (m =? 1)); simpl; [|reflexivity].
  rewrite (group_norm_32_cases n cout cout h w Hco), Z.eqb_refl.
  destruct (n * cout / 32 * (h * w) =? 1); simpl; [reflexivity|].
  rewrite conv2d_3x3 by assumption; simpl.
  destruct (Z.eqb_spec cin cout) as [->|Hne]; simpl.
  - apply broadcast_same.
  - rewrite conv2d_1x1 by assumption; simpl. apply broadcast_same.
Qed.

Lemma ResidualBlock_forward_accepts_witness :
  match ResidualBlock_init 32 64 128 (1 # 10) with
  | Ok r =>
      Shape.ResidualBlock_forward r [2; 32; 8; 8] [2; 128] = Ok [2; 64; 8; 8] /\
      Shape.ResidualBlock_forward r [1; 32; 1; 1] [1; 128] = Raise ValueError
  | Raise _ => False
  end.
Proof.
  destruct (ResidualBlock_init 32 64 128 (1 # 10)) as [r|] eqn:E;
    [|vm_compute in E; discriminate].
  split.
  - exact (ResidualBlock_forward_accepts 32 64 128 2 2 32 128 8 8 (1 # 10) r E
             ltac:(lia) ltac:(lia)).
  - exact (ResidualBlock_forward_accepts 32 64 128 1 1 32 128 1 1 (1 # 10) r E
             ltac:(lia) ltac:(lia)).
Defined.

(** X2.  [AttentionBlock.forward] on a batch [(n, c', h, w)]: the
    normalisation raises [ValueError] when the batch holds a single value
    per group, [(n*c' // 32) * h * w = 1]; otherwise the block keeps the
    shape of its input, returning [(n, c, h, w)], when [c'] is the channel
    count the block was built for, and raises [RuntimeError] when it is
    not. *)
Theorem AttentionBlock_forward_accepts (c nh n c' h w : Z) (a : AttentionBlock) :
  AttentionBlock_init c nh = Ok a ->
  0 < c -> 0 < nh -> 0 < n -> 1 <= h -> 1 <= w ->
  Shape.AttentionBlock_forward a [n; c'; h; w]
  = if n * c' / 32 * (h * w) =? 1 then Raise ValueError
    else if c' =? c then Ok [n; c; h; w] else Raise RuntimeError.
Proof.
  intros E Hc Hnh Hn Hh Hw.
  destruct (Z.eqb_spec (n * c' / 32 * (h * w)) 1) as [He|Hne1].
  - apply AttentionBlock_init_Ok in E. destruct E as (_ & _ & Hm32 & _ & ->).
    unfold Shape.AttentionBlock_forward; simpl.
    rewrite (group_norm_32_cases n c c' h w Hm32).
    destruct (Z.eqb_spec (n * c' / 32 * (h * w)) 1); [|contradiction].
    reflexivity.
  - destruct (Z.eqb_spec c' c) as [->|Hne].
    + apply AttentionBlock_shape_exact with (nh := nh); assumption.
    + apply AttentionBlock_init_Ok in E. destruct E as (_ & _ & Hm32 & _ & ->).
      unfold Shape.AttentionBlock_forward; simpl.
      rewrite (group_norm_32_cases n c c' h w Hm32).
      destruct (Z.eqb_spec (n * c' / 32 * (h * w)) 1); [contradiction|].
      destruct (Z.eqb_spec c' c); [contradiction|]. reflexivity.
Qed.

Lemma AttentionBlock_forward_accepts_witness :
  match AttentionBlock_init 32 4 with
  | Ok a =>
      Shape.AttentionBlock_forward a [2; 32; 8; 8] = Ok [2; 32; 8; 8] /\
      Shape.AttentionBlock_forward a [1; 32; 1; 1] = Raise ValueError
  | Raise _ => False
  end.
Proof.
  destruct (AttentionBlock_init 32 4) as [a|] eqn:E;
    [|vm_compute in E; discriminate].
  split.
  - exact (AttentionBlock_forward_accepts 32 4 2 32 8 8 a E ltac:(lia)
             ltac:(lia) ltac:(lia) ltac:(lia) ltac:(lia)).
  - exact (AttentionBlock_forward_accepts 32 4 1 32 1 1 a E ltac:(lia)
             ltac:(lia) ltac:(lia) ltac:(lia) ltac:(lia)).
Defined.

(** X3.  [CrossModalAttentionBlock.forward] on an image batch [(n, c, h, w)]
    and parameter features [(m, p)]: the image normalisation raises
    [ValueError] when the batch holds a single value per group,
    [(n*c // 32) * h * w = 1]; otherwise the block returns the image shape
    [(n, c, h, w)] exactly when [p] is the block's [param_dim] and [m = n];
    the parameters are never broadcast over the batch, not even for
    [m = 1], and every other such input raises [RuntimeError]. *)
Theorem CrossModalAttentionBlock_forward_accepts (c pd nh n m p h w : Z)
  (a : CrossModalAttentionBlock) :
  CrossModalAttentionBlock_init c pd nh = Ok a ->
  0 < c -> 0 < nh -> 0 < n -> 1 <= h -> 1 <= w ->
  Shape.CrossModalAttentionBlock_forward a [n; c; h; w] [m; p]
  = if n * c / 32 * (h * w) =? 1 then Raise ValueError
    else if (p =? pd) && (m =? n) then Ok [n; c; h; w]
    else Raise RuntimeError.
Proof.
  intros E Hc Hnh Hn Hh Hw.
  destruct (Z.eqb_spec (n * c / 32 * (h * w)) 1) as [He|Hne1].
  { apply CrossModalAttentionBlock_init_Ok in E.
    destruct E as (_ & _ & Hm32 & _ & ->).
    unfold Shape.CrossModalAttentionBlock_forward; simpl.
    rewrite (group_norm_32_cases n c c h w Hm32).
    destruct (Z.eqb_spec (n * c / 32 * (h * w)) 1); [|contradiction].
    reflexivity. }
  destruct (Z.eqb_spec p pd) as [->|Hp]; simpl.
  - destruct (Z.eqb_spec m n) as [->|Hm].
    + apply CrossModalAttentionBlock_shape_exact with (nh := nh); assumption.
    + apply CrossModalAttentionBlock_init_Ok in E.
      destruct E as (_ & Hmod & Hm32 & _ & ->).
      destruct (divisible_by_heads c nh Hc Hnh Hmod) as (k & Hck & Hk).
      assert (Hdiv : py_floordiv c nh = Ok k).
      { unfold py_floordiv. destruct (Z.eqb_spec nh 0); [lia|].
        rewrite Hck, (Z.mul_comm nh k), Z.div_mul by lia. reflexivity. }
      unfold Shape.CrossModalAttentionBlock_forward; simpl.
      rewrite group_norm_32_exact by assumption; simpl.
      rewrite conv2d_1x1 by assumption; simpl.
      rewrite Hdiv; simpl.
      rewrite (reshape_exact [n; c; h; w] [n * nh; k; h * w])
        by (try (unfold torch.numel; simpl; subst c; ring);
            repeat constructor; nia).
      simpl. rewrite layer_norm_2d; simpl. rewrite linear_2d; simpl.
      rewrite chunk_2 by assumption; simpl.
      change (torch.unsqueeze_last [m; c]) with [m; c; 1].
      unfold torch.reshape at 1; simpl.
      destruct (Z.ltb_spec (n * nh) (-1)); [nia|].
      destruct (Z.ltb_spec k (-1)); [lia|]. simpl.
      destruct (Z.eqb_spec (n * nh) (-1)); [nia|].
      destruct (Z.eqb_spec k (-1)); [lia|]. simpl.
      unfold torch.numel; simpl.
      destruct (Z.eqb_spec (m * (c * (1 * 1))) (n * nh * (k * (1 * 1))));
        [|reflexivity].
      exfalso. apply Hm. subst c. nia.
  - apply CrossModalAttentionBlock_init_Ok in E.
    destruct E as (_ & Hmod & Hm32 & _ & ->).
    destruct (divisible_by_heads c nh Hc Hnh Hmod) as (k & Hck & Hk).
    assert (Hdiv : py_floordiv c nh = Ok k).
    { unfold py_floordiv. destruct (Z.eqb_spec nh 0); [lia|].
      rewrite Hck, (Z.mul_comm nh k), Z.div_mul by lia. reflexivity. }
    unfold Shape.CrossModalAttentionBlock_forward; simpl.
    rewrite group_norm_32_exact by assumption; simpl.
    rewrite conv2d_1x1 by assumption; simpl.
    rewrite Hdiv; simpl.
    rewrite (reshape_exact [n; c; h; w] [n * nh; k; h * w])
      by (try (unfold torch.numel; simpl; subst c; ring);
          repeat constructor; nia).
    simpl. unfold torch.layer_norm; simpl.
    destruct (Z.eqb_spec p pd); [contradiction|]. reflexivity.
Qed.

Lemma CrossModalAttentionBlock_forward_accepts_witness :
  match CrossModalAttentionBlock_init 32 16 4 with
  | Ok a =>
      Shape.CrossModalAttentionBlock_forward a [2; 32; 8; 8] [1; 16]
      = Raise RuntimeError /\
      Shape.CrossModalAttentionBlock_forward a [1; 32; 1; 1] [1; 16]
      = Raise ValueError
  | Raise _ => False
  end.
Proof.
  destruct (CrossModalAttentionBlock_init 32 16 4) as [a|] eqn:E;
    [|vm_compute in E; discriminate].
  split.
  - exact (CrossModalAttentionBlock_forward_accepts 32 16 4 2 1 16 8 8 a E
             ltac:(lia) ltac:(lia) ltac:(lia) ltac:(lia) ltac:(lia)).
  - exact (CrossModalAttentionBlock_forward_accepts 32 16 4 1 1 16 1 1 a E
             ltac:(lia) ltac:(lia) ltac:(lia) ltac:(lia) ltac:(lia)).
Defined.

(** A strided 3x3 convolution with padding 1 rounds the extent up. *)
Lemma window_conv_stride2 (h : Z) : 1 <= h -> torch.window_out h 3 2 1 = Ok ((h + 1) / 2).
Proof. intros Hh. window_tac. Qed.

(** A 2x2 average pooling rounds the extent down and refuses an extent of 1. *)
Lemma window_pool_stride2 (h : Z) :
  1 <= h ->
  torch.window_out h 2 2 0 = if h <? 2 then Raise RuntimeError else Ok (h / 2).
Proof.
  intros Hh. unfold torch.window_out.
  replace (h + 2 * 0) with h by ring.
  destruct (Z.ltb_spec h 2); [reflexivity|]. simpl.
  f_equal. Z.to_euclidean_division_equations; lia.
Qed.

Lemma Downsample_forward_extent (c n h w : Z) (b : bool) (d : Downsample) :
  Downsample_init c b = Ok d ->
  1 <= h -> 1 <= w ->
  Shape.Downsample_forward d [n; c; h; w]
  = if b then Ok [n; c; (h + 1) / 2; (w + 1) / 2]
    else if (h <? 2) || (w <? 2) then Raise RuntimeError
         else Ok [n; c; h / 2; w / 2].
Proof.
  intros E Hh Hw. unfold Downsample_init in E. destruct b.
  - step E cv Ecv. done_ok E; subst d.
    apply Conv2d_init_Ok in Ecv; subst cv.
    unfold Shape.Downsample_forward, torch.conv2d; simpl.
    rewrite Z.eqb_refl, !window_conv_stride2 by assumption. reflexivity.
  - done_ok E; subst d.
    unfold Shape.Downsample_forward, torch.avg_pool2d; simpl.
    rewrite !window_pool_stride2 by assumption.
    destruct (h <? 2); simpl; [reflexivity|].
    destruct (w <? 2); reflexivity.
Qed.

(** X4.  [Upsample] undoes the change of shape of [Downsample] exactly on
    even extents: for an image batch [(n, c, h, w)] with [h, w >= 1],
    [Upsample(c, b2)(Downsample(c, b1)(x))] has the shape of [x] if and only
    if [h] and [w] are even, whatever the two [use_conv] flags are.  (On an
    odd extent the strided convolution rounds up and the pooling rounds
    down, or raises when the extent is 1.) *)
Theorem Downsample_Upsample_round_trip (c n h w : Z) (b1 b2 : bool)
  (d : Downsample) (u : Upsample) :
  Downsample_init c b1 = Ok d ->
  Upsample_init c b2 = Ok u ->
  1 <= h -> 1 <= w ->
  (y <- Shape.Downsample_forward d [n; c; h; w] ;; Shape.Upsample_forward u y)
  = Ok [n; c; h; w]
  <-> h mod 2 = 0 /\ w mod 2 = 0.
Proof.
  intros Ed Eu Hh Hw.
  rewrite (Downsample_forward_extent c n h w b1 d Ed Hh Hw).
  assert (Hup : forall h' w', 1 <= h' -> 1 <= w' ->
            Shape.Upsample_forward u [n; c; h'; w'] = Ok [n; c; 2 * h'; 2 * w']).
  { intros h' w' H1 H2. apply Upsample_shape with (b := b2); assumption. }
  destruct b1.
  - cbn [bind]. rewrite Hup by (Z.to_euclidean_division_equations; lia).
    split.
    + intros E. injection E as E1 E2.
      split; Z.to_euclidean_division_equations; lia.
    + intros (E1 & E2).
      replace (2 * ((h + 1) / 2)) with h
        by (Z.to_euclidean_division_equations; lia).
      replace (2 * ((w + 1) / 2)) with w
        by (Z.to_euclidean_division_equations; lia).
      reflexivity.
  - destruct (Z.ltb_spec h 2); simpl.
    + split; [discriminate|]. intros (E1 & _).
      exfalso. Z.to_euclidean_division_equations; lia.
    + destruct (Z.ltb_spec w 2); cbn [bind].
      * split; [discriminate|]. intros (_ & E2).
        exfalso. Z.to_euclidean_division_equations; lia.
      * rewrite Hup by (Z.to_euclidean_division_equations; lia).
        split.
        -- intros E. injection E as E1 E2.
           split; Z.to_euclidean_division_equations; lia.
        -- intros (E1 & E2).
           replace (2 * (h / 2)) with h
             by (Z.to_euclidean_division_equations; lia).
           replace (2 * (w / 2)) with w
             by (Z.to_euclidean_division_equations; lia).
           reflexivity.
Qed.

Lemma Downsample_Upsample_round_trip_witness :
  match Downsample_init 32 true, Upsample_init 32 true with
  | Ok d, Ok u =>
      (y <- Shape.Downsample_forward d [2; 32; 7; 8] ;; Shape.Upsample_forward u y)
      <> Ok [2; 32; 7; 8]
  | _, _ => False
  end.
Proof.
  destruct (Downsample_init 32 true) as [d|] eqn:Ed;
    [|vm_compute in Ed; discriminate].
  destruct (Upsample_init 32 true) as [u|] eqn:Eu;
    [|vm_compute in Eu; discriminate].
  intros E.
  apply (Downsample_Upsample_round_trip 32 2 7 8 true true d u Ed Eu
           ltac:(lia) ltac:(lia)) in E.
  destruct E as (E & _). vm_compute in E. discriminate.
Defined.

(** X5.  [ParameterEncoder.forward] on parameters [(n, p)] and a time
    embedding [(m, t)]: [p] must be the encoder's [param_dim] and [t] its
    [time_dim], else [RuntimeError]; the sum [h + time_emb] broadcasts the
    two batch sizes, so the result is [(b, out_dim)] with [b] the common
    batch size, or the other one when one of them is 1, and unequal batch
    sizes other than 1 raise [RuntimeError]. *)
Theorem ParameterEncoder_forward_accepts (pd hd od td n m p t : Z)
  (pe : ParameterEncoder) :
  ParameterEncoder_init pd hd od td = Ok pe ->
  Shape.ParameterEncoder_forward pe [n; p] [m; t]
  = if (p =? pd) && (t =? td)
    then b <- torch.bdim n m ;; Ok [b; od]
    else Raise RuntimeError.
Proof.
  unfold ParameterEncoder_init; intros E.
  step E t1 Et1. step E t2 Et2. step E ip Eip. step E ls Els.
  step E op Eop. done_ok E; subst pe.
  apply Linear_init_Ok in Et1, Et2, Eip, Eop; subst.
  simpl in Els. step Els l1 El1. step El1 a1 Ea1. step El1 b1 Eb1.
  done_ok El1; subst l1. step Els l2 El2. step El2 a2 Ea2. step El2 b2 Eb2.
  done_ok El2; subst l2. done_ok Els; subst ls.
  apply Linear_init_Ok in Ea1, Eb1, Ea2, Eb2; subst.
  unfold Shape.ParameterEncoder_forward, Shape.Sequential_forward; simpl.
  destruct (Z.eqb_spec p pd) as [->|Hp]; simpl.
  - rewrite linear_2d; simpl.
    destruct (Z.eqb_spec t td) as [->|Ht]; simpl.
    + rewrite linear_2d; simpl. rewrite linear_2d; simpl.
      unfold torch.broadcast at 1; simpl. rewrite bdim_same; simpl.
      destruct (torch.bdim n m) as [b|e]; simpl; [|reflexivity].
      repeat (first [rewrite linear_2d | rewrite broadcast_same]; simpl).
      reflexivity.
    + unfold torch.linear at 1; simpl.
      destruct (Z.eqb_spec t td); [contradiction|]. reflexivity.
  - unfold torch.linear at 1; simpl.
    destruct (Z.eqb_spec p pd); [contradiction|]. reflexivity.
Qed.

Lemma ParameterEncoder_forward_accepts_witness :
  match ParameterEncoder_init 4 16 16 128 with
  | Ok pe => Shape.ParameterEncoder_forward pe [2; 4] [1; 128] = Ok [2; 16]
  | Raise _ => False
  end.
Proof.
  destruct (ParameterEncoder_init 4 16 16 128) as [pe|] eqn:E;
    [|vm_compute in E; discriminate].
  exact (ParameterEncoder_forward_accepts 4 16 16 128 2 1 4 128 pe E).
Defined.

End BlockForward.

(** ** Which inputs reach which blocks *)

Lemma for_each_ext {A S : Type} (l : list A) (f g : A -> S -> result S) :
  (forall x s, In x l -> f x s = g x s) ->
  forall s, for_each l f s = for_each l g s.
Proof.
  induction l as [|x l IH]; intros Hfg s; simpl; [reflexivity|].
  rewrite (Hfg x s) by (left; reflexivity).
  destruct (g x s) as [s'|e]; simpl; [|reflexivity].
  apply IH. intros y t Hy. apply Hfg. right; exact Hy.
Qed.

(** ** [num_res_blocks] as an int: agreement with the natural-number
    assembly *)

Lemma for_each_map {A B S : Type} (f : A -> B) (l : list A)
  (body : B -> S -> result S) (s : S) :
  for_each (map f l) body s = for_each l (fun a => body (f a)) s.
Proof.
  revert s; induction l as [|a l IH]; intros s; simpl; [reflexivity|].
  destruct (body (f a) s) as [s'|e]; simpl; [apply IH | reflexivity].
Qed.

Lemma down_level_step_int_of_nat (cfg : Config) (lm : nat * Z)
  (st : BuildState) :
  down_level_step_int cfg (Z.of_nat (num_res_blocks cfg)) lm st
  = down_level_step cfg lm st.
Proof.
  destruct lm as (level, mult).
  unfold down_level_step_int, down_level_step, int_range.
  rewrite Nat2Z.id, for_each_map. reflexivity.
Qed.

Lemma up_res_step_int_of_nat (cfg : Config) (level : nat) (mult : Z)
  (i : nat) (st : BuildState) :
  up_res_step_int cfg (Z.of_nat (num_res_blocks cfg)) level mult (Z.of_nat i) st
  = up_res_step cfg level mult i st.
Proof.
  unfold up_res_step_int, up_res_step.
  replace (Z.of_nat i =? Z.of_nat (num_res_blocks cfg))
    with (i =? num_res_blocks cfg)%nat; [reflexivity|].
  destruct (Nat.eqb_spec i (num_res_blocks cfg)),
    (Z.eqb_spec (Z.of_nat i) (Z.of_nat (num_res_blocks cfg)));
    try reflexivity; lia.
Qed.

Lemma up_level_step_int_of_nat (cfg : Config) (lm : nat * Z)
  (st : BuildState) :
  up_level_step_int cfg (Z.of_nat (num_res_blocks cfg)) lm st
  = up_level_step cfg lm st.
Proof.
  destruct lm as (level, mult).
  unfold up_level_step_int, up_level_step, int_range.
  replace (Z.to_nat (Z.of_nat (num_res_blocks cfg) + 1))
    with (num_res_blocks cfg + 1)%nat by lia.
  rewrite for_each_map. apply for_each_ext.
  intros i s _. apply up_res_step_int_of_nat.
Qed.

(** On a repeat count that is not negative the two assemblies are the same
    constructor. *)
Lemma UNet_init_int_of_nat (cfg : Config) :
  UNet_init_int cfg (Z.of_nat (num_res_blocks cfg)) = UNet_init cfg.
Proof.
  assert (Hdown : build_down_blocks_int cfg (Z.of_nat (num_res_blocks cfg))
                  = build_down_blocks cfg).
  { unfold build_down_blocks_int, build_down_blocks.
    destruct (nn.Conv2d_init (in_channels cfg) (model_channels cfg) 3 1 1 true)
      as [c|e]; cbn [bind]; [|reflexivity].
    apply for_each_ext. intros lm s _. apply down_level_step_int_of_nat. }
  assert (Hup : forall enc,
            build_up_blocks_int cfg (Z.of_nat (num_res_blocks cfg)) enc
            = build_up_blocks cfg enc).
  { intros enc. unfold build_up_blocks_int, build_up_blocks.
    apply for_each_ext. intros lm s _. apply up_level_step_int_of_nat. }
  unfold UNet_init_int, UNet_init. rewrite Hdown.
  destruct (build_time_embed cfg) as [te|e]; cbn [bind]; [|reflexivity].
  destruct (ParameterEncoder_init (param_dim cfg) (param_hidden_dim cfg)
              (param_hidden_dim cfg) (time_embed_dim cfg)) as [pe|e];
    cbn [bind]; [|reflexivity].
  destruct (build_down_blocks cfg) as [enc|e]; cbn [bind]; [|reflexivity].
  destruct (build_middle_block cfg (bs_ch enc)) as [mid|e]; cbn [bind];
    [|reflexivity].
  rewrite Hup. reflexivity.
Qed.

Section Dispatch.

Context {T : Type} {Sem : Semantics T}.

Lemma forward_without_cross (at_ : nat -> ModulePath) (j : nat)
  (self : TimestepEmbedSequential) (x emb : T) (p q : option T) :
  existsb is_CrossModalAttentionBlock self = false ->
  TimestepEmbedSequential_forward at_ j self x emb p
  = TimestepEmbedSequential_forward at_ j self x emb q.
Proof.
  revert j x. induction self as [|b self IH]; intros j x Hno; simpl;
    [reflexivity|].
  simpl in Hno. apply orb_false_iff in Hno. destruct Hno as (Hb & Hno).
  assert (Hl : apply_layer (at_ j) b x emb p = apply_layer (at_ j) b x emb q)
    by (destruct b; try discriminate; reflexivity).
  rewrite Hl. destruct (apply_layer (at_ j) b x emb q) as [y|e]; simpl;
    [|reflexivity].
  apply IH. exact Hno.
Qed.

Lemma forward_with_cross_None (at_ : nat -> ModulePath) (j : nat)
  (self : TimestepEmbedSequential) (x emb : T) :
  existsb is_CrossModalAttentionBlock self = true ->
  is_ok (TimestepEmbedSequential_forward at_ j self x emb None) = false.
Proof.
  revert j x. induction self as [|b self IH]; intros j x Hc; simpl in *;
    [discriminate|].
  destruct (is_CrossModalAttentionBlock b) eqn:Hb.
  - destruct b; try discriminate. reflexivity.
  - simpl in Hc.
    destruct (apply_layer (at_ j) b x emb None) as [y|e]; simpl;
      [|reflexivity].
    apply IH. exact Hc.
Qed.

Lemma forward_without_TimestepBlock (at_ : nat -> ModulePath) (j : nat)
  (self : TimestepEmbedSequential) (x emb emb' : T) (p : option T) :
  existsb is_TimestepBlock self = false ->
  TimestepEmbedSequential_forward at_ j self x emb p
  = TimestepEmbedSequential_forward at_ j self x emb' p.
Proof.
  revert j x. induction self as [|b self IH]; intros j x Hno; simpl;
    [reflexivity|].
  simpl in Hno. apply orb_false_iff in Hno. destruct Hno as (Hb & Hno).
  assert (Hl : apply_layer (at_ j) b x emb p = apply_layer (at_ j) b x emb' p)
    by (destruct b; try discriminate; reflexivity).
  rewrite Hl. destruct (apply_layer (at_ j) b x emb' p) as [y|e]; simpl;
    [|reflexivity].
  apply IH. exact Hno.
Qed.

(** X6.  The dispatch of [TimestepEmbedSequential.forward].  [params]
    reaches the [CrossModalAttentionBlock] children only: a sequence
    without one computes the same for every [params], [None] included, and a
    sequence with one never returns when [params] is [None] (the block is
    then called without its second argument).  [emb] reaches the
    [TimestepBlock] children only. *)
Theorem TimestepEmbedSequential_forward_dispatch (at_ : nat -> ModulePath)
  (j : nat) (self : TimestepEmbedSequential) (x emb : T) :
  (existsb is_CrossModalAttentionBlock self = false ->
   forall p q : option T,
     TimestepEmbedSequential_forward at_ j self x emb p
     = TimestepEmbedSequential_forward at_ j self x emb q) /\
  (existsb is_CrossModalAttentionBlock self = true ->
   forall y : T,
     TimestepEmbedSequential_forward at_ j self x emb None <> Ok y) /\
  (existsb is_TimestepBlock self = false ->
   forall (emb' : T) (p : option T),
     TimestepEmbedSequential_forward at_ j self x emb p
     = TimestepEmbedSequential_forward at_ j self x emb' p).
Proof.
  split; [|split].
  - intros Hno p q. apply forward_without_cross. exact Hno.
  - intros Hc y E. apply (forward_with_cross_None at_ j self x emb) in Hc.
    rewrite E in Hc. discriminate.
  - intros Hno emb' p. apply forward_without_TimestepBlock. exact Hno.
Qed.

End Dispatch.

Lemma TimestepEmbedSequential_forward_dispatch_witness :
  TimestepEmbedSequential_forward (down_blocks 0) 0
    [BConv2d (nn.mkConv2d 1 32 3 1 1 true)] [2; 1; 16; 16] [2; 128]
    (Some [2; 16])
  = TimestepEmbedSequential_forward (down_blocks 0) 0
      [BConv2d (nn.mkConv2d 1 32 3 1 1 true)] [2; 1; 16; 16] [2; 128] None.
Proof.
  exact (proj1 (TimestepEmbedSequential_forward_dispatch (down_blocks 0) 0
                  [BConv2d (nn.mkConv2d 1 32 3 1 1 true)] [2; 1; 16; 16]
                  [2; 128])
           eq_refl (Some [2; 16]) None).
Defined.

(** ** Networks built with [use_cross_attention=False] *)

Lemma without_cross_attention_snoc (blocks : list TimestepEmbedSequential)
  (stage : TimestepEmbedSequential) :
  without_cross_attention blocks ->
  existsb is_CrossModalAttentionBlock stage = false ->
  without_cross_attention (blocks ++ [stage]).
Proof.
  intros Hb Hs. apply Forall_app; split; [exact Hb|]. constructor; auto.
Qed.

Lemma attention_layers_without_cross (cfg : Config) (ch ds : Z)
  (att : list Block) :
  use_cross_attention cfg = false ->
  attention_layers cfg ch ds = Ok att ->
  existsb is_CrossModalAttentionBlock att = false.
Proof.
  unfold attention_layers; intros Hno E. rewrite Hno in E.
  destruct (py_in ds (attention_resolutions cfg)).
  - step E a Ea. done_ok E; subst att. reflexivity.
  - done_ok E; subst att. reflexivity.
Qed.

Lemma build_down_blocks_without_cross (cfg : Config) (enc : BuildState) :
  use_cross_attention cfg = false ->
  build_down_blocks cfg = Ok enc ->
  without_cross_attention (bs_blocks enc).
Proof.
  intros Hno E. unfold build_down_blocks in E. step E c Ec.
  pose (P := fun st : BuildState => without_cross_attention (bs_blocks st)).
  apply (for_each_invariant P) in E; auto.
  - intros (level, mult) s s' _ Hs Es.
    apply down_level_step_Ok in Es. destruct Es as (s1 & E1 & Hd).
    assert (H1 : P s1).
    { apply (for_each_invariant P) in E1; auto.
      intros _ t t' _ Ht Et. apply down_res_step_Ok in Et.
      destruct Et as (r & att & _ & Eatt & ->). unfold P; simpl.
      apply without_cross_attention_snoc; [exact Ht|]. simpl.
      apply (attention_layers_without_cross cfg _ _ att Hno Eatt). }
    destruct Hd as [(_ & d & _ & ->)|(_ & ->)]; auto.
    unfold P; simpl. apply without_cross_attention_snoc; auto.
  - unfold P; simpl. repeat constructor.
Qed.

Lemma build_middle_block_without_cross (cfg : Config) (ch : Z)
  (mid : TimestepEmbedSequential) :
  use_cross_attention cfg = false ->
  build_middle_block cfg ch = Ok mid ->
  existsb is_CrossModalAttentionBlock mid = false.
Proof.
  unfold build_middle_block; intros Hno E. rewrite Hno in E.
  step E r1 Er1. step E a Ea. step E cr Ecr. step E r2 Er2.
  done_ok Ecr; subst cr. done_ok E; subst mid. reflexivity.
Qed.

Lemma build_up_blocks_without_cross (cfg : Config) (enc dec : BuildState) :
  use_cross_attention cfg = false ->
  build_up_blocks cfg enc = Ok dec ->
  without_cross_attention (bs_blocks dec).
Proof.
  intros Hno E. unfold build_up_blocks in E.
  pose (P := fun st : BuildState => without_cross_attention (bs_blocks st)).
  apply (for_each_invariant P) in E; auto.
  - intros (level, mult) s s' _ Hs Es. unfold up_level_step in Es.
    apply (for_each_invariant P) in Es; auto.
    intros i t t' _ Ht Et. apply up_res_step_Ok in Et.
    destruct Et as (c & chans & r & att & _ & _ & Eatt & _ & _ & Hcase).
    assert (Hatt := attention_layers_without_cross cfg _ _ att Hno Eatt).
    unfold P.
    destruct Hcase as [(_ & (u & _ & ->) & _)|(_ & -> & _)];
      apply without_cross_attention_snoc; auto; simpl;
      rewrite ?existsb_app, ?Hatt; reflexivity.
  - unfold P; simpl. constructor.
Qed.

Section WithoutCross.

Context {T : Type} {Sem : Semantics T}.

Lemma down_stage_without_cross (blocks : list TimestepEmbedSequential)
  (emb pf pf' : T) (st : T * list T) :
  without_cross_attention blocks ->
  down_stage blocks emb pf st = down_stage blocks emb pf' st.
Proof.
  intros Hno. unfold down_stage. apply for_each_ext.
  intros (i, module) (h, hs) Hin. apply enumerate_In in Hin.
  destruct Hin as (_ & Hin).
  unfold without_cross_attention in Hno. rewrite Forall_forall in Hno.
  unfold down_step.
  rewrite (forward_without_cross _ _ module h emb (Some pf) (Some pf'))
    by (apply Hno; exact Hin).
  reflexivity.
Qed.

Lemma up_stage_without_cross (blocks : list TimestepEmbedSequential)
  (emb pf pf' : T) (st : T * list T) :
  without_cross_attention blocks ->
  up_stage blocks emb pf st = up_stage blocks emb pf' st.
Proof.
  intros Hno. unfold up_stage. apply for_each_ext.
  intros (i, module) (h, hs) Hin. apply enumerate_In in Hin.
  destruct Hin as (_ & Hin).
  unfold without_cross_attention in Hno. rewrite Forall_forall in Hno.
  unfold up_step.
  destruct (pop hs) as [(skip, hs')|e]; simpl; [|reflexivity].
  destruct (sem_cat h skip) as [cat_in|e]; simpl; [|reflexivity].
  rewrite (forward_without_cross _ _ module cat_in emb (Some pf) (Some pf'))
    by (apply Hno; exact Hin).
  reflexivity.
Qed.

Lemma conditioning_emb (mc : Z) (te : nn.Sequential) (pe : ParameterEncoder)
  (p1 p2 t emb1 pf1 emb2 pf2 : T) :
  conditioning mc te pe p1 t = Ok (emb1, pf1) ->
  conditioning mc te pe p2 t = Ok (emb2, pf2) ->
  emb1 = emb2.
Proof.
  unfold conditioning; intros E1 E2.
  step E1 e0 Ee0. step E1 emb Eemb. step E1 pf Epf. injection E1 as <- <-.
  rewrite Ee0 in E2; cbn [bind] in E2. rewrite Eemb in E2; cbn [bind] in E2.
  step E2 pf' Epf'. injection E2 as <- <-. reflexivity.
Qed.

End WithoutCross.

(** X7.  A [UNet] built with [use_cross_attention=False] holds no
    [CrossModalAttentionBlock], and its image output does not depend on
    [params]: for every tensor semantics, two calls of [UNet.forward] that
    differ only in [params] and both return give the same [img_out]. *)
Theorem img_out_ignores_params_without_cross_attention (cfg : Config)
  (u : UNet) :
  use_cross_attention cfg = false ->
  UNet_init cfg = Ok u ->
  (without_cross_attention (u_down_blocks u) /\
   existsb is_CrossModalAttentionBlock (u_middle_block u) = false /\
   without_cross_attention (u_up_blocks u)) /\
  forall (T : Type) (Sem : Semantics T) (x p1 p2 t io1 po1 io2 po2 : T),
    UNet_forward u x p1 t = Ok (io1, po1) ->
    UNet_forward u x p2 t = Ok (io2, po2) ->
    io1 = io2.
Proof.
  intros Hno E. apply UNet_init_Ok in E.
  destruct E as (te & pe & enc & mid & dec & n & c & po & Ete & Epe & Eenc
                 & Emid & Edec & En & Ec & Epo & ->).
  assert (Hd := build_down_blocks_without_cross cfg enc Hno Eenc).
  assert (Hm := build_middle_block_without_cross cfg _ mid Hno Emid).
  assert (Hu := build_up_blocks_without_cross cfg enc dec Hno Edec).
  split; [repeat split; assumption|].
  intros T Sem x p1 p2 t io1 po1 io2 po2 E1 E2.
  unfold UNet_forward, UNet_locals in E1, E2.
  cbn [u_model_channels u_time_embed u_param_encoder u_down_blocks
       u_middle_block u_up_blocks u_img_out u_param_out] in E1, E2.
  step E1 l1 El1. step El1 c1 Ec1. destruct c1 as (emb1, pf1).
  step E2 l2 El2. step El2 c2 Ec2. destruct c2 as (emb2, pf2).
  assert (Hemb := conditioning_emb _ _ _ _ _ _ _ _ _ _ Ec1 Ec2). subst emb2.
  rewrite (down_stage_without_cross _ emb1 pf2 pf1 _ Hd) in El2.
  step El1 d1 Ed1. rewrite Ed1 in El2; cbn [bind] in El2.
  destruct d1 as (h, hs).
  rewrite (forward_without_cross _ _ mid h emb1 (Some pf2) (Some pf1) Hm)
    in El2.
  step El1 m1 Em1. rewrite Em1 in El2; cbn [bind] in El2.
  rewrite (up_stage_without_cross _ emb1 pf2 pf1 _ Hu) in El2.
  step El1 u1 Eu1. rewrite Eu1 in El2; cbn [bind] in El2.
  destruct u1 as (h', hs').
  injection El1 as <-. injection El2 as <-.
  cbn [bind] in E1, E2.
  step E1 o1 Eo1. step E2 o2 Eo2.
  step E1 q1 Eq1. step E2 q2 Eq2.
  injection E1 as <- <-. injection E2 as <- <-.
  congruence.
Qed.

Lemma img_out_ignores_params_without_cross_attention_witness :
  match UNet_init plain_config with
  | Ok u =>
      without_cross_attention (u_down_blocks u) /\
      UNet_forward u [2; 1; 16; 16] [2; 4] [2] = Ok ([2; 1; 16; 16], [2; 4]) /\
      UNet_forward u [2; 1; 16; 16] [1; 4] [2] = Ok ([2; 1; 16; 16], [2; 4])
  | Raise _ => False
  end.
Proof.
  destruct (UNet_init plain_config) as [u|] eqn:E;
    [|vm_compute in E; discriminate].
  assert (H1 : UNet_forward u [2; 1; 16; 16] [2; 4] [2]
               = Ok ([2; 1; 16; 16], [2; 4])).
  { vm_compute in E. injection E as <-. vm_compute. reflexivity. }
  assert (H2 : UNet_forward u [2; 1; 16; 16] [1; 4] [2]
               = Ok ([2; 1; 16; 16], [2; 4])).
  { vm_compute in E. injection E as <-. vm_compute. reflexivity. }
  destruct (img_out_ignores_params_without_cross_attention plain_config u
              eq_refl E) as ((Hd & _) & Hio).
  assert (Hsame := Hio _ _ _ _ _ _ _ _ _ _ H1 H2).
  split; [exact Hd|]. split; [exact H1 | exact H2].
Defined.

(** X8.  The same for the energy network: built with
    [use_cross_attention=False], the property predicted by
    [UNet_Energy.forward] does not depend on [params] (nor on [prop]): two
    calls on the same image and timesteps that both return give the same
    result. *)
Theorem property_ignores_params_without_cross_attention (ecfg : EnergyConfig)
  (e : UNet_Energy) :
  use_cross_attention (e_cfg ecfg) = false ->
  UNet_Energy_init ecfg = Ok e ->
  forall (T : Type) (Sem : Semantics T) (x p1 p2 prop1 prop2 t y1 y2 : T),
    UNet_Energy_forward e x p1 prop1 t = Ok y1 ->
    UNet_Energy_forward e x p2 prop2 t = Ok y2 ->
    y1 = y2.
Proof.
  intros Hno E. unfold UNet_Energy_init in E. cbv zeta in E.
  set (cfg := e_cfg ecfg) in *.
  step E te Ete. step E pe Epe. step E enc Eenc. step E mid Emid.
  step E l1 El1. step E l2 El2. done_ok E; subst e.
  assert (Hd := build_down_blocks_without_cross cfg enc Hno Eenc).
  assert (Hm := build_middle_block_without_cross cfg _ mid Hno Emid).
  intros T Sem x p1 p2 prop1 prop2 t y1 y2 E1 E2.
  unfold UNet_Energy_forward in E1, E2.
  cbn [e_model_channels e_time_embed e_param_encoder e_down_blocks
       e_middle_block e_property_predictor] in E1, E2.
  step E1 c1 Ec1. destruct c1 as (emb1, pf1).
  step E2 c2 Ec2. destruct c2 as (emb2, pf2).
  assert (Hemb := conditioning_emb _ _ _ _ _ _ _ _ _ _ Ec1 Ec2). subst emb2.
  rewrite (down_stage_without_cross _ emb1 pf2 pf1 _ Hd) in E2.
  step E1 d1 Ed1. rewrite Ed1 in E2; cbn [bind] in E2.
  destruct d1 as (h, hs).
  rewrite (forward_without_cross _ _ mid h emb1 (Some pf2) (Some pf1) Hm)
    in E2.
  step E1 m1 Em1. rewrite Em1 in E2; cbn [bind] in E2.
  congruence.
Qed.

Lemma property_ignores_params_without_cross_attention_witness :
  match UNet_Energy_init plain_energy_config with
  | Ok e =>
      UNet_Energy_forward e [2; 1; 16; 16] [2; 4] [2; 1] [2] = Ok [2; 1] /\
      UNet_Energy_forward e [2; 1; 16; 16] [1; 4] [2; 1] [2] = Ok [2; 1]
  | Raise _ => False
  end.
Proof.
  destruct (UNet_Energy_init plain_energy_config) as [e|] eqn:E;
    [|vm_compute in E; discriminate].
  assert (H1 : UNet_Energy_forward e [2; 1; 16; 16] [2; 4] [2; 1] [2]
               = Ok [2; 1]).
  { vm_compute in E. injection E as <-. vm_compute. reflexivity. }
  assert (H2 : UNet_Energy_forward e [2; 1; 16; 16] [1; 4] [2; 1] [2]
               = Ok [2; 1]).
  { vm_compute in E. injection E as <-. vm_compute. reflexivity. }
  assert (Hsame := property_ignores_params_without_cross_attention
                     plain_energy_config e eq_refl E _ _ _ _ _ _ _ _ _ _
                     H1 H2).
  split; [exact H1 | exact H2].
Defined.

(** ** Construction succeeds on well-formed hyper-parameters *)

Lemma for_each_seq_total {S : Type} (P : nat -> S -> Prop)
  (body : nat -> S -> result S) (a n : nat) :
  (forall i s, (a <= i < a + n)%nat -> P i s ->
               exists s', body i s = Ok s' /\ P (Datatypes.S i) s') ->
  forall s, P a s ->
            exists s', for_each (seq a n) body s = Ok s' /\ P (a + n)%nat s'.
Proof.
  revert a; induction n as [|n IH]; intros a Hstep s Hs; simpl.
  - exists s. rewrite Nat.add_0_r. auto.
  - destruct (Hstep a s ltac:(lia) Hs) as (s1 & E1 & H1).
    rewrite E1; cbn [bind].
    replace (a + Datatypes.S n)%nat with (Datatypes.S a + n)%nat by lia.
    apply IH; auto. intros i t Hi; apply Hstep; lia.
Qed.

Lemma for_each_range_total {S : Type} (P : nat -> S -> Prop)
  (body : nat -> S -> result S) (n : nat) :
  (forall i s, (i < n)%nat -> P i s ->
               exists s', body i s = Ok s' /\ P (Datatypes.S i) s') ->
  forall s, P O s -> exists s', for_each (range n) body s = Ok s' /\ P n s'.
Proof.
  intros Hstep s Hs.
  apply (for_each_seq_total P body O n); auto.
  intros i t Hi; apply Hstep; lia.
Qed.

Lemma for_each_enumerate_total {A S : Type} (P : nat -> S -> Prop)
  (body : nat * A -> S -> result S) (l : list A) :
  (forall i x s, nth_error l i = Some x -> P i s ->
                 exists s', body (i, x) s = Ok s' /\ P (Datatypes.S i) s') ->
  forall s, P O s ->
            exists s', for_each (enumerate l) body s = Ok s' /\ P (length l) s'.
Proof.
  induction l as [|x l IH] using rev_ind; intros Hstep s Hs.
  - exists s; auto.
  - destruct (IH (fun i y t Hi => Hstep i y t
                    ltac:(rewrite nth_error_app1; auto;
                          apply nth_error_Some; congruence)) s Hs)
      as (s1 & E1 & H1).
    destruct (Hstep (length l) x s1
                ltac:(rewrite nth_error_app2, Nat.sub_diag by lia; reflexivity)
                H1) as (s2 & E2 & H2).
    exists s2. rewrite enumerate_snoc, for_each_app, E1; cbn [bind for_each].
    rewrite E2; cbn [bind]. rewrite length_app; simpl.
    rewrite Nat.add_1_r. auto.
Qed.

Lemma for_each_rev_enumerate_total {A S : Type} (P : nat -> S -> Prop)
  (body : nat * A -> S -> result S) (l : list A) :
  (forall i x s, nth_error l i = Some x -> P (Datatypes.S i) s ->
                 exists s', body (i, x) s = Ok s' /\ P i s') ->
  forall s, P (length l) s ->
            exists s', for_each (rev (enumerate l)) body s = Ok s' /\ P O s'.
Proof.
  induction l as [|x l IH] using rev_ind; intros Hstep s Hs.
  - exists s; auto.
  - rewrite length_app in Hs; simpl in Hs; rewrite Nat.add_1_r in Hs.
    destruct (Hstep (length l) x s
                ltac:(rewrite nth_error_app2, Nat.sub_diag by lia; reflexivity)
                Hs) as (s1 & E1 & H1).
    destruct (IH (fun i y t Hi => Hstep i y t
                    ltac:(rewrite nth_error_app1; auto;
                          apply nth_error_Some; congruence)) s1 H1)
      as (s2 & E2 & H2).
    exists s2. rewrite enumerate_snoc, rev_app_distr; simpl.
    rewrite E1; cbn [bind]. auto.
Qed.

Lemma pop_nonempty {A : Type} (l : list A) :
  l <> [] -> exists x r, l = r ++ [x] /\ pop l = Ok (x, r).
Proof.
  intros Hne. destruct (exists_last Hne) as (r & x & ->).
  exists x, r. split; [reflexivity | apply pop_snoc].
Qed.

Section Construction.

Variable cfg : Config.
Hypothesis Hcons : constructible cfg.

Let adm := admissible_width cfg.

Lemma adm_model_channels : adm (model_channels cfg).
Proof. destruct Hcons as (_ & H & _); exact H. Qed.

Lemma adm_mult (mult : Z) : 0 < mult -> adm (mult * model_channels cfg).
Proof.
  intros Hm. destruct adm_model_channels as (Hp & H32 & Hnh).
  assert (Hh : 0 < num_heads cfg)
    by (destruct Hcons as ((_ & _ & _ & _ & _ & ? & _) & _); assumption).
  repeat split.
  - nia.
  - apply Z.mod_divide in H32; [|lia]. apply Z.mod_divide; [lia|].
    apply Z.divide_mul_r; exact H32.
  - apply Z.mod_divide in Hnh; [|lia]. apply Z.mod_divide; [lia|].
    apply Z.divide_mul_r; exact Hnh.
Qed.

Lemma adm_add (a b : Z) : adm a -> adm b -> adm (a + b).
Proof.
  intros (Ha & Ha32 & Hanh) (Hb & Hb32 & Hbnh).
  assert (Hh : 0 < num_heads cfg)
    by (destruct Hcons as ((_ & _ & _ & _ & _ & ? & _) & _); assumption).
  repeat split.
  - lia.
  - apply Z.mod_divide in Ha32, Hb32; try lia. apply Z.mod_divide; [lia|].
    apply Z.divide_add_r; assumption.
  - apply Z.mod_divide in Hanh, Hbnh; try lia. apply Z.mod_divide; [lia|].
    apply Z.divide_add_r; assumption.
Qed.

Lemma time_embed_dim_nonneg : 0 <= time_embed_dim cfg.
Proof.
  unfold time_embed_dim. destruct adm_model_channels as (Hp & _). lia.
Qed.

Lemma ResidualBlock_init_total (cin cout : Z) :
  adm cin -> adm cout ->
  exists r, ResidualBlock_init cin cout (time_embed_dim cfg) (dropout cfg) = Ok r.
Proof.
  intros (Hi & Hi32 & _) (Ho & Ho32 & _).
  assert (Ht := time_embed_dim_nonneg).
  destruct Hcons as (_ & _ & Hd0 & Hd1).
  apply Qle_bool_iff in Hd0, Hd1.
  unfold ResidualBlock_init.
  rewrite !norm_layer_eq by (assumption || lia). cbn [bind].
  rewrite !Conv2d_init_eq by lia. cbn [bind].
  rewrite Linear_init_eq by lia. cbn [bind].
  unfold nn.Dropout_init. rewrite Hd0, Hd1. cbn [andb bind].
  destruct (negb (cin =? cout)); cbn [bind]; eexists; reflexivity.
Qed.

Lemma AttentionBlock_init_total (c : Z) :
  adm c -> exists a, AttentionBlock_init c (num_heads cfg) = Ok a.
Proof.
  intros (Hc & H32 & Hnh).
  assert (Hh : 0 < num_heads cfg)
    by (destruct Hcons as ((_ & _ & _ & _ & _ & ? & _) & _); assumption).
  unfold AttentionBlock_init, py_mod.
  destruct (Z.eqb_spec (num_heads cfg) 0); [lia|]. cbn [bind].
  rewrite Hnh. cbn [Z.eqb py_assert bind].
  rewrite norm_layer_eq by (assumption || lia). cbn [bind].
  rewrite !Conv2d_init_eq by lia. cbn [bind]. eexists; reflexivity.
Qed.

Lemma CrossModalAttentionBlock_init_total (c : Z) :
  adm c ->
  exists a, CrossModalAttentionBlock_init c (param_hidden_dim cfg)
              (num_heads cfg) = Ok a.
Proof.
  intros (Hc & H32 & Hnh).
  destruct Hcons as ((_ & _ & _ & _ & Hphd & Hh & _) & _).
  unfold CrossModalAttentionBlock_init, py_mod.
  destruct (Z.eqb_spec (num_heads cfg) 0); [lia|]. cbn [bind].
  rewrite Hnh. cbn [Z.eqb py_assert bind].
  rewrite norm_layer_eq by (assumption || lia). cbn [bind].
  rewrite !Conv2d_init_eq by lia. cbn [bind].
  rewrite LayerNorm_init_eq by lia. cbn [bind].
  rewrite Linear_init_eq by lia. cbn [bind]. eexists; reflexivity.
Qed.

Lemma attention_layers_total (c ds : Z) :
  adm c -> exists att, attention_layers cfg c ds = Ok att.
Proof.
  intros Hc. unfold attention_layers.
  destruct (py_in ds (attention_resolutions cfg)); [|eexists; reflexivity].
  destruct (AttentionBlock_init_total c Hc) as (a & ->). cbn [bind].
  destruct (use_cross_attention cfg); [|eexists; reflexivity].
  destruct (CrossModalAttentionBlock_init_total c Hc) as (x & ->). cbn [bind].
  eexists; reflexivity.
Qed.

(** The state of the assembly loops: every width recorded is admissible. *)
Let sound (st : BuildState) : Prop :=
  adm (bs_ch st) /\ Forall adm (bs_chans st).

Lemma down_res_step_total (mult : Z) (st : BuildState) :
  0 < mult -> sound st ->
  exists st', down_res_step cfg mult st = Ok st' /\ sound st'.
Proof.
  intros Hm (Hch & Hchans). unfold down_res_step.
  destruct (ResidualBlock_init_total (bs_ch st) (mult * model_channels cfg)
              Hch (adm_mult mult Hm)) as (r & ->). cbn [bind].
  destruct (attention_layers_total (mult * model_channels cfg) (bs_ds st)
              (adm_mult mult Hm)) as (att & ->). cbn [bind].
  eexists; split; [reflexivity|]. split; cbn [bs_ch bs_chans].
  - apply adm_mult; exact Hm.
  - apply Forall_app; split; [exact Hchans|]. constructor; [|constructor].
    apply adm_mult; exact Hm.
Qed.

Lemma Downsample_init_total (c : Z) (b : bool) :
  adm c -> exists d, Downsample_init c b = Ok d.
Proof.
  intros (Hc & _). unfold Downsample_init. destruct b; [|eexists; reflexivity].
  rewrite Conv2d_init_eq by lia. cbn [bind]. eexists; reflexivity.
Qed.

Lemma Upsample_init_total (c : Z) (b : bool) :
  adm c -> exists u, Upsample_init c b = Ok u.
Proof.
  intros (Hc & _). unfold Upsample_init. destruct b; [|eexists; reflexivity].
  rewrite Conv2d_init_eq by lia. cbn [bind]. eexists; reflexivity.
Qed.

Lemma down_level_step_total (level : nat) (mult : Z) (st : BuildState) :
  0 < mult -> sound st ->
  exists st', down_level_step cfg (level, mult) st = Ok st' /\ sound st'.
Proof.
  intros Hm Hst. unfold down_level_step.
  destruct (for_each_range_total (fun _ s => sound s)
              (fun _ s => down_res_step cfg mult s) (num_res_blocks cfg)
              (fun i s _ Hs => down_res_step_total mult s Hm Hs) st Hst)
    as (st1 & -> & (Hch1 & Hchans1)). cbn [bind].
  destruct (negb (level =? length (channel_mult cfg) - 1)%nat).
  - destruct (Downsample_init_total (bs_ch st1) (conv_resample cfg) Hch1)
      as (d & ->). cbn [bind].
    eexists; split; [reflexivity|]. split; cbn [bs_ch bs_chans]; auto.
    apply Forall_app; split; auto.
  - eexists; split; [reflexivity|]. split; auto.
Qed.

Lemma mult_positive (i : nat) (mult : Z) :
  nth_error (channel_mult cfg) i = Some mult -> 0 < mult.
Proof.
  intros Hn. destruct Hcons as ((_ & _ & _ & _ & _ & _ & Hall) & _).
  rewrite Forall_forall in Hall. apply Hall.
  apply nth_error_In with (n := i); exact Hn.
Qed.

Lemma build_down_blocks_total :
  exists enc, build_down_blocks cfg = Ok enc /\ sound enc.
Proof.
  destruct Hcons as ((Hin & _ & Hmc & _) & _).
  unfold build_down_blocks.
  rewrite Conv2d_init_eq by lia. cbn [bind].
  destruct (for_each_enumerate_total (fun _ s => sound s)
              (down_level_step cfg) (channel_mult cfg)) with
    (s := {| bs_blocks := [[BConv2d (nn.mkConv2d (in_channels cfg)
                                       (model_channels cfg) 3 1 1 true)]];
             bs_chans := [model_channels cfg];
             bs_ch := model_channels cfg;
             bs_ds := 1 |})
    as (enc & E & Henc).
  - intros i mult s Hn Hs.
    apply down_level_step_total; [apply (mult_positive i mult Hn)|exact Hs].
  - split; cbn [bs_ch bs_chans]; [apply adm_model_channels|].
    constructor; [apply adm_model_channels | constructor].
  - exists enc; auto.
Qed.

Lemma build_middle_block_total (ch : Z) :
  adm ch -> exists mid, build_middle_block cfg ch = Ok mid.
Proof.
  intros Hch. unfold build_middle_block.
  destruct (ResidualBlock_init_total ch ch Hch Hch) as (r & ->). cbn [bind].
  destruct (AttentionBlock_init_total ch Hch) as (a & ->). cbn [bind].
  destruct (use_cross_attention cfg).
  - destruct (CrossModalAttentionBlock_init_total ch Hch) as (x & ->).
    cbn [bind]. eexists; reflexivity.
  - cbn [bind]. eexists; reflexivity.
Qed.

Let nrb : nat := num_res_blocks cfg.

(** In the decoder, [down_block_chans] holds what the remaining iterations
    will pop: [k] repeats of the current level and [lv] full levels. *)
Lemma up_res_step_total (level : nat) (mult : Z) (i k : nat) (st : BuildState) :
  0 < mult -> sound st ->
  length (bs_chans st) = Datatypes.S k ->
  exists st', up_res_step cfg level mult i st = Ok st' /\ sound st' /\
              length (bs_chans st') = k.
Proof.
  intros Hm (Hch & Hchans) Hlen. unfold up_res_step.
  destruct (pop_nonempty (bs_chans st)) as (c & chans & Hc & ->);
    [intros Hnil; rewrite Hnil in Hlen; discriminate|]. cbn [bind].
  rewrite Hc in Hchans, Hlen. apply Forall_app in Hchans.
  destruct Hchans as (Hchans & Hcadm). inversion Hcadm as [|? ? Hcc _]; subst.
  rewrite length_app in Hlen; simpl in Hlen.
  assert (Hout : adm (model_channels cfg * mult))
    by (rewrite Z.mul_comm; apply adm_mult; exact Hm).
  destruct (ResidualBlock_init_total (bs_ch st + c) (model_channels cfg * mult)
              (adm_add _ _ Hch Hcc) Hout) as (r & ->). cbn [bind].
  destruct (attention_layers_total (model_channels cfg * mult) (bs_ds st) Hout)
    as (att & ->). cbn [bind].
  destruct (negb (level =? 0)%nat && (i =? num_res_blocks cfg)%nat)%bool.
  - destruct (Upsample_init_total (model_channels cfg * mult)
                (conv_resample cfg) Hout) as (u & ->). cbn [bind].
    eexists; split; [reflexivity|]. cbn [bs_ch bs_chans].
    split; [split; [exact Hout | exact Hchans] | lia].
  - eexists; split; [reflexivity|]. cbn [bs_ch bs_chans].
    split; [split; [exact Hout | exact Hchans] | lia].
Qed.

Lemma up_level_step_total (level : nat) (mult : Z) (lv : nat)
  (st : BuildState) :
  0 < mult -> sound st ->
  length (bs_chans st) = (Datatypes.S lv * (nrb + 1))%nat ->
  exists st', up_level_step cfg (level, mult) st = Ok st' /\ sound st' /\
              length (bs_chans st') = (lv * (nrb + 1))%nat.
Proof.
  intros Hm Hst Hlen. unfold up_level_step. fold nrb.
  destruct (for_each_range_total
              (fun i s => sound s /\
                 (length (bs_chans s) + i = Datatypes.S lv * (nrb + 1))%nat)
              (fun i s => up_res_step cfg level mult i s) (nrb + 1))
    with (s := st) as (st' & E & Hs' & Hl').
  - intros i s Hi (Hs & Hl).
    destruct (up_res_step_total level mult i
                (lv * (nrb + 1) + (nrb - i))%nat s Hm Hs ltac:(lia))
      as (s' & Es & Hs' & Hl').
    exists s'. split; [exact Es|]. split; [exact Hs' | lia].
  - split; [exact Hst | lia].
  - exists st'. split; [exact E|]. split; [exact Hs' | lia].
Qed.

Lemma build_up_blocks_total (enc : BuildState) :
  sound enc ->
  length (bs_chans enc) = (length (channel_mult cfg) * (nrb + 1))%nat ->
  exists dec, build_up_blocks cfg enc = Ok dec /\ adm (bs_ch dec).
Proof.
  intros (Hch & Hchans) Hlen. unfold build_up_blocks.
  destruct (for_each_rev_enumerate_total
              (fun lv s => sound s /\
                 length (bs_chans s) = (lv * (nrb + 1))%nat)
              (up_level_step cfg) (channel_mult cfg))
    with (s := {| bs_blocks := []; bs_chans := bs_chans enc;
                  bs_ch := bs_ch enc; bs_ds := bs_ds enc |})
    as (dec & E & (Hd & _) & _).
  - intros i mult s Hn (Hs & Hl).
    destruct (up_level_step_total i mult i s (mult_positive i mult Hn) Hs Hl)
      as (s' & Es & Hs' & Hl').
    exists s'; auto.
  - split; [split; assumption | exact Hlen].
  - exists dec; auto.
Qed.

End Construction.

Lemma ParameterEncoder_init_total (pd hd od td : Z) :
  0 <= pd -> 0 <= hd -> 0 <= od -> 0 <= td ->
  exists pe, ParameterEncoder_init pd hd od td = Ok pe.
Proof.
  intros Hpd Hhd Hod Htd. unfold ParameterEncoder_init.
  rewrite !Linear_init_eq by lia.
  unfold range; cbn [seq for_each bind].
  eexists; reflexivity.
Qed.

Lemma build_time_embed_total (cfg : Config) :
  0 <= model_channels cfg -> exists te, build_time_embed cfg = Ok te.
Proof.
  intros Hmc. unfold build_time_embed, time_embed_dim.
  rewrite !Linear_init_eq by lia. cbn [bind]. eexists; reflexivity.
Qed.

(** The encoder leaves as many entries in [down_block_chans] as the decoder
    pops. *)
Lemma encoder_chans_length (cfg : Config) (enc : BuildState) :
  build_down_blocks cfg = Ok enc ->
  channel_mult cfg <> [] ->
  length (bs_chans enc)
  = (length (channel_mult cfg) * (num_res_blocks cfg + 1))%nat.
Proof.
  intros E Hne. apply build_down_blocks_lengths in E. destruct E as (Hb & Hc).
  rewrite Hc, Hb. destruct (channel_mult cfg); [contradiction|].
  simpl length. lia.
Qed.

Lemma encoder_middle_total (cfg : Config) :
  constructible cfg ->
  exists te pe enc mid,
    build_time_embed cfg = Ok te /\
    ParameterEncoder_init (param_dim cfg) (param_hidden_dim cfg)
      (param_hidden_dim cfg) (time_embed_dim cfg) = Ok pe /\
    build_down_blocks cfg = Ok enc /\
    build_middle_block cfg (bs_ch enc) = Ok mid /\
    admissible_width cfg (bs_ch enc) /\
    Forall (admissible_width cfg) (bs_chans enc).
Proof.
  intros Hcons.
  assert (Hpos := Hcons). destruct Hpos as ((_ & _ & Hmc & Hpd & Hphd & _) & _).
  destruct (build_time_embed_total cfg ltac:(lia)) as (te & Ete).
  destruct (ParameterEncoder_init_total (param_dim cfg) (param_hidden_dim cfg)
              (param_hidden_dim cfg) (time_embed_dim cfg))
    as (pe & Epe); try lia; [apply time_embed_dim_nonneg; exact Hcons|].
  destruct (build_down_blocks_total cfg Hcons) as (enc & Eenc & Hch & Hchans).
  destruct (build_middle_block_total cfg Hcons (bs_ch enc) Hch) as (mid & Emid).
  exists te, pe, enc, mid. repeat (split; [assumption|]). assumption.
Qed.

(** X9.  [UNet.__init__] succeeds on every configuration whose extents are
    positive, whose [model_channels] is a multiple of 32 and of
    [num_heads], and whose [dropout] lies in [0, 1]: no constructor raises
    and [down_block_chans.pop()] never finds the list empty. *)
Theorem UNet_init_succeeds (cfg : Config) :
  constructible cfg -> exists u, UNet_init cfg = Ok u.
Proof.
  intros Hcons.
  destruct (encoder_middle_total cfg Hcons)
    as (te & pe & enc & mid & Ete & Epe & Eenc & Emid & Hch & Hchans).
  assert (Hpos := Hcons).
  destruct Hpos as ((_ & Hout & Hmc & Hpd & Hphd & _) & _).
  assert (Hdec : exists dec, build_up_blocks cfg enc = Ok dec /\
                             admissible_width cfg (bs_ch dec)).
  { destruct (channel_mult cfg) as [|m0 rest] eqn:Hmults.
    - unfold build_up_blocks. rewrite Hmults. simpl.
      eexists; split; [reflexivity|]. exact Hch.
    - apply build_up_blocks_total; [exact Hcons | split; assumption |].
      apply encoder_chans_length; [exact Eenc|]. rewrite Hmults; discriminate. }
  destruct Hdec as (dec & Edec & (Hd & Hd32 & _)).
  unfold UNet_init. rewrite Ete, Epe, Eenc. cbn [bind].
  rewrite Emid. cbn [bind]. rewrite Edec. cbn [bind].
  rewrite norm_layer_eq by (assumption || lia). cbn [bind].
  rewrite Conv2d_init_eq by lia. cbn [bind].
  rewrite Linear_init_eq by lia. cbn [bind].
  eexists; reflexivity.
Qed.

Lemma default_config_constructible : constructible default_config.
Proof.
  unfold constructible, positive_config, admissible_width; simpl.
  repeat split; try lia; try discriminate. repeat constructor.
Qed.

Lemma UNet_init_succeeds_witness : exists u, UNet_init default_config = Ok u.
Proof. exact (UNet_init_succeeds default_config default_config_constructible). Defined.

(** X10.  [UNet_Energy] on such a configuration (with any non-negative
    [prop_dim] and [prop_hidden_dim]): construction succeeds and, on a batch
    of [N] images whose extents are positive multiples of
    [2 ^ (len(channel_mult) - 1)] and which holds more than one value per
    channel at the coarsest resolution, [forward] returns a tensor of shape
    [(N, prop_dim)] whatever [prop] is. *)
Theorem UNet_Energy_constructs_and_runs (ecfg : EnergyConfig) (N H W : Z) :
  constructible (e_cfg ecfg) ->
  0 <= prop_dim ecfg -> 0 <= prop_hidden_dim ecfg ->
  valid_batch (e_cfg ecfg) N H W ->
  normalisable_batch (e_cfg ecfg) N H W ->
  exists e,
    UNet_Energy_init ecfg = Ok e /\
    forall prop : shape,
      UNet_Energy_forward e (image_shape (e_cfg ecfg) N H W)
        (params_shape (e_cfg ecfg) N) prop (timesteps_shape N)
      = Ok [N; prop_dim ecfg].
Proof.
  intros Hcons Hpd Hphd Hbatch Hnorm.
  destruct (encoder_middle_total (e_cfg ecfg) Hcons)
    as (te & pe & enc & mid & Ete & Epe & Eenc & Emid & Hch & Hchans).
  assert (E : exists e, UNet_Energy_init ecfg = Ok e).
  { unfold UNet_Energy_init. cbv zeta.
    rewrite Ete, Epe, Eenc. cbn [bind]. rewrite Emid. cbn [bind].
    destruct Hch as (Hc & _).
    rewrite !Linear_init_eq by lia. cbn [bind]. eexists; reflexivity. }
  destruct E as (e & E). exists e. split; [exact E|].
  intros prop. apply BlockFacts.UNet_Energy_forward_shape; auto.
  destruct Hcons as (Hpos & _); exact Hpos.
Qed.

Lemma UNet_Energy_constructs_and_runs_witness :
  exists e,
    UNet_Energy_init scenario_energy_config = Ok e /\
    forall prop : shape,
      UNet_Energy_forward e [2; 1; 16; 16] [2; 4] prop [2] = Ok [2; 1].
Proof.
  refine (UNet_Energy_constructs_and_runs scenario_energy_config 2 16 16
            _ _ _ scenario_batch_valid scenario_batch_normalisable).
  - unfold constructible, admissible_width; simpl.
    repeat split; try lia; try discriminate. repeat constructor.
  - simpl; lia.
  - simpl; lia.
Defined.

(** ** The downsampling rate [ds] and [attention_resolutions] *)

Lemma for_each_ext_inv {A S : Type} (P : nat -> S -> Prop)
  (f g : A -> S -> result S) (l : list A) (a : nat) :
  (forall i x s, nth_error l i = Some x -> P (a + i)%nat s ->
     f x s = g x s /\ forall s', f x s = Ok s' -> P (a + Datatypes.S i)%nat s') ->
  forall s, P a s ->
    for_each l f s = for_each l g s /\
    forall s', for_each l f s = Ok s' -> P (a + length l)%nat s'.
Proof.
  revert a. induction l as [|x l IH]; intros a Hstep s Hs.
  - simpl. split; [reflexivity|]. intros s' E. injection E as <-.
    rewrite Nat.add_0_r. exact Hs.
  - destruct (Hstep O x s eq_refl ltac:(rewrite Nat.add_0_r; exact Hs))
      as (Hfg & Hnext).
    simpl. rewrite <- Hfg. destruct (f x s) as [s1|e]; cbn [bind].
    + specialize (Hnext s1 eq_refl).
      destruct (IH (Datatypes.S a)) with (s := s1) as (IH1 & IH2).
      * intros i y t Hy Ht.
        replace (Datatypes.S a + i)%nat with (a + Datatypes.S i)%nat in Ht by lia.
        destruct (Hstep (Datatypes.S i) y t Hy Ht) as (H1 & H2).
        split; [exact H1|]. intros t' Et.
        replace (Datatypes.S a + Datatypes.S i)%nat
          with (a + Datatypes.S (Datatypes.S i))%nat by lia.
        apply H2; exact Et.
      * replace (Datatypes.S a) with (a + 1)%nat by lia. exact Hnext.
      * split; [exact IH1|]. intros s' E.
        replace (a + Datatypes.S (length l))%nat
          with (Datatypes.S a + length l)%nat by lia.
        apply IH2; exact E.
    + split; [reflexivity | discriminate].
Qed.

Lemma nth_error_range (n i x : nat) :
  nth_error (range n) i = Some x -> x = i /\ (i < n)%nat.
Proof.
  unfold range. intros E.
  assert (Hi : (i < n)%nat).
  { rewrite <- (length_seq n 0). apply nth_error_Some. congruence. }
  rewrite nth_error_seq in E.
  destruct (Nat.ltb_spec i n); [|lia]. injection E as <-. auto.
Qed.

Lemma nth_error_enumerate {A : Type} (l : list A) (i j : nat) (x : A) :
  nth_error (enumerate l) i = Some (j, x) -> j = i /\ nth_error l i = Some x.
Proof.
  revert i. induction l as [|y l IH] using rev_ind; intros i E.
  - destruct i; discriminate.
  - rewrite enumerate_snoc in E.
    destruct (Nat.lt_ge_cases i (length (enumerate l))) as [Hi|Hi].
    + rewrite nth_error_app1 in E by exact Hi.
      destruct (IH i E) as (-> & Hx). split; [reflexivity|].
      rewrite enumerate_length in Hi. rewrite nth_error_app1 by exact Hi.
      exact Hx.
    + rewrite nth_error_app2 in E by exact Hi.
      rewrite enumerate_length in *.
      destruct (i - length l)%nat as [|k] eqn:Hk.
      * simpl in E. injection E as <- <-.
        assert (i = length l) by lia. subst i. split; [reflexivity|].
        rewrite nth_error_app2, Nat.sub_diag by lia. reflexivity.
      * simpl in E. destruct k; discriminate.
Qed.

Lemma nth_error_rev_enumerate {A : Type} (l : list A) (i j : nat) (x : A) :
  nth_error (rev (enumerate l)) i = Some (j, x) ->
  (i < length l)%nat /\ j = (length l - 1 - i)%nat /\ nth_error l j = Some x.
Proof.
  intros E.
  assert (Hi : (i < length l)%nat).
  { rewrite <- (enumerate_length l), <- length_rev.
    apply nth_error_Some. congruence. }
  rewrite nth_error_rev in E.
  rewrite enumerate_length in E.
  destruct (Nat.ltb_spec i (length l)); [|lia].
  apply nth_error_enumerate in E. destruct E as (-> & Hx).
  split; [exact Hi|]. split; [lia|].
  replace (length l - 1 - i)%nat with (length l - Datatypes.S i)%nat by lia.
  exact Hx.
Qed.

Section AttentionResolutions.

Variable cfg : Config.
Variable ar' : list Z.

Let cfg' : Config := with_attention_resolutions cfg ar'.
Let L : nat := length (channel_mult cfg).

Hypothesis Hagree : same_attention_levels L (attention_resolutions cfg) ar'.

Lemma attention_layers_agree (ch : Z) (k : nat) :
  (k < L)%nat ->
  attention_layers cfg' ch (2 ^ Z.of_nat k)
  = attention_layers cfg ch (2 ^ Z.of_nat k).
Proof.
  intros Hk. unfold attention_layers.
  change (attention_resolutions cfg') with ar'.
  rewrite <- (Hagree k Hk). reflexivity.
Qed.

Lemma down_res_step_agree (mult : Z) (k : nat) (st : BuildState) :
  (k < L)%nat -> bs_ds st = 2 ^ Z.of_nat k ->
  down_res_step cfg' mult st = down_res_step cfg mult st /\
  forall st', down_res_step cfg' mult st = Ok st' -> bs_ds st' = 2 ^ Z.of_nat k.
Proof.
  intros Hk Hds. unfold down_res_step. rewrite Hds.
  change (model_channels cfg') with (model_channels cfg).
  change (time_embed_dim cfg') with (time_embed_dim cfg).
  change (dropout cfg') with (dropout cfg).
  rewrite (attention_layers_agree _ k Hk).
  split; [reflexivity|].
  intros st' E. step E r Er. step E att Eatt. done_ok E; subst st'. reflexivity.
Qed.

Lemma down_level_step_agree (level : nat) (mult : Z) (st : BuildState) :
  (level < L)%nat -> bs_ds st = 2 ^ Z.of_nat level ->
  down_level_step cfg' (level, mult) st = down_level_step cfg (level, mult) st /\
  forall st', down_level_step cfg' (level, mult) st = Ok st' ->
              bs_ds st' = 2 ^ Z.of_nat (Nat.min (Datatypes.S level) (L - 1)).
Proof.
  intros Hl Hds. unfold down_level_step.
  change (num_res_blocks cfg') with (num_res_blocks cfg).
  change (channel_mult cfg') with (channel_mult cfg).
  change (conv_resample cfg') with (conv_resample cfg).
  destruct (for_each_ext_inv (fun _ s => bs_ds s = 2 ^ Z.of_nat level)
              (fun _ s => down_res_step cfg' mult s)
              (fun _ s => down_res_step cfg mult s)
              (range (num_res_blocks cfg)) O) with (s := st) as (Heq & Hinv).
  - intros i x s _ Hs. apply (down_res_step_agree mult level s Hl Hs).
  - exact Hds.
  - rewrite Heq. split; [reflexivity|].
    intros st' E. step E st1 E1. rewrite <- Heq in E1. apply Hinv in E1.
    fold L in E.
    destruct (Nat.eqb_spec level (L - 1)) as [He|Hne]; cbn [negb] in E.
    + done_ok E; subst st'. rewrite E1. do 2 f_equal. lia.
    + step E d Ed. done_ok E; subst st'. cbn [bs_ds]. rewrite E1.
      replace (Nat.min (Datatypes.S level) (L - 1)) with (Datatypes.S level)
        by lia.
      rewrite Nat2Z.inj_succ, Z.pow_succ_r by lia. ring.
Qed.

Lemma build_down_blocks_agree :
  build_down_blocks cfg' = build_down_blocks cfg /\
  forall enc, build_down_blocks cfg = Ok enc ->
              bs_ds enc = 2 ^ Z.of_nat (L - 1).
Proof.
  unfold build_down_blocks.
  change (in_channels cfg') with (in_channels cfg).
  change (model_channels cfg') with (model_channels cfg).
  change (channel_mult cfg') with (channel_mult cfg).
  destruct (nn.Conv2d_init (in_channels cfg) (model_channels cfg) 3 1 1 true)
    as [c|e]; cbn [bind]; [|split; [reflexivity | discriminate]].
  destruct (for_each_ext_inv
              (fun i s => bs_ds s = 2 ^ Z.of_nat (Nat.min i (L - 1)))
              (down_level_step cfg') (down_level_step cfg)
              (enumerate (channel_mult cfg)) O)
    with (s := {| bs_blocks := [[BConv2d c]];
                  bs_chans := [model_channels cfg];
                  bs_ch := model_channels cfg; bs_ds := 1 |})
    as (Heq & Hinv).
  - intros i (level, mult) s Hn Hs. apply nth_error_enumerate in Hn.
    destruct Hn as (-> & Hn).
    assert (Hi : (i < L)%nat) by (apply nth_error_Some; congruence).
    simpl in Hs. replace (Nat.min i (L - 1)) with i in Hs by lia.
    apply (down_level_step_agree i mult s Hi Hs).
  - reflexivity.
  - split; [exact Heq|]. intros enc E. rewrite <- Heq in E.
    apply Hinv in E. rewrite enumerate_length in E. fold L in E.
    simpl in E. rewrite E. do 2 f_equal. lia.
Qed.

Lemma up_res_step_agree (level : nat) (mult : Z) (i : nat) (st : BuildState) :
  (level < L)%nat -> bs_ds st = 2 ^ Z.of_nat level ->
  up_res_step cfg' level mult i st = up_res_step cfg level mult i st /\
  forall st', up_res_step cfg' level mult i st = Ok st' ->
    bs_ds st' = if upsample_here cfg level i
                then 2 ^ Z.of_nat (level - 1) else 2 ^ Z.of_nat level.
Proof.
  intros Hl Hds. unfold up_res_step. rewrite Hds.
  change (model_channels cfg') with (model_channels cfg).
  change (time_embed_dim cfg') with (time_embed_dim cfg).
  change (dropout cfg') with (dropout cfg).
  change (num_res_blocks cfg') with (num_res_blocks cfg).
  change (conv_resample cfg') with (conv_resample cfg).
  rewrite (attention_layers_agree _ level Hl).
  split; [reflexivity|].
  intros st' E. step E p Ep. destruct p as (c, chans).
  step E r Er. step E att Eatt. unfold upsample_here.
  destruct (Nat.eqb_spec level 0) as [Hz|Hz]; cbn [negb andb] in E |- *.
  - done_ok E; subst st'. reflexivity.
  - destruct (i =? num_res_blocks cfg)%nat.
    + step E u Eu. done_ok E; subst st'. cbn [bs_ds].
      replace (Z.of_nat level) with (Z.succ (Z.of_nat (level - 1))) by lia.
      rewrite Z.pow_succ_r by lia.
      rewrite Z.mul_comm, Z.div_mul by lia. reflexivity.
    + done_ok E; subst st'. reflexivity.
Qed.

Lemma up_level_step_agree (level : nat) (mult : Z) (st : BuildState) :
  (level < L)%nat -> bs_ds st = 2 ^ Z.of_nat level ->
  up_level_step cfg' (level, mult) st = up_level_step cfg (level, mult) st /\
  forall st', up_level_step cfg' (level, mult) st = Ok st' ->
              bs_ds st' = 2 ^ Z.of_nat (level - 1).
Proof.
  intros Hl Hds. unfold up_level_step.
  change (num_res_blocks cfg') with (num_res_blocks cfg).
  set (n := num_res_blocks cfg).
  destruct (for_each_ext_inv
              (fun i s => bs_ds s = if (i <=? n)%nat
                                    then 2 ^ Z.of_nat level
                                    else 2 ^ Z.of_nat (level - 1))
              (fun i s => up_res_step cfg' level mult i s)
              (fun i s => up_res_step cfg level mult i s)
              (range (n + 1)) O) with (s := st) as (Heq & Hinv).
  - intros i x s Hx Hs. apply nth_error_range in Hx. destruct Hx as (-> & Hi).
    simpl in Hs. destruct (Nat.leb_spec i n); [|lia].
    destruct (up_res_step_agree level mult i s Hl Hs) as (H1 & H2).
    split; [exact H1|]. intros s' Es. rewrite (H2 s' Es).
    unfold upsample_here. fold n. cbn [Nat.add].
    destruct (Nat.eqb_spec i n) as [->|Hne].
    + destruct (Nat.leb_spec (Datatypes.S n) n); [lia|].
      destruct (Nat.eqb_spec level 0) as [->|Hz]; reflexivity.
    + destruct (Nat.leb_spec (Datatypes.S i) n); [|lia].
      rewrite andb_false_r. reflexivity.
  - simpl. exact Hds.
  - split; [exact Heq|]. intros st' E. apply Hinv in E.
    unfold range in E. rewrite length_seq in E. simpl in E.
    destruct (Nat.leb_spec (n + 1) n); [lia|]. exact E.
Qed.

Lemma build_up_blocks_agree (enc : BuildState) :
  bs_ds enc = 2 ^ Z.of_nat (L - 1) ->
  build_up_blocks cfg' enc = build_up_blocks cfg enc.
Proof.
  intros Hds. unfold build_up_blocks.
  change (channel_mult cfg') with (channel_mult cfg).
  destruct (for_each_ext_inv
              (fun i s => bs_ds s = 2 ^ Z.of_nat (L - 1 - i))
              (up_level_step cfg') (up_level_step cfg)
              (rev (enumerate (channel_mult cfg))) O)
    with (s := {| bs_blocks := []; bs_chans := bs_chans enc;
                  bs_ch := bs_ch enc; bs_ds := bs_ds enc |})
    as (Heq & _).
  - intros i (level, mult) s Hn Hs. apply nth_error_rev_enumerate in Hn.
    fold L in Hn. destruct Hn as (Hi & -> & Hn). simpl in Hs.
    destruct (up_level_step_agree (L - 1 - i) mult s ltac:(lia) Hs)
      as (H1 & H2).
    split; [exact H1|]. intros s' Es. rewrite (H2 s' Es).
    do 2 f_equal. lia.
  - simpl. rewrite Nat.sub_0_r. exact Hds.
  - exact Heq.
Qed.

End AttentionResolutions.

(** X11.  The test [ds in attention_resolutions] only ever sees the rates
    [1, 2, ..., 2 ^ (len(channel_mult) - 1)]: two configurations that differ
    only in [attention_resolutions] and hold the same rates among these
    build the same [UNet] and the same [UNet_Energy] (or raise the same
    exception).  An entry that is not such a rate, like the 16 of the
    default [(8, 16)] with four levels, has no effect. *)
Theorem attention_resolutions_beyond_levels_unused (cfg : Config)
  (ar' : list Z) :
  same_attention_levels (length (channel_mult cfg))
    (attention_resolutions cfg) ar' ->
  UNet_init (with_attention_resolutions cfg ar') = UNet_init cfg /\
  forall pd phd : Z,
    UNet_Energy_init {| e_cfg := with_attention_resolutions cfg ar';
                        prop_dim := pd; prop_hidden_dim := phd |}
    = UNet_Energy_init {| e_cfg := cfg; prop_dim := pd;
                          prop_hidden_dim := phd |}.
Proof.
  intros Hagree.
  destruct (build_down_blocks_agree cfg ar' Hagree) as (Hdown & Hds).
  assert (Hmid : forall ch, build_middle_block (with_attention_resolutions cfg ar') ch
                            = build_middle_block cfg ch) by reflexivity.
  split.
  - unfold UNet_init.
    change (build_time_embed (with_attention_resolutions cfg ar'))
      with (build_time_embed cfg).
    change (param_dim (with_attention_resolutions cfg ar')) with (param_dim cfg).
    change (param_hidden_dim (with_attention_resolutions cfg ar'))
      with (param_hidden_dim cfg).
    change (time_embed_dim (with_attention_resolutions cfg ar'))
      with (time_embed_dim cfg).
    change (model_channels (with_attention_resolutions cfg ar'))
      with (model_channels cfg).
    change (out_channels (with_attention_resolutions cfg ar'))
      with (out_channels cfg).
    rewrite Hdown.
    destruct (build_time_embed cfg) as [te|]; cbn [bind]; [|reflexivity].
    destruct (ParameterEncoder_init (param_dim cfg) (param_hidden_dim cfg)
                (param_hidden_dim cfg) (time_embed_dim cfg)) as [pe|];
      cbn [bind]; [|reflexivity].
    destruct (build_down_blocks cfg) as [enc|] eqn:Eenc; cbn [bind];
      [|reflexivity].
    rewrite Hmid.
    destruct (build_middle_block cfg (bs_ch enc)) as [mid|]; cbn [bind];
      [|reflexivity].
    rewrite (build_up_blocks_agree cfg ar' Hagree enc (Hds enc eq_refl)).
    reflexivity.
  - intros pd phd. unfold UNet_Energy_init. cbv zeta. cbn [e_cfg].
    change (build_time_embed (with_attention_resolutions cfg ar'))
      with (build_time_embed cfg).
    change (param_dim (with_attention_resolutions cfg ar')) with (param_dim cfg).
    change (param_hidden_dim (with_attention_resolutions cfg ar'))
      with (param_hidden_dim cfg).
    change (time_embed_dim (with_attention_resolutions cfg ar'))
      with (time_embed_dim cfg).
    change (model_channels (with_attention_resolutions cfg ar'))
      with (model_channels cfg).
    rewrite Hdown.
    destruct (build_time_embed cfg) as [te|]; cbn [bind]; [|reflexivity].
    destruct (ParameterEncoder_init (param_dim cfg) (param_hidden_dim cfg)
                (param_hidden_dim cfg) (time_embed_dim cfg)) as [pe|];
      cbn [bind]; [|reflexivity].
    destruct (build_down_blocks cfg) as [enc|] eqn:Eenc; cbn [bind];
      [|reflexivity].
    rewrite Hmid. reflexivity.
Qed.

Lemma attention_resolutions_beyond_levels_unused_witness :
  UNet_init (with_attention_resolutions default_config [8])
  = UNet_init default_config.
Proof.
  refine (proj1 (attention_resolutions_beyond_levels_unused default_config [8] _)).
  intros k Hk. simpl in Hk.
  destruct k as [|[|[|[|k]]]]; [reflexivity .. | lia].
Defined.

(** ** The layout of the network *)

Section Layout.

Variable cfg : Config.

Let L : nat := length (channel_mult cfg).
Let nrb : nat := num_res_blocks cfg.

Lemma attention_layers_kinds (ch : Z) (level : nat) (att : list Block) :
  attention_layers cfg ch (2 ^ Z.of_nat level) = Ok att ->
  stage_kinds att = attention_kinds cfg level.
Proof.
  unfold attention_layers, attention_kinds; intros E.
  destruct (py_in (2 ^ Z.of_nat level) (attention_resolutions cfg)).
  - step E a Ea. destruct (use_cross_attention cfg).
    + step E c Ec. done_ok E; subst att. reflexivity.
    + done_ok E; subst att. reflexivity.
  - done_ok E; subst att. reflexivity.
Qed.

Lemma down_res_loop_layout (level : nat) (mult : Z) (st st' : BuildState) :
  bs_ds st = 2 ^ Z.of_nat level ->
  for_each (range nrb) (fun _ s => down_res_step cfg mult s) st = Ok st' ->
  bs_ds st' = 2 ^ Z.of_nat level /\
  map stage_kinds (bs_blocks st')
  = map stage_kinds (bs_blocks st)
    ++ repeat (KResidualBlock :: attention_kinds cfg level) nrb.
Proof.
  intros Hds E.
  apply (for_each_range_ind
           (fun j s => bs_ds s = 2 ^ Z.of_nat level /\
              map stage_kinds (bs_blocks s)
              = map stage_kinds (bs_blocks st)
                ++ repeat (KResidualBlock :: attention_kinds cfg level) j))
    in E; auto.
  - intros i s s' _ (Hs & Hk) Es. apply down_res_step_Ok in Es.
    destruct Es as (r & att & _ & Eatt & ->). cbn [bs_ds bs_blocks].
    split; [exact Hs|]. rewrite Hs in Eatt.
    apply attention_layers_kinds in Eatt.
    rewrite map_app, Hk, BlockFacts.repeat_snoc, app_assoc. simpl.
    rewrite Eatt. reflexivity.
  - split; [exact Hds|]. simpl. rewrite app_nil_r. reflexivity.
Qed.

Lemma build_down_blocks_layout (enc : BuildState) :
  build_down_blocks cfg = Ok enc ->
  bs_ds enc = 2 ^ Z.of_nat (L - 1) /\
  map stage_kinds (bs_blocks enc) = encoder_layout cfg.
Proof.
  unfold build_down_blocks; intros E. step E c Ec.
  apply (for_each_enumerate_ind
           (fun i s => bs_ds s = 2 ^ Z.of_nat (Nat.min i (L - 1)) /\
              map stage_kinds (bs_blocks s)
              = [KConv2d] :: flat_map (encoder_level_layout cfg) (seq 0 i)))
    in E.
  - fold L in E. destruct E as (Hds & Hk). split; [|exact Hk].
    rewrite Hds. do 2 f_equal. lia.
  - intros i mult s s' Hn (Hds & Hk) Es.
    assert (Hi : (i < L)%nat) by (apply nth_error_Some; congruence).
    replace (Nat.min i (L - 1)) with i in Hds by lia.
    apply down_level_step_Ok in Es. destruct Es as (s1 & E1 & Hd).
    apply (down_res_loop_layout i mult s s1 Hds) in E1.
    destruct E1 as (Hds1 & Hk1). fold L in Hd.
    rewrite seq_S, flat_map_app. cbn [Nat.add flat_map].
    rewrite app_nil_r. unfold encoder_level_layout at 2. fold L nrb.
    destruct Hd as [(Hne & d & _ & ->)|(He & ->)]; cbn [bs_ds bs_blocks].
    + destruct (Nat.eqb_spec i (L - 1)); [contradiction|]. split.
      * rewrite Hds1.
        replace (Nat.min (Datatypes.S i) (L - 1)) with (Datatypes.S i) by lia.
        rewrite Nat2Z.inj_succ, Z.pow_succ_r by lia. ring.
      * rewrite map_app, Hk1, Hk. simpl. rewrite <- !app_assoc. reflexivity.
    + destruct (Nat.eqb_spec i (L - 1)); [|contradiction]. split.
      * rewrite Hds1. do 2 f_equal. lia.
      * rewrite Hk1, Hk. simpl. rewrite app_nil_r. reflexivity.
  - split; reflexivity.
Qed.

Lemma build_middle_block_layout (ch : Z) (mid : TimestepEmbedSequential) :
  build_middle_block cfg ch = Ok mid -> stage_kinds mid = middle_layout cfg.
Proof.
  unfold build_middle_block, middle_layout; intros E.
  step E r1 Er1. step E a Ea. step E cr Ecr. step E r2 Er2.
  done_ok E; subst mid.
  destruct (use_cross_attention cfg).
  - step Ecr c Ec. done_ok Ecr; subst cr. reflexivity.
  - done_ok Ecr; subst cr. reflexivity.
Qed.

Lemma up_level_step_layout (level : nat) (mult : Z) (st st' : BuildState) :
  bs_ds st = 2 ^ Z.of_nat level ->
  up_level_step cfg (level, mult) st = Ok st' ->
  bs_ds st' = 2 ^ Z.of_nat (level - 1) /\
  map stage_kinds (bs_blocks st')
  = map stage_kinds (bs_blocks st) ++ decoder_level_layout cfg level.
Proof.
  intros Hds E. unfold up_level_step in E. fold nrb in E.
  apply (for_each_range_ind
           (fun j s =>
              bs_ds s = (if (j <=? nrb)%nat then 2 ^ Z.of_nat level
                         else 2 ^ Z.of_nat (level - 1)) /\
              map stage_kinds (bs_blocks s)
              = map stage_kinds (bs_blocks st)
                ++ (if (j <=? nrb)%nat
                    then repeat (KResidualBlock :: attention_kinds cfg level) j
                    else decoder_level_layout cfg level)))
    in E.
  - destruct (Nat.leb_spec (nrb + 1) nrb); [lia|]. exact E.
  - intros i s s' Hi (Hs & Hk) Es.
    destruct (Nat.leb_spec i nrb); [|lia].
    apply up_res_step_Ok in Es.
    destruct Es as (c & chans & r & att & _ & _ & Eatt & _ & _ & Hcase).
    rewrite Hs in Eatt. apply attention_layers_kinds in Eatt.
    assert (Hplain : stage_kinds (BResidualBlock r :: att)
                     = KResidualBlock :: attention_kinds cfg level)
      by (unfold stage_kinds in *; simpl; rewrite Eatt; reflexivity).
    assert (Hup : forall u, stage_kinds (BResidualBlock r :: att ++ [BUpsample u])
                            = KResidualBlock :: attention_kinds cfg level
                              ++ [KUpsample])
      by (intros u; unfold stage_kinds in *; simpl; rewrite map_app, Eatt;
          reflexivity).
    destruct Hcase as [((Hz & ->) & (u & _ & Hb) & Hd)|(Hn & Hb & Hd)].
    + fold nrb. destruct (Nat.leb_spec (Datatypes.S nrb) nrb); [lia|]. split.
      * rewrite Hd, Hs.
        replace (Z.of_nat level) with (Z.succ (Z.of_nat (level - 1))) by lia.
        rewrite Z.pow_succ_r by lia.
        rewrite Z.mul_comm, Z.div_mul by lia. reflexivity.
      * rewrite Hb, map_app, Hk. cbn [map]. rewrite Hup.
        unfold decoder_level_layout. fold nrb.
        destruct (Nat.eqb_spec level 0); [contradiction|].
        rewrite <- app_assoc. reflexivity.
    + rewrite Hd, Hs, Hb, map_app, Hk. cbn [map]. rewrite Hplain.
      destruct (Nat.eq_dec i nrb) as [->|Hne].
      * assert (Hl0 : level = O).
        { destruct level; [reflexivity|]. exfalso. apply Hn. fold nrb. auto. }
        subst level.
        destruct (Nat.leb_spec (Datatypes.S nrb) nrb); [lia|].
        split; [reflexivity|]. unfold decoder_level_layout. fold nrb.
        cbn [Nat.eqb]. rewrite app_nil_r, <- app_assoc. reflexivity.
      * destruct (Nat.leb_spec (Datatypes.S i) nrb); [|lia].
        split; [reflexivity|].
        rewrite BlockFacts.repeat_snoc, <- app_assoc. reflexivity.
  - simpl. split; [exact Hds|]. rewrite app_nil_r. reflexivity.
Qed.

Lemma build_up_blocks_layout (enc dec : BuildState) :
  bs_ds enc = 2 ^ Z.of_nat (L - 1) ->
  build_up_blocks cfg enc = Ok dec ->
  bs_ds dec = 1 /\
  map stage_kinds (bs_blocks dec) = decoder_layout cfg.
Proof.
  intros Hds E. unfold build_up_blocks in E.
  apply (for_each_rev_enumerate_ind
           (fun i s => bs_ds s = 2 ^ Z.of_nat (i - 1) /\
              map stage_kinds (bs_blocks s)
              = flat_map (decoder_level_layout cfg) (rev (seq i (L - i)))))
    in E.
  - destruct E as (Hd & Hk). rewrite Nat.sub_0_r in Hk. split; auto.
  - intros i mult s s' Hn (Hs & Hk) Es.
    assert (Hi : (i < L)%nat) by (apply nth_error_Some; congruence).
    replace (Datatypes.S i - 1)%nat with i in Hs by lia.
    apply (up_level_step_layout i mult s s' Hs) in Es.
    destruct Es as (Hs' & Hk'). split; [exact Hs'|].
    rewrite Hk', Hk.
    replace (L - i)%nat with (Datatypes.S (L - Datatypes.S i)) by lia.
    cbn [seq rev]. rewrite flat_map_app. simpl. rewrite app_nil_r.
    reflexivity.
  - cbn [bs_ds bs_blocks]. fold L. rewrite Nat.sub_diag. simpl.
    split; [exact Hds | reflexivity].
Qed.

End Layout.

(** X12.  The layout of a constructed [UNet], in closed form.  The running
    downsampling rate [ds] of the assembly loops is [2 ^ level] throughout
    the stages of [level], in the encoder and in the decoder alike, so both
    place their attention blocks on the levels whose rate is in
    [attention_resolutions]; every level but the last ends in a
    [Downsample] stage and every level but level 0 in an [Upsample]; the
    middle block always holds an [AttentionBlock]. *)
Theorem UNet_layout (cfg : Config) (u : UNet) :
  UNet_init cfg = Ok u ->
  map stage_kinds (u_down_blocks u) = encoder_layout cfg /\
  stage_kinds (u_middle_block u) = middle_layout cfg /\
  map stage_kinds (u_up_blocks u) = decoder_layout cfg.
Proof.
  intros E. apply UNet_init_Ok in E.
  destruct E as (te & pe & enc & mid & dec & n & c & po & _ & _ & Eenc
                 & Emid & Edec & _ & _ & _ & ->).
  cbn [u_down_blocks u_middle_block u_up_blocks].
  destruct (build_down_blocks_layout cfg enc Eenc) as (Hds & Hk).
  destruct (build_up_blocks_layout cfg enc dec Hds Edec) as (_ & Hk').
  split; [exact Hk|]. split; [|exact Hk'].
  apply (build_middle_block_layout cfg _ mid Emid).
Qed.

Lemma UNet_layout_witness :
  match UNet_init scenario_config with
  | Ok u =>
      map stage_kinds (u_down_blocks u)
      = [[KConv2d]; [KResidualBlock]; [KDownsample];
         [KResidualBlock; KAttentionBlock; KCrossModalAttentionBlock]] /\
      map stage_kinds (u_up_blocks u)
      = [[KResidualBlock; KAttentionBlock; KCrossModalAttentionBlock];
         [KResidualBlock; KAttentionBlock; KCrossModalAttentionBlock;
          KUpsample];
         [KResidualBlock]; [KResidualBlock]]
  | Raise _ => False
  end.
Proof.
  destruct (UNet_init scenario_config) as [u|] eqn:E;
    [|vm_compute in E; discriminate].
  destruct (UNet_layout scenario_config u E) as (Hd & _ & Hu).
  split; [exact Hd | exact Hu].
Defined.

(** ** The attention of the two blocks on values *)

Module AttentionFacts.

Import CrossAttention Attention CrossAttentionFacts.
Local Open Scope R_scope.

Lemma sum_upto_ext (n : nat) (f g : nat -> R) :
  (forall i, f i = g i) -> sum_upto n f = sum_upto n g.
Proof.
  intros Hfg. induction n as [|n IH]; simpl; [reflexivity|].
  rewrite IH, Hfg. reflexivity.
Qed.

Lemma sum_upto_scal_r (n : nat) (f : nat -> R) (c : R) :
  sum_upto n (fun i => f i * c) = sum_upto n f * c.
Proof.
  induction n as [|n IH]; simpl; [ring|]. rewrite IH. ring.
Qed.

Lemma scale_squared (C num_heads : Z) :
  (0 < C / num_heads)%Z ->
  scale C num_heads * scale C num_heads = / sqrt (IZR (C / num_heads)).
Proof.
  intros Hd. unfold scale.
  assert (Hpos : 0 < IZR (C / num_heads)) by (apply IZR_lt; exact Hd).
  assert (Hs : 0 < sqrt (IZR (C / num_heads))) by (apply sqrt_lt_R0; exact Hpos).
  assert (Hss : 0 < sqrt (sqrt (IZR (C / num_heads))))
    by (apply sqrt_lt_R0; exact Hs).
  rewrite <- (sqrt_sqrt (sqrt (IZR (C / num_heads)))) at 3 by lra.
  field. lra.
Qed.

Lemma softmax_last_sums_to_1 (Sd : nat) (attn : tensor3) (b t : nat) :
  (0 < Sd)%nat -> sum_upto Sd (fun s => softmax_last Sd attn b t s) = 1.
Proof.
  intros HS. unfold softmax_last.
  rewrite (sum_upto_div Sd (fun s => exp (attn b t s))).
  apply Rdiv_diag. apply Rgt_not_eq, Rlt_gt.
  apply sum_upto_pos; auto. intros s; apply exp_pos.
Qed.

End AttentionFacts.

(** X13.  Both attention blocks multiply the queries and the keys by
    [1 / sqrt(sqrt(C // num_heads))] before the product, so that the logits
    are the dot products of queries and keys divided by
    [sqrt(C // num_heads)], the square root of the width of a head (for a
    positive head width, on real numbers). *)
Theorem attention_logits_scaled_by_head_width (C num_heads : Z)
  (q k : CrossAttention.tensor3) (b t s : nat) :
  0 < C / num_heads ->
  Attention.logits C num_heads q k b t s
  = (CrossAttention.einsum_bct_bcs_bts (Z.to_nat (C / num_heads)) q k b t s
     / sqrt (IZR (C / num_heads)))%R.
Proof.
  intros Hd. unfold Attention.logits, CrossAttention.einsum_bct_bcs_bts,
    CrossAttention.mul_scalar.
  rewrite (AttentionFacts.sum_upto_ext _ _
             (fun c => (q b c t * k b c s
                        * (CrossAttention.scale C num_heads
                           * CrossAttention.scale C num_heads))%R))
    by (intros i; ring).
  rewrite AttentionFacts.sum_upto_scal_r, AttentionFacts.scale_squared
    by exact Hd.
  reflexivity.
Qed.

Lemma attention_logits_scaled_by_head_width_witness :
  Attention.logits 64 4 (fun _ _ _ => 1%R) (fun _ _ _ => 1%R) O O O
  = (CrossAttention.einsum_bct_bcs_bts (Z.to_nat (64 / 4))
       (fun _ _ _ => 1%R) (fun _ _ _ => 1%R) O O O / sqrt (IZR (64 / 4)))%R.
Proof.
  apply (attention_logits_scaled_by_head_width 64 4). reflexivity.
Defined.

(** X14.  The weights of [AttentionBlock.forward] are normalised along the
    last axis of the [B*nh, H*W, H*W] logits, the keys: for every
    batch-and-head index [b] and every query position [t] they are positive
    and sum to 1 over the [H*W] key positions.  (The cross-modal block
    normalises along axis 1 instead.) *)
Theorem self_attention_weights_sum_over_keys (C num_heads H W : Z)
  (q k : CrossAttention.tensor3) (b t : nat) :
  0 < H * W ->
  CrossAttention.sum_upto (Z.to_nat (H * W))
    (fun s => Attention.self_attention_weights C num_heads H W q k b t s) = 1%R /\
  forall s, (0 < Attention.self_attention_weights C num_heads H W q k b t s)%R.
Proof.
  intros HW. unfold Attention.self_attention_weights. split.
  - apply AttentionFacts.softmax_last_sums_to_1. lia.
  - intros s. unfold CrossAttention.softmax_last.
    apply Rdiv_lt_0_compat; [apply exp_pos|].
    apply CrossAttentionFacts.sum_upto_pos; [lia|]. intros s'; apply exp_pos.
Qed.

Lemma self_attention_weights_sum_over_keys_witness :
  CrossAttention.sum_upto (Z.to_nat (2 * 2))
    (fun s => Attention.self_attention_weights 32 2 2 2
                (fun _ _ _ => 1%R) (fun _ _ _ => 1%R) O O s) = 1%R.
Proof.
  apply (self_attention_weights_sum_over_keys 32 2 2 2). lia.
Defined.

(** X15.  With its single key, the attended value of
    [CrossModalAttentionBlock.forward] at position [t] of channel [c] is the
    weight of [t] times the one value of [c]: each value is spread over the
    [H*W] positions by the spatial softmax, and summing a channel over the
    positions gives the value back. *)
Theorem cross_attention_spreads_value (C num_heads H W : Z)
  (q k v : CrossAttention.tensor3) (b c : nat) :
  0 < H * W ->
  (forall t,
     Attention.cross_attention C num_heads H W q k v b c t
     = (CrossAttention.attention_weights C num_heads H W q k b t O
        * v b c O)%R) /\
  CrossAttention.sum_upto (Z.to_nat (H * W))
    (fun t => Attention.cross_attention C num_heads H W q k v b c t)
  = v b c O.
Proof.
  intros HW.
  assert (Hpt : forall t,
            Attention.cross_attention C num_heads H W q k v b c t
            = (CrossAttention.attention_weights C num_heads H W q k b t O
               * v b c O)%R).
  { intros t. unfold Attention.cross_attention, Attention.einsum_bts_bcs_bct.
    simpl. ring. }
  split; [exact Hpt|].
  rewrite (AttentionFacts.sum_upto_ext _ _ _ Hpt).
  rewrite AttentionFacts.sum_upto_scal_r.
  unfold CrossAttention.attention_weights.
  rewrite CrossAttentionFacts.softmax_dim1_sums_to_1 by lia.
  ring.
Qed.

Lemma cross_attention_spreads_value_witness :
  CrossAttention.sum_upto (Z.to_nat (2 * 2))
    (fun t => Attention.cross_attention 32 2 2 2
                (fun _ _ _ => 1%R) (fun _ _ _ => 1%R) (fun _ _ _ => 3%R) O O t)
  = 3%R.
Proof.
  exact (proj2 (cross_attention_spreads_value 32 2 2 2
                  (fun _ _ _ => 1%R) (fun _ _ _ => 1%R) (fun _ _ _ => 3%R)
                  O O ltac:(lia))).
Defined.

(** ** [timestep_embedding]: layout, errors and ranges *)

Section TimestepEmbeddingLayout.

Context {F : Type} {ops : FloatOps F}.

Lemma nth_error_upto (n k : Z) :
  0 <= k < n -> nth_error (upto n) (Z.to_nat k) = Some k.
Proof.
  intros Hk. unfold upto.
  rewrite nth_error_map, nth_error_seq.
  destruct (Nat.ltb_spec (Z.to_nat k) (Z.to_nat n)); [|lia].
  simpl. f_equal. lia.
Qed.

(** X16.  For [dim >= 0] other than 1, [timestep_embedding] returns one row
    per timestep, each [dim] wide: column [k] below [half = dim // 2] holds
    [cos(t * freqs[k])], column [half + k] holds [sin(t * freqs[k])], and for
    an odd [dim] the last column holds zero, whatever the float operations
    compute. *)
Theorem timestep_embedding_layout (timesteps : list F) (dim : Z)
  (max_period lg : F) :
  math_log max_period = Ok lg ->
  0 <= dim -> dim <> 1 ->
  exists rows,
    timestep_embedding timesteps dim max_period = Ok rows /\
    length rows = length timesteps /\
    forall n t row,
      nth_error timesteps n = Some t -> nth_error rows n = Some row ->
      Z.of_nat (length row) = dim /\
      (forall k, 0 <= k < dim / 2 ->
         nth_error row (Z.to_nat k)
         = Some (f_cos (f_mul t (freq lg (dim / 2) k))) /\
         nth_error row (Z.to_nat (dim / 2 + k))
         = Some (f_sin (f_mul t (freq lg (dim / 2) k)))) /\
      (dim mod 2 <> 0 -> nth_error row (Z.to_nat (dim - 1)) = Some f_zero).
Proof.
  intros Hlg Hd H1.
  destruct (timestep_embedding_rows timesteps dim max_period lg Hlg Hd H1)
    as (E & Hlen).
  exists (map (embedding_row lg dim) timesteps).
  split; [exact E|]. split; [apply length_map|].
  intros n t row Ht Hrow.
  rewrite nth_error_map, Ht in Hrow. simpl in Hrow. injection Hrow as <-.
  split; [apply Hlen|].
  assert (Hhalf : 0 <= dim / 2) by (apply Z.div_pos; lia).
  assert (Hl := upto_length (dim / 2) Hhalf).
  assert (Hdm : dim = 2 * (dim / 2) + dim mod 2) by (apply Z.div_mod; lia).
  assert (Hm : 0 <= dim mod 2 < 2) by (apply Z.mod_pos_bound; lia).
  unfold embedding_row. split.
  - intros k Hk. split.
    + rewrite nth_error_app1 by (rewrite length_map; lia).
      rewrite nth_error_map, (nth_error_upto _ _ Hk). reflexivity.
    + rewrite nth_error_app2 by (rewrite length_map; lia).
      rewrite length_map.
      replace (Z.to_nat (dim / 2 + k) - length (upto (dim / 2)))%nat
        with (Z.to_nat k) by lia.
      rewrite nth_error_app1 by (rewrite length_map; lia).
      rewrite nth_error_map, (nth_error_upto _ _ Hk). reflexivity.
  - intros Hodd.
    destruct (Z.eqb_spec (dim mod 2) 0); [contradiction|].
    rewrite nth_error_app2 by (rewrite length_map; lia).
    rewrite nth_error_app2 by (rewrite !length_map; lia).
    rewrite !length_map.
    replace (Z.to_nat (dim - 1) - length (upto (dim / 2))
             - length (upto (dim / 2)))%nat with O by lia.
    reflexivity.
Qed.

(** X17.  The two ways [timestep_embedding] raises: the exception of
    [math.log(max_period)] comes first, and for a negative [dim] the range
    [torch.arange(0, dim // 2)] is refused with [RuntimeError].  [dim = 0]
    is accepted and gives rows without columns. *)
Theorem timestep_embedding_errors (timesteps : list F) (dim : Z)
  (max_period : F) :
  (forall e, math_log max_period = Raise e ->
             timestep_embedding timesteps dim max_period = Raise e) /\
  (forall lg, math_log max_period = Ok lg -> dim < 0 ->
              timestep_embedding timesteps dim max_period
              = Raise RuntimeError) /\
  (forall lg, math_log max_period = Ok lg -> dim = 0 ->
              timestep_embedding timesteps dim max_period
              = Ok (map (fun _ => []) timesteps)).
Proof.
  unfold timestep_embedding. split; [|split].
  - intros e ->. reflexivity.
  - intros lg -> Hd. cbn [bind]. unfold arange.
    assert (Hh : dim / 2 < 0) by (apply Z.div_lt_upper_bound; lia).
    destruct (Z.ltb_spec (dim / 2) 0); [reflexivity | lia].
  - intros lg -> ->. simpl. f_equal.
    unfold cat_cols, outer.
    induction timesteps as [|t ts IH]; simpl; [reflexivity|].
    f_equal; exact IH.
Qed.

End TimestepEmbeddingLayout.

Lemma timestep_embedding_layout_witness :
  exists rows,
    timestep_embedding [0%R; 1%R] 5 10000%R = Ok rows /\
    length rows = 2%nat.
Proof.
  destruct (timestep_embedding_layout [0%R; 1%R] 5 10000%R (ln 10000)
              math_log_10000 ltac:(lia) ltac:(lia))
    as (rows & E & Hl & _).
  exists rows. split; [exact E | exact Hl].
Defined.

Lemma timestep_embedding_errors_witness :
  timestep_embedding [0%R] (-2) 10000%R = Raise RuntimeError.
Proof.
  exact (proj1 (proj2 (timestep_embedding_errors [0%R] (-2) 10000%R))
           (ln 10000) math_log_10000 ltac:(lia)).
Defined.

Module TimestepEmbeddingReal.

Local Open Scope R_scope.

Lemma freq_real (lg : R) (half i : Z) :
  freq lg half i = exp (- lg * IZR i / IZR half).
Proof. reflexivity. Qed.

Lemma Forall_cat_cols (P : R -> Prop) (a b : list (list R)) :
  Forall (Forall P) a -> Forall (Forall P) b ->
  Forall (Forall P) (cat_cols a b).
Proof.
  intros Ha. revert b. induction Ha as [|x a Hx Ha IH]; intros b Hb.
  - constructor.
  - destruct Hb as [|y b Hy Hb]; [constructor|].
    unfold cat_cols; simpl. constructor.
    + apply Forall_app; split; assumption.
    + apply IH; exact Hb.
Qed.

Lemma Forall_map_rows (P : R -> Prop) (f : R -> R) (x : list (list R)) :
  (forall v, P (f v)) -> Forall (Forall P) (map (map f) x).
Proof.
  intros Hf. apply Forall_forall. intros row Hrow.
  apply in_map_iff in Hrow. destruct Hrow as (r & <- & _).
  apply Forall_forall. intros v Hv.
  apply in_map_iff in Hv. destruct Hv as (w & <- & _). apply Hf.
Qed.

End TimestepEmbeddingReal.

(** X18.  On real numbers and for [max_period > 1], the frequencies
    [freqs[i] = exp(-log(max_period) * i / half)], [0 <= i < half], start at
    [freqs[0] = 1], decrease with [i] and stay above [1 / max_period], the
    minimum frequency the docstring speaks of. *)
Theorem frequencies_between_period_and_one (max_period : R) (half i : Z) :
  (1 < max_period)%R -> 0 <= i < half ->
  (/ max_period < freq (ln max_period) half i <= 1)%R /\
  freq (ln max_period) half 0 = 1%R /\
  (forall j, i < j < half ->
             (freq (ln max_period) half j < freq (ln max_period) half i)%R).
Proof.
  intros Hmp Hi.
  assert (Hln : (0 < ln max_period)%R).
  { rewrite <- ln_1. apply ln_increasing; lra. }
  assert (Hh : (0 < IZR half)%R) by (apply IZR_lt; lia).
  assert (Hi0 : (0 <= IZR i)%R) by (apply IZR_le; lia).
  assert (Hih : (IZR i < IZR half)%R) by (apply IZR_lt; lia).
  rewrite !TimestepEmbeddingReal.freq_real.
  assert (Hx0 : (0 <= IZR i / IZR half)%R)
    by (apply Rle_mult_inv_pos; assumption).
  assert (Hx1 : (IZR i / IZR half < 1)%R).
  { apply Rmult_lt_reg_r with (r := IZR half); [exact Hh|].
    unfold Rdiv. rewrite Rmult_assoc, Rinv_l by lra. lra. }
  replace (- ln max_period * IZR i / IZR half)%R
    with (- (ln max_period * (IZR i / IZR half)))%R by (unfold Rdiv; ring).
  split; [split|split].
  - replace (/ max_period)%R with (exp (- ln max_period)).
    + apply exp_increasing. apply Ropp_lt_contravar.
      rewrite <- (Rmult_1_r (ln max_period)) at 2.
      apply Rmult_lt_compat_l; assumption.
    + rewrite exp_Ropp, exp_ln by lra. reflexivity.
  - rewrite <- exp_0.
    destruct (Rle_lt_or_eq_dec _ _ Hx0) as [Hlt|Heq].
    + left. apply exp_increasing.
      assert (0 < ln max_period * (IZR i / IZR half))%R
        by (apply Rmult_lt_0_compat; assumption).
      lra.
    + right. rewrite <- Heq, Rmult_0_r, Ropp_0. reflexivity.
  - unfold Rdiv. rewrite Rmult_0_r, Rmult_0_l. apply exp_0.
  - intros j Hj.
    assert (Hij : (IZR i < IZR j)%R) by (apply IZR_lt; lia).
    rewrite TimestepEmbeddingReal.freq_real.
    replace (- ln max_period * IZR j / IZR half)%R
      with (- (ln max_period * (IZR j / IZR half)))%R by (unfold Rdiv; ring).
    apply exp_increasing. apply Ropp_lt_contravar.
    apply Rmult_lt_compat_l; [exact Hln|].
    unfold Rdiv. apply Rmult_lt_compat_r; [apply Rinv_0_lt_compat; exact Hh|].
    exact Hij.
Qed.

Lemma frequencies_between_period_and_one_witness :
  (/ 10000 < freq (ln 10000) 64 63 <= 1)%R.
Proof.
  exact (proj1 (frequencies_between_period_and_one 10000%R 64 63
                  ltac:(lra) ltac:(lia))).
Defined.

(** X19.  On real numbers every entry of the embedding lies in [-1, 1]:
    the columns are cosines, sines and zeros. *)
Theorem timestep_embedding_entries_bounded (timesteps : list R) (dim : Z)
  (max_period : R) (rows : list (list R)) :
  timestep_embedding timesteps dim max_period = Ok rows ->
  Forall (Forall (fun v => (-1 <= v <= 1)%R)) rows.
Proof.
  unfold timestep_embedding. intros E.
  step E lg Elg. step E indices Eind.
  set (args := outer timesteps (map (freq lg (dim / 2)) indices)) in E.
  assert (Hemb : Forall (Forall (fun v => (-1 <= v <= 1)%R))
                   (cat_cols (map (map f_cos) args) (map (map f_sin) args))).
  { apply TimestepEmbeddingReal.Forall_cat_cols;
      apply TimestepEmbeddingReal.Forall_map_rows; intros v;
      [apply COS_bound | apply SIN_bound]. }
  destruct (negb (dim mod 2 =? 0)%Z); done_ok E; subst rows; [|exact Hemb].
  apply TimestepEmbeddingReal.Forall_cat_cols; [exact Hemb|].
  unfold zeros_like.
  apply TimestepEmbeddingReal.Forall_map_rows. intros _. simpl. lra.
Qed.

Lemma timestep_embedding_entries_bounded_witness :
  exists rows,
    timestep_embedding [0%R; 1%R] 5 10000%R = Ok rows /\
    Forall (Forall (fun v => (-1 <= v <= 1)%R)) rows.
Proof.
  destruct (timestep_embedding_rows [0%R; 1%R] 5 10000%R (ln 10000)
              math_log_10000 ltac:(lia) ltac:(lia)) as (E & _).
  eexists. split; [exact E|].
  exact (timestep_embedding_entries_bounded _ _ _ _ E).
Defined.

(** ** [train-energy.py]: the epochs a run trains *)

Module TrainEnergyFacts.

Import String.
Import TrainEnergy.

Lemma training_events_app (l1 l2 : list event) :
  training_events (l1 ++ l2) = training_events l1 ++ training_events l2.
Proof. apply filter_app. Qed.

Lemma schedule_cons (config : value) (epoch : Z) (epochs : list Z) :
  schedule config (epoch :: epochs)
  = EvTrainEpoch epoch :: EvStep epoch config :: schedule config epochs.
Proof. reflexivity. Qed.

Section Runs.

Variable X : Externals.

Lemma bind_Return_inv {A B : Type} (m : M X A) (k : A -> M X B)
  (st st' : World X * list event) (b : B) :
  TrainEnergy.bind X m k st = (st', Return b) ->
  exists a st1, m st = (st1, Return a) /\ k a st1 = (st', Return b).
Proof.
  unfold TrainEnergy.bind. destruct (m st) as (st1, [a|e]); intros E.
  - exists a, st1. auto.
  - discriminate.
Qed.

Lemma lift_inv {A : Type} (o : outcome A) (st st' : World X * list event)
  (a : A) :
  lift X o st = (st', Return a) -> st' = st /\ o = Return a.
Proof. unfold lift. intros E. injection E as <- ->. auto. Qed.

Lemma call_inv {A : Type} (ev : event) (f : World X -> World X * outcome A)
  (st st' : World X * list event) (a : A) :
  call X ev f st = (st', Return a) ->
  exists w', f (fst st) = (w', Return a) /\ st' = (w', snd st ++ [ev]).
Proof.
  unfold call. destruct st as (w, log). simpl.
  destruct (f w) as (w', r). intros E. injection E as <- ->.
  exists w'. auto.
Qed.

(** One inversion step of a run that returned: [m] of [bind m k] returned
    too. *)
Tactic Notation "inv_bind" hyp(H) ident(a) ident(st) ident(E) :=
  apply bind_Return_inv in H; destruct H as (a & st & E & H).

Tactic Notation "inv_lift" hyp(E) :=
  apply lift_inv in E; destruct E as (-> & E).

Tactic Notation "inv_call" hyp(E) ident(w) :=
  apply call_inv in E; destruct E as (w & E & ->); cbn [fst snd] in *.

Lemma epoch_body_log (trainer : Trainer X) (loader : Loader X)
  (optimizer : Optimizer X) (device : Device X) (model : Model X)
  (cb : Callback X) (config : value) (epoch : Z)
  (st st' : World X * list event) :
  epoch_body X trainer loader optimizer device model cb config epoch st
  = (st', Return tt) ->
  training_events (snd st')
  = training_events (snd st) ++ [EvTrainEpoch epoch; EvStep epoch config].
Proof.
  unfold epoch_body. intros E.
  inv_bind E loss st1 E1. inv_call E1 w1.
  inv_bind E msd st2 E2. inv_call E2 w2.
  inv_bind E osd st3 E3. inv_call E3 w3.
  inv_bind E csd st4 E4. inv_call E4 w4.
  inv_call E w5.
  rewrite !training_events_app. simpl. rewrite !app_nil_r, <- app_assoc.
  reflexivity.
Qed.

Lemma for_epochs_log (trainer : Trainer X) (loader : Loader X)
  (optimizer : Optimizer X) (device : Device X) (model : Model X)
  (cb : Callback X) (config : value) (epochs : list Z)
  (st st' : World X * list event) :
  for_epochs X epochs
    (epoch_body X trainer loader optimizer device model cb config) st
  = (st', Return tt) ->
  training_events (snd st')
  = training_events (snd st) ++ schedule config epochs.
Proof.
  revert st. induction epochs as [|epoch epochs IH]; intros st E.
  - simpl in E. unfold ret in E. injection E as <-.
    unfold schedule; simpl. rewrite app_nil_r. reflexivity.
  - simpl in E. inv_bind E u st1 E1. destruct u.
    apply epoch_body_log in E1. apply IH in E.
    rewrite E, E1, schedule_cons, <- app_assoc. reflexivity.
Qed.

Lemma load_config_log (config config' : value) (cp : option value)
  (st st' : World X * list event) :
  load_config X config st = (st', Return (config', cp)) ->
  training_events (snd st') = training_events (snd st).
Proof.
  unfold load_config. intros E.
  inv_bind E consume st1 E1. inv_lift E1.
  destruct (truthy consume).
  - inv_bind E path st2 E2. inv_lift E2.
    inv_bind E c st3 E3. inv_call E3 w3.
    inv_bind E c' st4 E4. inv_lift E4.
    unfold ret in E. injection E as <- _ _.
    simpl. rewrite training_events_app. simpl. apply app_nil_r.
  - unfold ret in E. injection E as <- _ _. reflexivity.
Qed.

Lemma restore_log (cp : option value) (model : Model X)
  (optimizer : Optimizer X) (cb : Callback X) (start start' : value)
  (st st' : World X * list event) :
  restore X cp model optimizer cb start st = (st', Return start') ->
  training_events (snd st') = training_events (snd st) /\
  match cp with
  | Some cp => exists s, subscript cp "start_epoch" = Return s /\
                         add_one s = Return start'
  | None => start' = start
  end.
Proof.
  unfold restore. intros E. destruct cp as [cp|].
  - inv_bind E sd1 st1 E1. inv_lift E1.
    inv_bind E u1 st2 E2. inv_call E2 w2.
    inv_bind E sd2 st3 E3. inv_lift E3.
    inv_bind E u2 st4 E4. inv_call E4 w4.
    inv_bind E sd3 st5 E5. inv_lift E5.
    inv_bind E u3 st6 E6. inv_call E6 w6.
    inv_bind E s st7 E7. inv_lift E7.
    apply lift_inv in E. destruct E as (-> & E).
    split; [|exists s; auto].
    simpl. rewrite !training_events_app. simpl. rewrite !app_nil_r.
    reflexivity.
  - unfold ret in E. injection E as <- <-. auto.
Qed.

(** A run of [train] that returns: what was loaded, and the epochs. *)
Lemma train_returns (config : value) (st st' : World X * list event) :
  train X config st = (st', Return tt) ->
  exists config' cp st1 start last stop epochs,
    load_config X config st = (st1, Return (config', cp)) /\
    match cp with
    | Some cp => exists s, subscript cp "start_epoch" = Return s /\
                           add_one s = Return start
    | None => start = VInt 1
    end /\
    subscript config' "epochs" = Return last /\
    add_one last = Return stop /\
    py_range start stop = Return epochs /\
    training_events (snd st')
    = training_events (snd st) ++ schedule config' epochs.
Proof.
  unfold train. intros E.
  inv_bind E loaded st1 E1. destruct loaded as (config', cp).
  assert (Hl := load_config_log _ _ _ _ _ E1).
  inv_bind E u1 st2 E2. inv_call E2 w2.
  inv_bind E name st3 E3. inv_lift E3.
  inv_bind E device st4 E4. inv_call E4 w4.
  inv_bind E ds st5 E5. inv_lift E5.
  inv_bind E ds' st6 E6. inv_lift E6.
  inv_bind E triple st7 E7. inv_call E7 w7.
  destruct triple as ((loader, param_scaler), prop_scaler).
  inv_bind E u2 st8 E8. inv_call E8 w8.
  inv_bind E u3 st9 E9. inv_call E9 w9.
  cbv zeta in E.
  inv_bind E me st10 E10. inv_lift E10.
  inv_bind E me' st11 E11. inv_lift E11.
  inv_bind E model st12 E12. inv_call E12 w12.
  inv_bind E model' st13 E13. inv_call E13 w13.
  inv_bind E params st13' E13'. inv_call E13' w13'.
  inv_bind E lr st14 E14. inv_lift E14.
  inv_bind E optimizer st15 E15. inv_call E15 w15.
  inv_bind E tk st16 E16. inv_lift E16.
  inv_bind E tk' st17 E17. inv_lift E17.
  inv_bind E trainer st18 E18. inv_call E18 w18.
  inv_bind E trainer' st19 E19. inv_call E19 w19.
  inv_bind E ck st20 E20. inv_lift E20.
  inv_bind E ck' st21 E21. inv_lift E21.
  inv_bind E cb st22 E22. inv_call E22 w22.
  inv_bind E start st23 E23.
  apply restore_log in E23. destruct E23 as (Hr & Hstart).
  inv_bind E last st24 E24. inv_lift E24.
  inv_bind E stop st25 E25. inv_lift E25.
  inv_bind E epochs st26 E26. inv_lift E26.
  apply for_epochs_log in E.
  exists config', cp, st1, start, last, stop, epochs.
  split; [exact E1|]. split; [exact Hstart|].
  split; [exact E24|]. split; [exact E25|]. split; [exact E26|].
  rewrite E, Hr. cbn [snd]. rewrite !training_events_app. simpl.
  rewrite !app_nil_r, Hl. reflexivity.
Qed.

Lemma load_config_fresh (config consume : value)
  (st : World X * list event) :
  subscript config "consume" = Return consume -> truthy consume = false ->
  load_config X config st = (st, Return (config, None)).
Proof.
  intros Hc Ht. unfold load_config, TrainEnergy.bind, lift. rewrite Hc, Ht.
  reflexivity.
Qed.

Lemma load_config_resume (config consume path cp config' : value)
  (w w1 : World X) (log : list event) :
  subscript config "consume" = Return consume -> truthy consume = true ->
  subscript config "consume_path" = Return path ->
  torch_load X path w = (w1, Return cp) ->
  subscript cp "config" = Return config' ->
  load_config X config (w, log)
  = ((w1, log ++ [EvLoad path]), Return (config', Some cp)).
Proof.
  intros Hc Ht Hp Hl Hcfg.
  unfold load_config, TrainEnergy.bind, lift, call, ret.
  rewrite Hc, Ht, Hp, Hl, Hcfg. reflexivity.
Qed.

End Runs.

Lemma map_seq_shift (f : nat -> Z) (k n : nat) :
  map f (seq k n) = map (fun i => f (k + i)%nat) (seq 0 n).
Proof.
  revert f k. induction n as [|n IH]; intros f k; simpl; [reflexivity|].
  rewrite Nat.add_0_r. f_equal.
  rewrite (IH f (Datatypes.S k)), (IH (fun i => f (k + i)%nat) 1%nat).
  apply map_ext. intros i. f_equal. lia.
Qed.

Lemma interval_app (a b c : Z) :
  a <= b <= c -> interval a b ++ interval b c = interval a c.
Proof.
  intros H. unfold interval.
  replace (Z.to_nat (c - a)) with (Z.to_nat (b - a) + Z.to_nat (c - b))%nat
    by lia.
  rewrite seq_app, map_app. f_equal. simpl.
  rewrite (map_seq_shift _ (Z.to_nat (b - a))).
  apply map_ext. intros i. lia.
Qed.

Lemma schedule_app (config : value) (l1 l2 : list Z) :
  schedule config (l1 ++ l2) = schedule config l1 ++ schedule config l2.
Proof. unfold schedule. apply flat_map_app. Qed.

End TrainEnergyFacts.

Module TrainEnergyRuns.

Import String.

(** X20.  A run of [train] without [consume] that returns has trained the
    epochs [1, 2, ..., config["epochs"]], in this order and each one once,
    and after each epoch it has called [model_checkpoint.step] with the
    configuration it was given and [start_epoch] set to that epoch; no epoch
    is trained when [config["epochs"] < 1].  This holds whatever the
    collaborators do. *)
Theorem fresh_run_trains_every_epoch (X : TrainEnergy.Externals)
  (config consume : TrainEnergy.value) (E : Z)
  (w w' : TrainEnergy.World X) (log : list TrainEnergy.event) :
  TrainEnergy.subscript config "consume" = TrainEnergy.Return consume ->
  TrainEnergy.truthy consume = false ->
  TrainEnergy.subscript config "epochs"
  = TrainEnergy.Return (TrainEnergy.VInt E) ->
  TrainEnergy.train X config (w, []) = ((w', log), TrainEnergy.Return tt) ->
  TrainEnergy.training_events log
  = TrainEnergy.schedule config (TrainEnergy.interval 1 (E + 1)) /\
  List.length (TrainEnergy.interval 1 (E + 1)) = Z.to_nat E.
Proof.
  intros Hc Ht He Hrun.
  apply TrainEnergyFacts.train_returns in Hrun.
  destruct Hrun as (config' & cp & st1 & start & last & stop & epochs
                    & Hload & Hstart & Hlast & Hstop & Hrange & Hlog).
  rewrite (TrainEnergyFacts.load_config_fresh X config consume _ Hc Ht)
    in Hload.
  injection Hload as <- <- <-. subst start.
  rewrite He in Hlast. injection Hlast as <-.
  simpl in Hstop. injection Hstop as <-.
  simpl in Hrange. injection Hrange as <-.
  split; [exact Hlog|].
  unfold TrainEnergy.interval. rewrite length_map, length_seq. lia.
Qed.

Lemma fresh_run_trains_every_epoch_witness :
  exists log,
    TrainEnergy.train TrainEnergy.quiet TrainEnergy.fresh_config (tt, [])
    = ((tt, log), TrainEnergy.Return tt) /\
    TrainEnergy.training_events log
    = TrainEnergy.schedule TrainEnergy.fresh_config [1; 2].
Proof.
  eexists. split; [vm_compute; reflexivity|].
  exact (proj1 (fresh_run_trains_every_epoch TrainEnergy.quiet
                  TrainEnergy.fresh_config (TrainEnergy.VBool false) 2 tt tt _
                  eq_refl eq_refl eq_refl eq_refl)).
Defined.

(** X21.  A run of [train] with [consume] set takes everything but
    [consume_path] from the checkpoint: the configuration passed in is
    replaced by [cp["config"]], so two configurations with the same
    [consume_path] behave alike, and a run that returns has trained the
    epochs [cp["start_epoch"] + 1, ..., cp["config"]["epochs"]], each
    followed by its checkpoint step.  Together with the epochs
    [1, ..., cp["start_epoch"]] of the run that wrote the checkpoint, every
    epoch up to [epochs] is trained once. *)
Theorem resumed_run_continues_checkpoint (X : TrainEnergy.Externals)
  (config consume path cp config' : TrainEnergy.value) (s E : Z)
  (w w1 w' : TrainEnergy.World X) (log : list TrainEnergy.event) :
  TrainEnergy.subscript config "consume" = TrainEnergy.Return consume ->
  TrainEnergy.truthy consume = true ->
  TrainEnergy.subscript config "consume_path" = TrainEnergy.Return path ->
  TrainEnergy.torch_load X path w = (w1, TrainEnergy.Return cp) ->
  TrainEnergy.subscript cp "config" = TrainEnergy.Return config' ->
  TrainEnergy.subscript cp "start_epoch"
  = TrainEnergy.Return (TrainEnergy.VInt s) ->
  TrainEnergy.subscript config' "epochs"
  = TrainEnergy.Return (TrainEnergy.VInt E) ->
  TrainEnergy.train X config (w, []) = ((w', log), TrainEnergy.Return tt) ->
  TrainEnergy.training_events log
  = TrainEnergy.schedule config' (TrainEnergy.interval (s + 1) (E + 1)) /\
  (0 <= s <= E ->
   TrainEnergy.schedule config' (TrainEnergy.interval 1 (s + 1))
   ++ TrainEnergy.training_events log
   = TrainEnergy.schedule config' (TrainEnergy.interval 1 (E + 1))) /\
  (forall config2 consume2 : TrainEnergy.value,
     TrainEnergy.subscript config2 "consume" = TrainEnergy.Return consume2 ->
     TrainEnergy.truthy consume2 = true ->
     TrainEnergy.subscript config2 "consume_path" = TrainEnergy.Return path ->
     TrainEnergy.train X config2 (w, []) = ((w', log), TrainEnergy.Return tt)).
Proof.
  intros Hc Ht Hp Hl Hcfg Hs He Hrun.
  assert (Hload := TrainEnergyFacts.load_config_resume X config consume path
                     cp config' w w1 [] Hc Ht Hp Hl Hcfg).
  assert (Hsched : TrainEnergy.training_events log
                   = TrainEnergy.schedule config'
                       (TrainEnergy.interval (s + 1) (E + 1))).
  { apply TrainEnergyFacts.train_returns in Hrun.
    destruct Hrun as (c' & cp' & st1 & start & last & stop & epochs
                      & Hload' & Hstart & Hlast & Hstop & Hrange & Hlog).
    rewrite Hload in Hload'. injection Hload' as <- <- <-.
    destruct Hstart as (s' & Hs' & Hadd).
    rewrite Hs in Hs'. injection Hs' as <-.
    simpl in Hadd. injection Hadd as <-.
    rewrite He in Hlast. injection Hlast as <-.
    simpl in Hstop. injection Hstop as <-.
    simpl in Hrange. injection Hrange as <-.
    exact Hlog. }
  split; [exact Hsched|]. split.
  - intros Hse. rewrite Hsched, <- TrainEnergyFacts.schedule_app.
    rewrite TrainEnergyFacts.interval_app by lia. reflexivity.
  - intros config2 consume2 Hc2 Ht2 Hp2.
    assert (Hload2 := TrainEnergyFacts.load_config_resume X config2 consume2
                        path cp config' w w1 [] Hc2 Ht2 Hp2 Hl Hcfg).
    rewrite <- Hrun. unfold TrainEnergy.train, TrainEnergy.bind.
    rewrite Hload, Hload2. reflexivity.
Qed.

Lemma resumed_run_continues_checkpoint_witness :
  exists log,
    TrainEnergy.train TrainEnergy.quiet TrainEnergy.resume_config (tt, [])
    = ((tt, log), TrainEnergy.Return tt) /\
    TrainEnergy.training_events log
    = [TrainEnergy.EvTrainEpoch 4;
       TrainEnergy.EvStep 4
         (TrainEnergy.VDict
            [("device", TrainEnergy.VStr "cpu");
             ("Dataset", TrainEnergy.VDict []);
             ("ModelEnergy", TrainEnergy.VDict []);
             ("lr", TrainEnergy.VFloat (1 # 1000));
             ("Trainer", TrainEnergy.VDict []);
             ("CallbackEnergy", TrainEnergy.VDict []);
             ("epochs", TrainEnergy.VInt 5)]%string);
       TrainEnergy.EvTrainEpoch 5;
       TrainEnergy.EvStep 5
         (TrainEnergy.VDict
            [("device", TrainEnergy.VStr "cpu");
             ("Dataset", TrainEnergy.VDict []);
             ("ModelEnergy", TrainEnergy.VDict []);
             ("lr", TrainEnergy.VFloat (1 # 1000));
             ("Trainer", TrainEnergy.VDict []);
             ("CallbackEnergy", TrainEnergy.VDict []);
             ("epochs", TrainEnergy.VInt 5)]%string)].
Proof.
  eexists. split; [vm_compute; reflexivity|].
  exact (proj1 (resumed_run_continues_checkpoint TrainEnergy.quiet
                  TrainEnergy.resume_config (TrainEnergy.VBool true)
                  (TrainEnergy.VStr "checkpoint/last.pt") _ _ 3 5 tt tt tt _
                  eq_refl eq_refl eq_refl eq_refl eq_refl eq_refl eq_refl
                  eq_refl)).
Defined.

End TrainEnergyRuns.
